(** * OCR2VRF coordinator: event reconciliation and deduplication

    A shallow embedding of
    [core/services/ocr2/plugins/ocr2vrf/coordinator/coordinator.go]
    together with the properties its design document states about it.

    Conventions.
    - Go's fixed-width integers are integers of [Z] with the wrap-around
      written out ([uint64], [uint32], [int64]); [*big.Int] is [Z] itself.
    - A byte is a [Z] in [0, 256); [common.Hash] is the big-endian value of
      its 32 bytes.
    - Go maps are [gmap]/[gset]; the order in which Go ranges over a map is
      unspecified, here it is the order of [elements].
    - A call returns [Ok], an error value ([Err]) or stops in a run-time
      panic ([Panics]). *)

From Stdlib Require Import ZArith Lia.
From stdpp Require Import base option list strings gmap.

Local Open Scope Z_scope.
#[local] Set Warnings "-clear-no-such-hyp".

(** ** Machine integers *)

Definition uint64 (x : Z) : Z := x mod 2 ^ 64.
Definition uint32 (x : Z) : Z := x mod 2 ^ 32.
Definition int64 (x : Z) : Z := (x + 2 ^ 63) mod 2 ^ 64 - 2 ^ 63.

(** [math/big]: [Uint64] is [low64(x.abs)], [Int64] is the same word read as
    an [int64] and negated when the number is negative. *)
Module big.
Definition low64 (x : Z) : Z := Z.abs x mod 2 ^ 64.
Definition Uint64 (x : Z) : Z := low64 x.
Definition Int64 (x : Z) : Z :=
  let v := int64 (low64 x) in
  if x <? 0 then int64 (- v) else v.
End big.

(** ** Eligibility *)

(** [isBlockEligible], coordinator.go:769. *)
Definition isBlockEligible (nextBeaconOutputHeight confDelay currentHeight : Z) : bool :=
  let cond := big.Int64 confDelay <? currentHeight in
  cond && (uint64 (nextBeaconOutputHeight + big.Uint64 confDelay) <? uint64 currentHeight).

(** ** Bytes and hashes *)

Definition HashLength : nat := 32.

(** Big-endian value of a byte string. *)
Definition be_value (b : list Z) : Z := foldl (λ acc x, acc * 256 + x) 0 b.

(** [common.BytesToHash]: a string longer than 32 bytes is cropped from the
    left, a shorter one is padded with zeroes on the left. *)
Definition BytesToHash (b : list Z) : Z :=
  be_value (drop (length b - HashLength) b).

(** [h[:]], the 32 bytes of a hash. *)
Definition Hash_bytes (h : Z) : list Z :=
  (λ i : nat, (h / 256 ^ Z.of_nat (31 - i)) mod 256) <$> seq 0 HashLength.

(** ** Keys of the two transmission caches *)

(** [block], coordinator.go:48. *)
Record block : Type := mkBlock {
  blockHash : Z;
  blockNumber : Z;
  confDelay : Z
}.

(** [callback], coordinator.go:54. *)
Record callback : Type := mkCallback {
  cbBlockHash : Z;
  cbBlockNumber : Z;
  cbRequestID : Z
}.

#[global] Instance block_eq_dec : EqDecision block.
Proof. solve_decision. Defined.

#[global] Instance block_countable : Countable block.
Proof.
  refine (inj_countable' (λ b, (blockHash b, blockNumber b, confDelay b))
                         (λ t, mkBlock t.1.1 t.1.2 t.2) _).
  by intros [].
Defined.

(** ** Errors and results *)

Inductive error : Type :=
  | errNew (msg : string)
  | errWrap (cause : error) (msg : string)
  | errNotFound
  | errBlockInFlight (b : block)
  | errCallbackInFlight (cb : callback)
  | errMissingHeads (want got : nat).

(** The two errors of [ReportWillBeTransmitted] that report a key already
    scheduled: "Block is already in-flight" and "Callback is already
    in-flight". *)
Definition alreadyInFlight (e : error) : Prop :=
  match e with
  | errBlockInFlight _ | errCallbackInFlight _ => True
  | _ => False
  end.

(** A Go result pair [(T, error)]. *)
Inductive result (A : Type) : Type :=
  | Ok (a : A)
  | Err (e : error).
Arguments Ok {A} a.
Arguments Err {A} e.

(** A call that may also stop in a run-time panic (index out of range, nil
    pointer dereference). *)
Inductive outcome (A : Type) : Type :=
  | Returns (a : A)
  | Panics (msg : string).
Arguments Returns {A} a.
Arguments Panics {A} msg.

Definition outcome_bind {A B} (m : outcome A) (f : A → outcome B) : outcome B :=
  match m with
  | Returns a => f a
  | Panics msg => Panics msg
  end.

Notation "'do' x <- m ; f" := (outcome_bind m (λ x, f))
  (at level 10, x pattern, m at level 100, f at level 200).

(** ** The dedup cache *)

Module Cache.

(** Modelled from the spec: the generic [BlockCache] of the coordinator
    package, which lives in a file of its own next to coordinator.go.  The
    design document, sections 3 and 4.3: a mapping from the canonical hash
    to the item and the height it was inserted at, plus a fixed eviction
    window; [Add] inserts or overwrites unconditionally, [Get] returns the
    item or NotFound, [EvictExpired] removes every entry with
    [insertedAtHeight + evictionWindow < currentHeight]. *)
Record cacheItem (T : Type) : Type := mkItem {
  item : T;
  itemHeight : Z
}.
Arguments mkItem {T} _ _.
Arguments item {T} _.
Arguments itemHeight {T} _.

Record BlockCache (T : Type) : Type := mkCache {
  cache : gmap Z (cacheItem T);
  evictionWindow : Z
}.
Arguments mkCache {T} _ _.
Arguments cache {T} _.
Arguments evictionWindow {T} _.

(** Modelled from the spec: construction with a fixed eviction window. *)
Definition NewBlockCache (T : Type) (evictionWindow : Z) : BlockCache T :=
  mkCache ∅ evictionWindow.

(** Modelled from the spec: [Add] inserts or overwrites unconditionally. *)
Definition AddItem {T} (b : BlockCache T) (it : T) (itemKey : Z) (height : Z)
  : BlockCache T :=
  mkCache (<[itemKey := mkItem it height]> (cache b)) (evictionWindow b).

(** Modelled from the spec: [Get] returns the item, or NotFound. *)
Definition GetItem {T} (b : BlockCache T) (itemKey : Z) : result T :=
  match cache b !! itemKey with
  | Some e => Ok (item e)
  | None => Err errNotFound
  end.

(** Modelled from the spec: an entry is expired when
    [insertedAtHeight + evictionWindow < currentHeight]. *)
Definition expired {T} (window currentHeight : Z) (kv : Z * cacheItem T) : Prop :=
  itemHeight kv.2 + window < currentHeight.

#[global] Instance expired_dec {T} w h (kv : Z * cacheItem T) :
  Decision (expired w h kv).
Proof. unfold expired. apply _. Defined.

(** Modelled from the spec: [EvictExpired] removes every expired entry. *)
Definition EvictExpiredItems {T} (b : BlockCache T) (currentHeight : Z)
  : BlockCache T :=
  mkCache (filter (λ kv, ¬ expired (evictionWindow b) currentHeight kv) (cache b))
          (evictionWindow b).

End Cache.
Import Cache.

(** ** Cache keys *)

(** [json.Marshal] at the two key types.  [encoding/json] encodes the
    exported fields of a struct only; every field of [block] and of
    [callback] starts with a lower-case letter, so both encode as the empty
    object, the two bytes of ["{}"], and marshalling cannot fail. *)
Class Marshaler (T : Type) := json_Marshal : T → result (list Z).

Definition emptyObject : list Z := [123; 125].

#[global] Instance block_Marshaler : Marshaler block := λ _, Ok emptyObject.
#[global] Instance callback_Marshaler : Marshaler callback := λ _, Ok emptyObject.

(** [getCacheKey], coordinator.go:799. *)
Definition getCacheKey {T} `{Marshaler T} (it : T) : result Z :=
  match json_Marshal it with
  | Err e => Err e
  | Ok keyBytes => Ok (BytesToHash keyBytes)
  end.
Global Arguments getCacheKey : simpl never.

(** ** Types of the collaborators *)

(** [ocr2vrftypes.AbstractCostedCallbackRequest]. *)
Module AbstractCostedCallbackRequest.
Record t : Type := mk {
  BeaconHeight : Z;
  ConfirmationDelay : Z;
  SubscriptionID : Z;
  Price : Z;
  RequestID : Z;
  NumWords : Z;
  Requester : Z;
  Arguments : list Z;
  GasAllowance : Z;
  RequestHeight : Z;
  RequestBlockHash : Z
}.
End AbstractCostedCallbackRequest.

(** [ocr2vrftypes.AbstractVRFOutput]. *)
Module AbstractVRFOutput.
Record t : Type := mk {
  BlockHeight : Z;
  ConfirmationDelay : Z;
  VRFProof : list Z;
  Callbacks : list AbstractCostedCallbackRequest.t
}.
End AbstractVRFOutput.

(** [ocr2vrftypes.AbstractReport]; only [Outputs] is read. *)
Module AbstractReport.
Record t : Type := mk {
  Outputs : list AbstractVRFOutput.t
}.
End AbstractReport.

(** [ocr2vrftypes.Block]. *)
Module Block.
Record t : Type := mk {
  Hash : Z;
  Height : Z;
  ConfirmationDelay : Z
}.
End Block.

(** [ocr2vrftypes.OCRCommittee]. *)
Module OCRCommittee.
Record t : Type := mk {
  Signers : list Z;
  Transmitters : list Z
}.
End OCRCommittee.

(** [logpoller.Log]. *)
Module Log.
Record t : Type := mk {
  EventSig : list Z;
  Topics : list (list Z);
  Data : list Z;
  Address : Z;
  BlockHash : Z;
  BlockNumber : Z;
  TxHash : Z;
  LogIndex : Z
}.
End Log.

(** [types.Log] of go-ethereum. *)
Module GethLog.
Record t : Type := mk {
  Data : list Z;
  Address : Z;
  BlockHash : Z;
  BlockNumber : Z;
  Topics : list Z;
  TxHash : Z;
  Index : Z
}.
End GethLog.

(** [logpoller.LogPollerBlock], an entry of [GetBlocks]. *)
Module LogPollerBlock.
Record t : Type := mk {
  BlockHash : Z;
  BlockNumber : Z
}.
End LogPollerBlock.

(** The events of the beacon contract, with the fields the coordinator
    reads. *)
Module RandomnessRequested.
Record t : Type := mk {
  NextBeaconOutputHeight : Z;
  ConfDelay : Z
}.
End RandomnessRequested.

Module VRFBeaconTypesCallback.
Record t : Type := mk {
  RequestID : Z;
  NumWords : Z;
  Requester : Z;
  Arguments : list Z;
  GasAllowance : Z
}.
End VRFBeaconTypesCallback.

Module RandomnessFulfillmentRequested.
Record t : Type := mk {
  NextBeaconOutputHeight : Z;
  ConfDelay : Z;
  SubID : Z;
  Callback : VRFBeaconTypesCallback.t;
  Raw : GethLog.t
}.
End RandomnessFulfillmentRequested.

Module RandomWordsFulfilled.
Record t : Type := mk {
  RequestIDs : list Z;
  SuccessfulFulfillment : list Z
}.
End RandomWordsFulfilled.

Module OutputServed.
Record t : Type := mk {
  Height : Z;
  ConfirmationDelay : Z
}.
End OutputServed.

Module NewTransmission.
Record t : Type := mk {
  OutputsServed : list OutputServed.t
}.
End NewTransmission.

Module ConfigSet.
Record t : Type := mk {
  Signers : list Z;
  Transmitters : list Z
}.
End ConfigSet.

(** What [ParseLog] hands back: a value of one of the generated event
    types behind an interface. *)
Inductive Event : Type :=
  | EvRandomnessRequested (rr : RandomnessRequested.t)
  | EvRandomnessFulfillmentRequested (rfr : RandomnessFulfillmentRequested.t)
  | EvRandomWordsFulfilled (rwf : RandomWordsFulfilled.t)
  | EvNewTransmission (nt : NewTransmission.t)
  | EvConfigSet (cs : ConfigSet.t).

(** The log poller, as far as the coordinator calls it.  A field is the
    answer the poller gives at the time of the call. *)
Record LogPoller : Type := mkLogPoller {
  LatestBlock : result Z;
  LogsWithSigs : Z → Z → list Z → Z → result (list Log.t);
  GetBlocks : list Z → list LogPollerBlock.t * option error;
  LatestLogByEventSigWithConfs : Z → Z → Z → result Log.t
}.

(** The contract binding and the two ABIs. *)
Record VRFBeaconCoordinator : Type := mkContract {
  ParseLog : GethLog.t → result Event
}.

(** [topics], filled by [newTopics]. *)
Record topics : Type := mkTopics {
  randomnessRequestedTopic : Z;
  randomnessFulfillmentRequestedTopic : Z;
  randomWordsFulfilledTopic : Z;
  configSetTopic : Z;
  newTransmissionTopic : Z
}.

(** ** The coordinator *)

(** [coordinator], coordinator.go:60 (the logger, the EVM client and the
    mutex carry no data of the model).  The package variables [vrfABI] and
    [dkgABI] are read through [UnpackIntoInterface] at the ConfigSet event
    only; they ride along as the two unpack functions. *)
Record coordinator : Type := mkCoordinator {
  lp : LogPoller;
  embeddedTopics : topics;
  lookbackBlocks : Z;
  finalityDepth : Z;
  coordinatorContract : VRFBeaconCoordinator;
  vrfUnpackConfigSet : list Z → result ConfigSet.t;
  dkgUnpackConfigSet : list Z → result ConfigSet.t;
  coordinatorAddress : Z;
  dkgAddress : Z;
  toBeTransmittedBlocks : BlockCache block;
  toBeTransmittedCallbacks : BlockCache callback
}.

Definition withBlocks (c : coordinator) (b : BlockCache block) : coordinator :=
  mkCoordinator (lp c) (embeddedTopics c) (lookbackBlocks c) (finalityDepth c)
    (coordinatorContract c) (vrfUnpackConfigSet c) (dkgUnpackConfigSet c)
    (coordinatorAddress c) (dkgAddress c) b (toBeTransmittedCallbacks c).

Definition withCallbacks (c : coordinator) (b : BlockCache callback) : coordinator :=
  mkCoordinator (lp c) (embeddedTopics c) (lookbackBlocks c) (finalityDepth c)
    (coordinatorContract c) (vrfUnpackConfigSet c) (dkgUnpackConfigSet c)
    (coordinatorAddress c) (dkgAddress c) (toBeTransmittedBlocks c) b.

(** [New], coordinator.go:85: the caches start empty with a window of
    [int64(finalityDepth * 2)], the product taken in [uint32]. *)
Definition New (coordinatorAddress dkgAddress : Z) (contract : VRFBeaconCoordinator)
    (vrfUnpack dkgUnpack : list Z → result ConfigSet.t) (t : topics)
    (lookbackBlocks : Z) (logPoller : LogPoller) (finalityDepth : Z) : coordinator :=
  let cacheEvictionWindow := uint32 (finalityDepth * 2) in
  mkCoordinator logPoller t lookbackBlocks finalityDepth contract vrfUnpack dkgUnpack
    coordinatorAddress dkgAddress
    (NewBlockCache block cacheEvictionWindow)
    (NewBlockCache callback cacheEvictionWindow).

(** ** ReportWillBeTransmitted *)

(** The inner loop of the first pass, coordinator.go:610: the callbacks of
    one output. *)
Fixpoint checkCallbacks (c : coordinator)
    (cbs : list AbstractCostedCallbackRequest.t) (callbacksRequested : list callback)
    : result (list callback) :=
  match cbs with
  | [] => Ok callbacksRequested
  | cb :: cbs' =>
    let callbackToStore :=
      mkCallback 0 (AbstractCostedCallbackRequest.BeaconHeight cb)
                   (AbstractCostedCallbackRequest.RequestID cb) in
    match getCacheKey callbackToStore with
    | Err e =>
      Err (errWrap e "Getting callback cache key in ReportWillBeTransmitted")
    | Ok key =>
      match GetItem (toBeTransmittedCallbacks c) key with
      | Ok _ => Err (errCallbackInFlight callbackToStore)
      | Err _ => checkCallbacks c cbs' (callbacksRequested ++ [callbackToStore])
      end
    end
  end.

(** The first pass, coordinator.go:588: every key of the report is checked
    against the caches and collected. *)
Fixpoint checkOutputs (c : coordinator) (outputs : list AbstractVRFOutput.t)
    (blocksRequested : list block) (callbacksRequested : list callback)
    : result (list block * list callback) :=
  match outputs with
  | [] => Ok (blocksRequested, callbacksRequested)
  | output :: outputs' =>
    let blockToStore :=
      mkBlock 0 (AbstractVRFOutput.BlockHeight output)
                (AbstractVRFOutput.ConfirmationDelay output) in
    let checked :=
      if bool_decide (0 < length (AbstractVRFOutput.VRFProof output))%nat then
        match getCacheKey blockToStore with
        | Err e =>
          Err (errWrap e "Getting block cache key in ReportWillBeTransmitted")
        | Ok key =>
          match GetItem (toBeTransmittedBlocks c) key with
          | Ok _ => Err (errBlockInFlight blockToStore)
          | Err _ => Ok (blocksRequested ++ [blockToStore])
          end
        end
      else Ok blocksRequested in
    match checked with
    | Err e => Err e
    | Ok blocksRequested' =>
      match checkCallbacks c (AbstractVRFOutput.Callbacks output) callbacksRequested with
      | Err e => Err e
      | Ok callbacksRequested' =>
        checkOutputs c outputs' blocksRequested' callbacksRequested'
      end
    end
  end.

(** The second pass, coordinator.go:636 and 645: the collected keys go into
    the caches at [latestBlock].  The caches are updated in place, so an
    error return leaves what was added before it. *)
Fixpoint addBlocks (cache : BlockCache block) (blocksRequested : list block)
    (latestBlock : Z) : BlockCache block * option error :=
  match blocksRequested with
  | [] => (cache, None)
  | b :: rest =>
    match getCacheKey b with
    | Err e =>
      (cache, Some (errWrap e "Getting block cache key in ReportWillBeTransmitted"))
    | Ok key => addBlocks (AddItem cache b key latestBlock) rest latestBlock
    end
  end.

Fixpoint addCallbacks (cache : BlockCache callback) (callbacksRequested : list callback)
    (latestBlock : Z) : BlockCache callback * option error :=
  match callbacksRequested with
  | [] => (cache, None)
  | cb :: rest =>
    match getCacheKey cb with
    | Err e =>
      (cache, Some (errWrap e "Getting callback cache key in ReportWillBeTransmitted"))
    | Ok key => addCallbacks (AddItem cache cb key latestBlock) rest latestBlock
    end
  end.

(** [ReportWillBeTransmitted], coordinator.go:580: the coordinator after the
    call and the error returned, if any. *)
Definition ReportWillBeTransmitted (c : coordinator) (report : AbstractReport.t)
    : coordinator * option error :=
  match checkOutputs c (AbstractReport.Outputs report) [] [] with
  | Err e => (c, Some e)
  | Ok (blocksRequested, callbacksRequested) =>
    match LatestBlock (lp c) with
    | Err e =>
      (c, Some (errWrap e "Getting latest block in ReportWillBeTransmitted"))
    | Ok latestBlock =>
      match addBlocks (toBeTransmittedBlocks c) blocksRequested latestBlock with
      | (blocks', Some e) => (withBlocks c blocks', Some e)
      | (blocks', None) =>
        let c1 := withBlocks c blocks' in
        match addCallbacks (toBeTransmittedCallbacks c1) callbacksRequested latestBlock with
        | (callbacks', Some e) => (withCallbacks c1 callbacks', Some e)
        | (callbacks', None) =>
          let c2 := withCallbacks c1 callbacks' in
          let c3 := withBlocks c2 (EvictExpiredItems (toBeTransmittedBlocks c2) latestBlock) in
          (withCallbacks c3 (EvictExpiredItems (toBeTransmittedCallbacks c3) latestBlock), None)
        end
      end
    end
  end.

(** ** Classification of the logs *)

(** [toGethLog], coordinator.go:782. *)
Definition toGethLog (lg : Log.t) : GethLog.t :=
  let topics := BytesToHash <$> Log.Topics lg in
  GethLog.mk (Log.Data lg) (Log.Address lg) (Log.BlockHash lg)
    (uint64 (Log.BlockNumber lg)) topics (Log.TxHash lg) (uint64 (Log.LogIndex lg)).

(** The five named results of [unmarshalLogs].  The entries of the first
    three slices are the pointers a successful type assertion gave, never
    nil; an entry of [newTransmissionLogs] is [None] when it is the nil
    pointer of a failed assertion. *)
Record unmarshalled : Type := mkUnmarshalled {
  randomnessRequestedLogs : list RandomnessRequested.t;
  randomnessFulfillmentRequestedLogs : list RandomnessFulfillmentRequested.t;
  randomWordsFulfilledLogs : list RandomWordsFulfilled.t;
  newTransmissionLogs : list (option NewTransmission.t);
  unmarshalErr : option error
}.

(** The loop of [unmarshalLogs], coordinator.go:509, started from the
    current values of the named results. *)
Fixpoint unmarshalLoop (c : coordinator) (logs : list Log.t) (acc : unmarshalled)
    : unmarshalled :=
  let '(mkUnmarshalled rrs rfrs rwfs nts err) := acc in
  let t := embeddedTopics c in
  match logs with
  | [] => acc
  | lg :: logs' =>
    let rawLog := toGethLog lg in
    if decide (Log.EventSig lg = Hash_bytes (randomnessRequestedTopic t)) then
      match ParseLog (coordinatorContract c) rawLog with
      | Err err2 =>
        mkUnmarshalled rrs rfrs rwfs nts
          (Some (errWrap err2 "unmarshal RandomnessRequested log"))
      | Ok (EvRandomnessRequested rr) =>
        unmarshalLoop c logs' (mkUnmarshalled (rrs ++ [rr]) rfrs rwfs nts err)
      | Ok _ =>
        mkUnmarshalled rrs rfrs rwfs nts
          (Some (errNew "cast to *VRFBeaconCoordinatorRandomnessRequested"))
      end
    else if decide (Log.EventSig lg
                    = Hash_bytes (randomnessFulfillmentRequestedTopic t)) then
      match ParseLog (coordinatorContract c) rawLog with
      | Err err2 =>
        mkUnmarshalled rrs rfrs rwfs nts
          (Some (errWrap err2 "unmarshal RandomnessFulfillmentRequested log"))
      | Ok (EvRandomnessFulfillmentRequested rfr) =>
        unmarshalLoop c logs' (mkUnmarshalled rrs (rfrs ++ [rfr]) rwfs nts err)
      | Ok _ =>
        mkUnmarshalled rrs rfrs rwfs nts
          (Some (errNew "cast to *VRFBeaconCoordinatorRandomnessFulfillmentRequested"))
      end
    else if decide (Log.EventSig lg = Hash_bytes (randomWordsFulfilledTopic t)) then
      match ParseLog (coordinatorContract c) rawLog with
      | Err err2 =>
        mkUnmarshalled rrs rfrs rwfs nts
          (Some (errWrap err2 "unmarshal RandomWordsFulfilled log"))
      | Ok (EvRandomWordsFulfilled rwf) =>
        unmarshalLoop c logs' (mkUnmarshalled rrs rfrs (rwfs ++ [rwf]) nts err)
      | Ok _ =>
        mkUnmarshalled rrs rfrs rwfs nts
          (Some (errNew "cast to *VRFBeaconCoordinatorRandomWordsFulfilled"))
      end
    else if decide (Log.EventSig lg = Hash_bytes (newTransmissionTopic t)) then
      match ParseLog (coordinatorContract c) rawLog with
      | Err err2 =>
        mkUnmarshalled rrs rfrs rwfs nts
          (Some (errWrap err2 "unmarshal NewTransmission log"))
      | Ok (EvNewTransmission nt) =>
        unmarshalLoop c logs' (mkUnmarshalled rrs rfrs rwfs (nts ++ [Some nt]) err)
      | Ok _ =>
        (* no return here: the error is set, the nil pointer is appended
           and the loop goes on *)
        unmarshalLoop c logs'
          (mkUnmarshalled rrs rfrs rwfs (nts ++ [None])
             (Some (errNew "cast to *vrf_wrapper.VRFBeaconCoordinatorNewTransmission")))
      end
    else
      (* unexpected event signature: logged only *)
      unmarshalLoop c logs' acc
  end.

(** [unmarshalLogs], coordinator.go:500. *)
Definition unmarshalLogs (c : coordinator) (logs : list Log.t) : unmarshalled :=
  unmarshalLoop c logs (mkUnmarshalled [] [] [] [] None).

(** ** The filters *)

(** [filterEligibleRandomnessRequests], coordinator.go:460, the loop started
    from the current value of [unfulfilled]. *)
Fixpoint filterEligibleRandomnessRequestsFrom (c : coordinator)
    (logs : list RandomnessRequested.t) (confirmationDelays : gset Z)
    (currentHeight : Z) (unfulfilled : list block) : result (list block) :=
  match logs with
  | [] => Ok unfulfilled
  | r :: logs' =>
    let delay := uint32 (big.Uint64 (RandomnessRequested.ConfDelay r)) in
    if decide (delay ∈ confirmationDelays) then
      let b := mkBlock 0 (RandomnessRequested.NextBeaconOutputHeight r) delay in
      match getCacheKey b with
      | Err e => Err e
      | Ok cacheKey =>
        match GetItem (toBeTransmittedBlocks c) cacheKey with
        | Ok _ =>
          filterEligibleRandomnessRequestsFrom c logs' confirmationDelays
            currentHeight unfulfilled
        | Err _ =>
          if isBlockEligible (RandomnessRequested.NextBeaconOutputHeight r)
               (RandomnessRequested.ConfDelay r) currentHeight
          then filterEligibleRandomnessRequestsFrom c logs' confirmationDelays
                 currentHeight (unfulfilled ++ [b])
          else filterEligibleRandomnessRequestsFrom c logs' confirmationDelays
                 currentHeight unfulfilled
        end
      end
    else
      filterEligibleRandomnessRequestsFrom c logs' confirmationDelays
        currentHeight unfulfilled
  end.

Definition filterEligibleRandomnessRequests (c : coordinator)
    (logs : list RandomnessRequested.t) (confirmationDelays : gset Z)
    (currentHeight : Z) : result (list block) :=
  filterEligibleRandomnessRequestsFrom c logs confirmationDelays currentHeight [].

(** [filterEligibleCallbacks], coordinator.go:414. *)
Fixpoint filterEligibleCallbacksFrom (c : coordinator)
    (logs : list RandomnessFulfillmentRequested.t) (confirmationDelays : gset Z)
    (currentHeight : Z)
    (callbacks : list RandomnessFulfillmentRequested.t) (unfulfilled : list block)
    : result (list RandomnessFulfillmentRequested.t * list block) :=
  match logs with
  | [] => Ok (callbacks, unfulfilled)
  | r :: logs' =>
    let delay := uint32 (big.Uint64 (RandomnessFulfillmentRequested.ConfDelay r)) in
    if decide (delay ∈ confirmationDelays) then
      let cb :=
        mkCallback 0 (RandomnessFulfillmentRequested.NextBeaconOutputHeight r)
          (big.Uint64 (VRFBeaconTypesCallback.RequestID
                         (RandomnessFulfillmentRequested.Callback r))) in
      match getCacheKey cb with
      | Err e => Err e
      | Ok cacheKey =>
        match GetItem (toBeTransmittedCallbacks c) cacheKey with
        | Ok _ =>
          filterEligibleCallbacksFrom c logs' confirmationDelays currentHeight
            callbacks unfulfilled
        | Err _ =>
          if isBlockEligible (RandomnessFulfillmentRequested.NextBeaconOutputHeight r)
               (RandomnessFulfillmentRequested.ConfDelay r) currentHeight
          then filterEligibleCallbacksFrom c logs' confirmationDelays currentHeight
                 (callbacks ++ [r])
                 (unfulfilled ++
                    [mkBlock 0 (RandomnessFulfillmentRequested.NextBeaconOutputHeight r)
                       delay])
          else filterEligibleCallbacksFrom c logs' confirmationDelays currentHeight
                 callbacks unfulfilled
        end
      end
    else
      filterEligibleCallbacksFrom c logs' confirmationDelays currentHeight
        callbacks unfulfilled
  end.

Definition filterEligibleCallbacks (c : coordinator)
    (logs : list RandomnessFulfillmentRequested.t) (confirmationDelays : gset Z)
    (currentHeight : Z)
    : result (list RandomnessFulfillmentRequested.t * list block) :=
  filterEligibleCallbacksFrom c logs confirmationDelays currentHeight [] [].

(** The record [filterUnfulfilledCallbacks] builds for a request. *)
Definition costedCallback (r : RandomnessFulfillmentRequested.t)
    : AbstractCostedCallbackRequest.t :=
  let cb := RandomnessFulfillmentRequested.Callback r in
  AbstractCostedCallbackRequest.mk
    (RandomnessFulfillmentRequested.NextBeaconOutputHeight r)
    (uint32 (big.Uint64 (RandomnessFulfillmentRequested.ConfDelay r)))
    (RandomnessFulfillmentRequested.SubID r)
    0
    (big.Uint64 (VRFBeaconTypesCallback.RequestID cb))
    (VRFBeaconTypesCallback.NumWords cb)
    (VRFBeaconTypesCallback.Requester cb)
    (VRFBeaconTypesCallback.Arguments cb)
    (VRFBeaconTypesCallback.GasAllowance cb)
    (GethLog.BlockNumber (RandomnessFulfillmentRequested.Raw r))
    (GethLog.BlockHash (RandomnessFulfillmentRequested.Raw r)).

(** [filterUnfulfilledCallbacks], coordinator.go:369. *)
Fixpoint filterUnfulfilledCallbacksFrom
    (callbacksRequested : list RandomnessFulfillmentRequested.t)
    (fulfilledRequestIDs : gset Z) (confirmationDelays : gset Z) (currentHeight : Z)
    (callbacks : list AbstractCostedCallbackRequest.t)
    : list AbstractCostedCallbackRequest.t :=
  match callbacksRequested with
  | [] => callbacks
  | r :: rest =>
    let requestID :=
      VRFBeaconTypesCallback.RequestID (RandomnessFulfillmentRequested.Callback r) in
    if decide (big.Uint64 requestID ∈ fulfilledRequestIDs) then
      filterUnfulfilledCallbacksFrom rest fulfilledRequestIDs confirmationDelays
        currentHeight callbacks
    else if decide (uint32 (big.Uint64 (RandomnessFulfillmentRequested.ConfDelay r))
                    ∈ confirmationDelays) then
      if isBlockEligible (RandomnessFulfillmentRequested.NextBeaconOutputHeight r)
           (RandomnessFulfillmentRequested.ConfDelay r) currentHeight
      then filterUnfulfilledCallbacksFrom rest fulfilledRequestIDs confirmationDelays
             currentHeight (callbacks ++ [costedCallback r])
      else filterUnfulfilledCallbacksFrom rest fulfilledRequestIDs confirmationDelays
             currentHeight callbacks
    else
      filterUnfulfilledCallbacksFrom rest fulfilledRequestIDs confirmationDelays
        currentHeight callbacks
  end.

Definition filterUnfulfilledCallbacks
    (callbacksRequested : list RandomnessFulfillmentRequested.t)
    (fulfilledRequestIDs : gset Z) (confirmationDelays : gset Z) (currentHeight : Z)
    : list AbstractCostedCallbackRequest.t :=
  filterUnfulfilledCallbacksFrom callbacksRequested fulfilledRequestIDs
    confirmationDelays currentHeight [].

(** ** ReportBlocks *)

(** The set of heights [getBlockhashesMappingFromRequests] asks for,
    coordinator.go:297-307. *)
Definition rawBlocksRequested (rrs : list RandomnessRequested.t)
    (rfrs : list RandomnessFulfillmentRequested.t) (currentHeight : Z) : gset Z :=
  let s1 :=
    foldl (λ (s : gset Z) l,
             if isBlockEligible (RandomnessRequested.NextBeaconOutputHeight l)
                  (RandomnessRequested.ConfDelay l) currentHeight
             then {[RandomnessRequested.NextBeaconOutputHeight l]} ∪ s else s)
          ∅ rrs in
  foldl (λ (s : gset Z) l,
           if isBlockEligible (RandomnessFulfillmentRequested.NextBeaconOutputHeight l)
                (RandomnessFulfillmentRequested.ConfDelay l) currentHeight
           then {[RandomnessFulfillmentRequested.NextBeaconOutputHeight l]} ∪ s else s)
        s1 rfrs.

(** The unique list of request blocks, coordinator.go:310. *)
Definition requestedBlockNumbers (rrs : list RandomnessRequested.t)
    (rfrs : list RandomnessFulfillmentRequested.t) (currentHeight : Z) : list Z :=
  elements (rawBlocksRequested rrs rfrs currentHeight).

(** The map filled from the heads, coordinator.go:347. *)
Definition headsMapping (heads : list LogPollerBlock.t) : gmap Z Z :=
  foldl (λ (m : gmap Z Z) head,
           <[uint64 (LogPollerBlock.BlockNumber head) := LogPollerBlock.BlockHash head]> m)
        ∅ heads.

(** [getBlockhashesMapping], coordinator.go:336: the two named results. *)
Definition getBlockhashesMapping (c : coordinator) (blockNumbers : list Z)
    : gmap Z Z * option error :=
  let '(heads, err) := GetBlocks (lp c) blockNumbers in
  if decide (length heads ≠ length blockNumbers) then
    (∅, Some (errMissingHeads (length blockNumbers) (length heads)))
  else (headsMapping heads, err).

(** [getBlockhashesMappingFromRequests], coordinator.go:289. *)
Definition getBlockhashesMappingFromRequests (c : coordinator)
    (rrs : list RandomnessRequested.t) (rfrs : list RandomnessFulfillmentRequested.t)
    (currentHeight : Z) : gmap Z Z * option error :=
  let '(blockhashesMapping, err) :=
    getBlockhashesMapping c (requestedBlockNumbers rrs rfrs currentHeight) in
  match err with
  | Some e => (blockhashesMapping, Some (errWrap e "get blockhashes for ReportBlocks"))
  | None => (blockhashesMapping, None)
  end.

(** [getFulfilledBlocks], coordinator.go:323; reading through a nil entry
    panics. *)
Fixpoint getFulfilledBlocksFrom (logs : list (option NewTransmission.t))
    (fulfilled : list block) : outcome (list block) :=
  match logs with
  | [] => Returns fulfilled
  | None :: _ => Panics "nil pointer dereference"
  | Some r :: logs' =>
    getFulfilledBlocksFrom logs'
      (fulfilled ++
         ((λ o, mkBlock 0 (OutputServed.Height o)
                  (uint32 (big.Uint64 (OutputServed.ConfirmationDelay o))))
            <$> NewTransmission.OutputsServed r))
  end.

Definition getFulfilledBlocks (logs : list (option NewTransmission.t))
    : outcome (list block) :=
  getFulfilledBlocksFrom logs [].

(** [getFulfilledRequestIDs], coordinator.go:355; [SuccessfulFulfillment[i]]
    panics when the slice is shorter than [RequestIDs]. *)
Fixpoint fulfilledOfLog (requestIDs : list Z) (i : nat) (successful : list Z)
    (fulfilledRequestIDs : gset Z) : outcome (gset Z) :=
  match requestIDs with
  | [] => Returns fulfilledRequestIDs
  | requestID :: rest =>
    match successful !! i with
    | None => Panics "index out of range"
    | Some flag =>
      fulfilledOfLog rest (S i) successful
        (if decide (flag = 1) then {[big.Uint64 requestID]} ∪ fulfilledRequestIDs
         else fulfilledRequestIDs)
    end
  end.

Fixpoint getFulfilledRequestIDsFrom (logs : list RandomWordsFulfilled.t)
    (fulfilledRequestIDs : gset Z) : outcome (gset Z) :=
  match logs with
  | [] => Returns fulfilledRequestIDs
  | r :: logs' =>
    do s <- fulfilledOfLog (RandomWordsFulfilled.RequestIDs r) 0
              (RandomWordsFulfilled.SuccessfulFulfillment r) fulfilledRequestIDs;
    getFulfilledRequestIDsFrom logs' s
  end.

Definition getFulfilledRequestIDs (logs : list RandomWordsFulfilled.t)
    : outcome (gset Z) :=
  getFulfilledRequestIDsFrom logs ∅.

(** [blocksRequested[uf] = struct{}{}] over a slice, and [delete] over a
    slice. *)
Definition insertAll (s : gset block) (l : list block) : gset block :=
  foldl (λ s uf, {[uf]} ∪ s) s l.

Definition deleteAll (s : gset block) (l : list block) : gset block :=
  foldl (λ s f, s ∖ {[f]}) s l.

(** The block reported for a requested key, coordinator.go:270; a height
    missing from the mapping reads as the zero hash. *)
Definition reportedBlock (blockhashesMapping : gmap Z Z) (b : block) : Block.t :=
  Block.mk (default 0 (blockhashesMapping !! blockNumber b))
           (blockNumber b) (confDelay b).

(** The four topics [ReportBlocks] asks the log poller for. *)
Definition vrfTopics (c : coordinator) : list Z :=
  let t := embeddedTopics c in
  [randomnessRequestedTopic t; randomnessFulfillmentRequestedTopic t;
   randomWordsFulfilledTopic t; newTransmissionTopic t].

(** [ReportBlocks], coordinator.go:180.  At every error return the named
    results [blocks] and [callbacks] are still nil. *)
Definition ReportBlocks (c : coordinator) (confirmationDelays : gset Z)
    : outcome (result (list Block.t * list AbstractCostedCallbackRequest.t)) :=
  match LatestBlock (lp c) with
  | Err e => Returns (Err (errWrap e "header by number"))
  | Ok currentHeight =>
    match LogsWithSigs (lp c) (int64 (currentHeight - lookbackBlocks c)) currentHeight
            (vrfTopics c) (coordinatorAddress c) with
    | Err e => Returns (Err (errWrap e "logs with topics"))
    | Ok logs =>
      let u := unmarshalLogs c logs in
      match unmarshalErr u with
      | Some e => Returns (Err (errWrap e "unmarshal logs"))
      | None =>
        match getBlockhashesMappingFromRequests c (randomnessRequestedLogs u)
                (randomnessFulfillmentRequestedLogs u) currentHeight with
        | (_, Some e) => Returns (Err (errWrap e "get blockhashes in ReportBlocks"))
        | (blockhashesMapping, None) =>
          match filterEligibleRandomnessRequests c (randomnessRequestedLogs u)
                  confirmationDelays currentHeight with
          | Err e => Returns (Err (errWrap e "filter requests in ReportBlocks"))
          | Ok unfulfilled =>
            let blocksRequested := insertAll ∅ unfulfilled in
            match filterEligibleCallbacks c (randomnessFulfillmentRequestedLogs u)
                    confirmationDelays currentHeight with
            | Err e => Returns (Err (errWrap e "filter clalbacks in ReportBlocks"))
            | Ok (callbacksRequested, unfulfilled') =>
              let blocksRequested := insertAll blocksRequested unfulfilled' in
              do fulfilledBlocks <- getFulfilledBlocks (newTransmissionLogs u);
              let blocksRequested := deleteAll blocksRequested fulfilledBlocks in
              let blocks :=
                reportedBlock blockhashesMapping <$> elements blocksRequested in
              do fulfilledRequestIDs <-
                getFulfilledRequestIDs (randomWordsFulfilledLogs u);
              let callbacks :=
                filterUnfulfilledCallbacks callbacksRequested fulfilledRequestIDs
                  confirmationDelays currentHeight in
              Returns (Ok (blocks, callbacks))
            end
          end
        end
      end
    end
  end.

(** ** DKGVRFCommittees *)

(** The loop of coordinator.go:699 and 704: [i] ranges over the indices of
    [signers], and both slices are read at [i]. *)
Fixpoint committeeLoop (signers transmitters : list Z) (indices : list nat)
    (committee : OCRCommittee.t) : outcome OCRCommittee.t :=
  match indices with
  | [] => Returns committee
  | i :: indices' =>
    match signers !! i with
    | None => Panics "index out of range"
    | Some signer =>
      match transmitters !! i with
      | None => Panics "index out of range"
      | Some transmitter =>
        committeeLoop signers transmitters indices'
          (OCRCommittee.mk (OCRCommittee.Signers committee ++ [signer])
                           (OCRCommittee.Transmitters committee ++ [transmitter]))
      end
    end
  end.

Definition committeeOf (log : ConfigSet.t) : outcome OCRCommittee.t :=
  committeeLoop (ConfigSet.Signers log) (ConfigSet.Transmitters log)
    (seq 0 (length (ConfigSet.Signers log))) (OCRCommittee.mk [] []).

(** [DKGVRFCommittees], coordinator.go:663: the DKG committee, then the VRF
    committee. *)
Definition DKGVRFCommittees (c : coordinator)
    : outcome (result (OCRCommittee.t * OCRCommittee.t)) :=
  let t := embeddedTopics c in
  match LatestLogByEventSigWithConfs (lp c) (configSetTopic t)
          (coordinatorAddress c) (finalityDepth c) with
  | Err e => Returns (Err (errWrap e "latest vrf ConfigSet by sig with confs"))
  | Ok latestVRF =>
    match LatestLogByEventSigWithConfs (lp c) (configSetTopic t)
            (dkgAddress c) (finalityDepth c) with
    | Err e => Returns (Err (errWrap e "latest dkg ConfigSet by sig with confs"))
    | Ok latestDKG =>
      match vrfUnpackConfigSet c (Log.Data latestVRF) with
      | Err e => Returns (Err (errWrap e "unpack vrf ConfigSet into interface"))
      | Ok vrfConfigSetLog =>
        match dkgUnpackConfigSet c (Log.Data latestDKG) with
        | Err e => Returns (Err (errWrap e "unpack dkg ConfigSet into interface"))
        | Ok dkgConfigSetLog =>
          do vrfCommittee <- committeeOf vrfConfigSetLog;
          do dkgCommittee <- committeeOf dkgConfigSetLog;
          Returns (Ok (dkgCommittee, vrfCommittee))
        end
      end
    end
  end.

(** A request log is supported when its delay, read as the code reads it,
    is a key of the [confirmationDelays] map. *)
Definition supportedRequest (confirmationDelays : gset Z)
    (r : RandomnessRequested.t) : Prop :=
  uint32 (big.Uint64 (RandomnessRequested.ConfDelay r)) ∈ confirmationDelays.

Definition supportedCallback (confirmationDelays : gset Z)
    (r : RandomnessFulfillmentRequested.t) : Prop :=
  uint32 (big.Uint64 (RandomnessFulfillmentRequested.ConfDelay r)) ∈ confirmationDelays.

#[global] Instance supportedRequest_dec ds r : Decision (supportedRequest ds r).
Proof. unfold supportedRequest. apply _. Defined.

#[global] Instance supportedCallback_dec ds r : Decision (supportedCallback ds r).
Proof. unfold supportedCallback. apply _. Defined.

(** What the log poller owes the coordinator when [GetBlocks] is asked for
    [heights]: every entry answers one of the heights asked for, and no
    height is answered twice.  With the length check of
    [getBlockhashesMapping] this is the "exactly one entry per requested
    height" of the interface. *)
Definition GetBlocksAnswersRequest (poller : LogPoller) (heights : list Z) : Prop :=
  NoDup ((λ head, uint64 (LogPollerBlock.BlockNumber head))
           <$> (GetBlocks poller heights).1) ∧
  Forall (λ head, uint64 (LogPollerBlock.BlockNumber head) ∈ heights)
         (GetBlocks poller heights).1.

#[global] Instance GetBlocksAnswersRequest_dec poller heights :
  Decision (GetBlocksAnswersRequest poller heights).
Proof. unfold GetBlocksAnswersRequest. apply _. Defined.

(** A report is said to carry a block when one of its outputs, with a
    proof, has that height and delay; a block is in flight when its key is
    found in the block cache.  The same for callbacks. *)
Definition reportsBlock (report : AbstractReport.t) (height delay : Z) : Prop :=
  ∃ output, output ∈ AbstractReport.Outputs report ∧
    AbstractVRFOutput.VRFProof output ≠ [] ∧
    AbstractVRFOutput.BlockHeight output = height ∧
    AbstractVRFOutput.ConfirmationDelay output = delay.

Definition blockInFlight (c : coordinator) (height delay : Z) : Prop :=
  ∃ key it, getCacheKey (mkBlock 0 height delay) = Ok key ∧
    GetItem (toBeTransmittedBlocks c) key = Ok it.

Definition callbackInFlight (c : coordinator) (height requestID : Z) : Prop :=
  ∃ key it, getCacheKey (mkCallback 0 height requestID) = Ok key ∧
    GetItem (toBeTransmittedCallbacks c) key = Ok it.

(** ** Sample values *)

Module Sample.

Definition poller (height : Z) : LogPoller :=
  mkLogPoller (Ok height) (λ _ _ _ _, Ok []) (λ _, ([], None))
    (λ _ _ _, Err (errNew "no log")).

Definition contract : VRFBeaconCoordinator :=
  mkContract (λ _, Err (errNew "no event")).

Definition unpack (data : list Z) : result ConfigSet.t :=
  Err (errNew "no data").

Definition sampleTopics : topics := mkTopics 11 12 13 14 15.

(** A fresh coordinator, finality depth 5, chain at height 100. *)
Definition fresh : coordinator :=
  New 1000 2000 contract unpack unpack sampleTopics 1000 (poller 100) 5.

Definition output (height delay : Z) (proof : list Z)
    (cbs : list AbstractCostedCallbackRequest.t) : AbstractVRFOutput.t :=
  AbstractVRFOutput.mk height delay proof cbs.

Definition request (height requestID : Z) : AbstractCostedCallbackRequest.t :=
  AbstractCostedCallbackRequest.mk height 3 1 0 requestID 1 0 [] 0 0 0.

(** One block, height 90 and delay 3, with a proof. *)
Definition report1 : AbstractReport.t :=
  AbstractReport.mk [output 90 3 [1] []].

(** A coordinator whose latest ConfigSet logs decode to [vrf] and [dkg]. *)
Definition configLog : Log.t := Log.mk (Hash_bytes 14) [] [] 1000 0 90 0 0.

Definition withConfig (vrf dkg : ConfigSet.t) : coordinator :=
  New 1000 2000 contract (λ _, Ok vrf) (λ _, Ok dkg) sampleTopics 1000
    (mkLogPoller (Ok 100) (λ _ _ _ _, Ok []) (λ _, ([], None)) (λ _ _ _, Ok configLog))
    5.

(** A binding that, as the generated one, picks the event type by the
    first topic of the log. *)
Definition parseByTopic (rawLog : GethLog.t) : result Event :=
  match GethLog.Topics rawLog with
  | [] => Err (errNew "no event signature")
  | topic :: _ =>
    if decide (topic = 11) then
      Ok (EvRandomnessRequested (RandomnessRequested.mk (GethLog.BlockNumber rawLog) 3))
    else if decide (topic = 15) then
      Ok (EvNewTransmission
            (NewTransmission.mk [OutputServed.mk (GethLog.BlockNumber rawLog) 3]))
    else Err (errNew "no event with that signature")
  end.

Definition logOf (eventSig topic0 height : Z) : Log.t :=
  Log.mk (Hash_bytes eventSig) [Hash_bytes topic0] [] 1000 0 height 0 0.

(** A coordinator at height 100 whose poller returns [logs] and the block
    [(height, 1000 + height)] for every height asked. *)
Definition withLogs (logs : list Log.t) : coordinator :=
  New 1000 2000 (mkContract parseByTopic) unpack unpack sampleTopics 1000
    (mkLogPoller (Ok 100) (λ _ _ _ _, Ok logs)
       (λ heights, ((λ k, LogPollerBlock.mk (1000 + k) k) <$> heights, None))
       (λ _ _ _, Err (errNew "no log")))
    5.

(** Requests for the blocks 90 and 80, delay 3, and a transmission that
    served (90, 3). *)
Definition servedLogs : list Log.t :=
  [logOf 11 11 90; logOf 11 11 80; logOf 15 15 90].

End Sample.

(** ** ReportIsOnchain *)

Definition uint16 (x : Z) : Z := x mod 2 ^ 16.

(** [toEpochAndRoundUint40], coordinator.go:778:
    [big.NewInt((int64(epoch) << 8) + int64(round))], shift and sum taken in
    [int64]. *)
Definition toEpochAndRoundUint40 (epoch round : Z) : Z :=
  int64 (int64 (Z.shiftl epoch 8) + round).

(** [Bytes] of [big.Int]: the absolute value as a big-endian byte string
    without leading zeroes (empty for zero). *)
Definition bigByteLength (a : Z) : nat :=
  if a =? 0 then 0%nat else Z.to_nat (Z.log2 a / 8 + 1).

Definition bigBytes (x : Z) : list Z :=
  let a := Z.abs x in
  let n := bigByteLength a in
  (λ i : nat, (a / 256 ^ Z.of_nat (n - 1 - i)) mod 256) <$> seq 0 n.

(** [common.LeftPadBytes]: zeroes in front up to [l] bytes; a slice of [l]
    bytes or more is returned as it is. *)
Definition LeftPadBytes (slice : list Z) (l : nat) : list Z :=
  if decide (l ≤ length slice)%nat then slice
  else replicate (l - length slice) 0 ++ slice.

(** [ReportIsOnchain], coordinator.go:134.  [IndexedLogs] is the log
    poller's method of that name, the answer it gives at the time of the
    call: event signature, address, topic index, topic values, number of
    confirmations. *)
Definition ReportIsOnchain (c : coordinator)
    (IndexedLogs : Z → Z → Z → list Z → Z → result (list Log.t))
    (epoch round : Z) : result bool :=
  let epochAndRound := toEpochAndRoundUint40 epoch round in
  let enrTopic := BytesToHash (LeftPadBytes (bigBytes epochAndRound) 32) in
  match IndexedLogs (newTransmissionTopic (embeddedTopics c)) (coordinatorAddress c)
          2 [enrTopic] 1 with
  | Err e => Err (errWrap e "log poller IndexedLogs")
  | Ok logs => Ok (bool_decide (1 ≤ length logs)%nat)
  end.

(** ** Reads of the contract's attributes *)

(** [BeaconPeriod], coordinator.go:727; the argument is what the binding's
    [IBeaconPeriodBlocks] answers. *)
Definition BeaconPeriod (IBeaconPeriodBlocks : result Z) : result Z :=
  match IBeaconPeriodBlocks with
  | Err e => Err (errWrap e "get beacon period blocks")
  | Ok beaconPeriodBlocks => Ok (uint16 (big.Int64 beaconPeriodBlocks))
  end.

(** [ConfirmationDelays], coordinator.go:739; the argument is what the
    binding's [GetConfirmationDelays] answers. *)
Definition ConfirmationDelays (GetConfirmationDelays : result (list Z))
    : result (list Z) :=
  match GetConfirmationDelays with
  | Err e => Err (errWrap e "could not get confirmation delays")
  | Ok confDelays => Ok ((λ d, uint32 (big.Uint64 d)) <$> confDelays)
  end.

(** ** Reading aids for the statements *)

(** The case of the switch in [unmarshalLogs] a log falls in: the first of
    the four topics its signature equals, if any. *)
Inductive eventKind : Type :=
  | KRandomnessRequested
  | KRandomnessFulfillmentRequested
  | KRandomWordsFulfilled
  | KNewTransmission.

Definition sigKind (c : coordinator) (lg : Log.t) : option eventKind :=
  let t := embeddedTopics c in
  if decide (Log.EventSig lg = Hash_bytes (randomnessRequestedTopic t))
  then Some KRandomnessRequested
  else if decide (Log.EventSig lg = Hash_bytes (randomnessFulfillmentRequestedTopic t))
  then Some KRandomnessFulfillmentRequested
  else if decide (Log.EventSig lg = Hash_bytes (randomWordsFulfilledTopic t))
  then Some KRandomWordsFulfilled
  else if decide (Log.EventSig lg = Hash_bytes (newTransmissionTopic t))
  then Some KNewTransmission
  else None.

(** The event a log of the given case decodes to, when it decodes to the
    type of that case. *)
Definition asRandomnessRequested (c : coordinator) (lg : Log.t)
    : option RandomnessRequested.t :=
  match sigKind c lg, ParseLog (coordinatorContract c) (toGethLog lg) with
  | Some KRandomnessRequested, Ok (EvRandomnessRequested rr) => Some rr
  | _, _ => None
  end.

Definition asRandomnessFulfillmentRequested (c : coordinator) (lg : Log.t)
    : option RandomnessFulfillmentRequested.t :=
  match sigKind c lg, ParseLog (coordinatorContract c) (toGethLog lg) with
  | Some KRandomnessFulfillmentRequested, Ok (EvRandomnessFulfillmentRequested rfr) =>
    Some rfr
  | _, _ => None
  end.

Definition asRandomWordsFulfilled (c : coordinator) (lg : Log.t)
    : option RandomWordsFulfilled.t :=
  match sigKind c lg, ParseLog (coordinatorContract c) (toGethLog lg) with
  | Some KRandomWordsFulfilled, Ok (EvRandomWordsFulfilled rwf) => Some rwf
  | _, _ => None
  end.

Definition asNewTransmission (c : coordinator) (lg : Log.t)
    : option NewTransmission.t :=
  match sigKind c lg, ParseLog (coordinatorContract c) (toGethLog lg) with
  | Some KNewTransmission, Ok (EvNewTransmission nt) => Some nt
  | _, _ => None
  end.

(** A log decodes when its signature is none of the four, or it parses to
    the event type of its signature. *)
Definition decodes (c : coordinator) (lg : Log.t) : Prop :=
  match sigKind c lg with
  | None => True
  | Some KRandomnessRequested => is_Some (asRandomnessRequested c lg)
  | Some KRandomnessFulfillmentRequested =>
    is_Some (asRandomnessFulfillmentRequested c lg)
  | Some KRandomWordsFulfilled => is_Some (asRandomWordsFulfilled c lg)
  | Some KNewTransmission => is_Some (asNewTransmission c lg)
  end.

(** A candidate [filterUnfulfilledCallbacks] keeps: not fulfilled, of a
    supported delay, eligible. *)
Definition servable (fulfilledRequestIDs confirmationDelays : gset Z)
    (currentHeight : Z) (r : RandomnessFulfillmentRequested.t) : Prop :=
  (big.Uint64 (VRFBeaconTypesCallback.RequestID
                 (RandomnessFulfillmentRequested.Callback r)) ∉ fulfilledRequestIDs) ∧
  supportedCallback confirmationDelays r ∧
  isBlockEligible (RandomnessFulfillmentRequested.NextBeaconOutputHeight r)
    (RandomnessFulfillmentRequested.ConfDelay r) currentHeight = true.

#[global] Instance servable_dec fulfilled ds h r : Decision (servable fulfilled ds h r).
Proof. unfold servable. apply _. Defined.

(** A fulfilment log is well formed when it has a flag for every request
    identifier. *)
Definition flagged (r : RandomWordsFulfilled.t) : Prop :=
  (length (RandomWordsFulfilled.RequestIDs r)
   ≤ length (RandomWordsFulfilled.SuccessfulFulfillment r))%nat.

#[global] Instance flagged_dec r : Decision (flagged r).
Proof. unfold flagged. apply _. Defined.

(** The request logs [filterEligibleRandomnessRequests] turns into blocks:
    supported delay, eligible, block not in flight. *)
Definition offeredRequest (c : coordinator) (confirmationDelays : gset Z)
    (currentHeight : Z) (r : RandomnessRequested.t) : Prop :=
  supportedRequest confirmationDelays r ∧
  isBlockEligible (RandomnessRequested.NextBeaconOutputHeight r)
    (RandomnessRequested.ConfDelay r) currentHeight = true ∧
  ¬ blockInFlight c (RandomnessRequested.NextBeaconOutputHeight r)
      (uint32 (big.Uint64 (RandomnessRequested.ConfDelay r))).

(** The request logs [filterEligibleCallbacks] keeps: supported delay,
    eligible, callback not in flight. *)
Definition offeredCallback (c : coordinator) (confirmationDelays : gset Z)
    (currentHeight : Z) (r : RandomnessFulfillmentRequested.t) : Prop :=
  supportedCallback confirmationDelays r ∧
  isBlockEligible (RandomnessFulfillmentRequested.NextBeaconOutputHeight r)
    (RandomnessFulfillmentRequested.ConfDelay r) currentHeight = true ∧
  ¬ callbackInFlight c (RandomnessFulfillmentRequested.NextBeaconOutputHeight r)
      (big.Uint64 (VRFBeaconTypesCallback.RequestID
                     (RandomnessFulfillmentRequested.Callback r))).

(** A report carries a callback when one of its outputs serves that height
    and request. *)
Definition reportsCallback (report : AbstractReport.t) (height requestID : Z) : Prop :=
  ∃ output cb, output ∈ AbstractReport.Outputs report ∧
    cb ∈ AbstractVRFOutput.Callbacks output ∧
    AbstractCostedCallbackRequest.BeaconHeight cb = height ∧
    AbstractCostedCallbackRequest.RequestID cb = requestID.

(** The key [filterEligibleCallbacks] induces for a request. *)
Definition blockOfCallback (r : RandomnessFulfillmentRequested.t) : block :=
  mkBlock 0 (RandomnessFulfillmentRequested.NextBeaconOutputHeight r)
    (uint32 (big.Uint64 (RandomnessFulfillmentRequested.ConfDelay r))).

(** A request identifier is fulfilled when some RandomWordsFulfilled log
    lists it with the flag 1 at the same index. *)
Definition fulfilledIn (logs : list RandomWordsFulfilled.t) (id : Z) : Prop :=
  ∃ r i requestID, r ∈ logs ∧
    RandomWordsFulfilled.RequestIDs r !! i = Some requestID ∧
    RandomWordsFulfilled.SuccessfulFulfillment r !! i = Some 1 ∧
    big.Uint64 requestID = id.

(** ** More sample values *)

Module Sample2.

(** An index that holds one NewTransmission log for epoch 3, round 7. *)
Definition indexedLogs (sig address index : Z) (values : list Z) (confs : Z)
    : result (list Log.t) :=
  if decide (values = [3 * 256 + 7]) then Ok [Sample.logOf 15 15 90] else Ok [].

(** Two fulfilment logs: request 5 served, request 6 failed, request 7
    served. *)
Definition fulfilledLogs : list RandomWordsFulfilled.t :=
  [RandomWordsFulfilled.mk [5; 6] [1; 0]; RandomWordsFulfilled.mk [7] [1]].

Definition callbackRequest (height delay requestID : Z)
    : RandomnessFulfillmentRequested.t :=
  RandomnessFulfillmentRequested.mk height delay 1
    (VRFBeaconTypesCallback.mk requestID 1 0 [] 0)
    (GethLog.mk [] 0 0 height [] 0 0).

(** The coordinator of [Sample.withLogs] with a log poller that finds no
    block at all. *)
Definition withLogsNoHeads (logs : list Log.t) : coordinator :=
  New 1000 2000 (mkContract Sample.parseByTopic) Sample.unpack Sample.unpack
    Sample.sampleTopics 1000
    (mkLogPoller (Ok 100) (λ _ _ _ _, Ok logs) (λ _, ([], None))
       (λ _ _ _, Err (errNew "no log")))
    5.

(** A binding that decodes all four events by the first topic: the request
    identifier of a callback or fulfilment is the log index, the flags of
    a fulfilment are the data bytes. *)
Definition parseAll (rawLog : GethLog.t) : result Event :=
  match GethLog.Topics rawLog with
  | [] => Err (errNew "no event signature")
  | topic :: _ =>
    if decide (topic = 11) then
      Ok (EvRandomnessRequested (RandomnessRequested.mk (GethLog.BlockNumber rawLog) 3))
    else if decide (topic = 12) then
      Ok (EvRandomnessFulfillmentRequested
            (callbackRequest (GethLog.BlockNumber rawLog) 3 (GethLog.Index rawLog)))
    else if decide (topic = 13) then
      Ok (EvRandomWordsFulfilled
            (RandomWordsFulfilled.mk [GethLog.Index rawLog] (GethLog.Data rawLog)))
    else if decide (topic = 15) then
      Ok (EvNewTransmission
            (NewTransmission.mk [OutputServed.mk (GethLog.BlockNumber rawLog) 3]))
    else Err (errNew "no event with that signature")
  end.

Definition logWith (topic height index : Z) (data : list Z) : Log.t :=
  Log.mk (Hash_bytes topic) [Hash_bytes topic] data 1000 0 height 0 index.

Definition withAllLogs (logs : list Log.t) : coordinator :=
  New 1000 2000 (mkContract parseAll) Sample.unpack Sample.unpack
    Sample.sampleTopics 1000
    (mkLogPoller (Ok 100) (λ _ _ _ _, Ok logs)
       (λ heights, ((λ k, LogPollerBlock.mk (1000 + k) k) <$> heights, None))
       (λ _ _ _, Err (errNew "no log")))
    5.

(** Callback requests 5 and 6 on block 80; request 5 is fulfilled. *)
Definition callbackLogs : list Log.t :=
  [logWith 12 80 5 []; logWith 12 80 6 []; logWith 13 95 5 [1]].


End Sample2.

(** * Properties *)

Section Eligibility.

Lemma Uint64_small d : 0 ≤ d < 2 ^ 64 → big.Uint64 d = d.
Proof.
  intros Hd. unfold big.Uint64, big.low64.
  rewrite Z.abs_eq by lia. apply Z.mod_small; lia.
Qed.

Lemma Int64_small d : 0 ≤ d < 2 ^ 63 → big.Int64 d = d.
Proof.
  intros Hd. unfold big.Int64, big.low64, int64.
  rewrite Z.abs_eq by lia.
  destruct (Z.ltb_spec d 0) as [?|_]; [lia|].
  rewrite (Z.mod_small d) by lia.
  rewrite Z.mod_small by lia. lia.
Qed.

Lemma isBlockEligible_in_range n d h :
  0 ≤ n → 0 ≤ d < 2 ^ 63 → n + d < 2 ^ 64 → h < 2 ^ 63 →
  isBlockEligible n d h = true ↔ n + d < h.
Proof.
  intros Hn Hd Hnd Hh. unfold isBlockEligible.
  rewrite Int64_small by lia. rewrite Uint64_small by lia.
  unfold uint64. rewrite (Z.mod_small (n + d)) by lia.
  rewrite andb_true_iff, !Z.ltb_lt. split.
  - intros [Hlt Hsum]. rewrite Z.mod_small in Hsum by lia. exact Hsum.
  - intros Hsum. split; [lia|]. rewrite Z.mod_small by lia. exact Hsum.
Qed.

End Eligibility.

(** C4 as stated fails: at the top of the [uint64] range the sum wraps
    around.  With [nextOutputHeight = 2^64 - 1], delay [1] and height [5]
    the code computes [0 < 5] and answers true, though [2^64 < 5] is false. *)
Lemma isBlockEligible_wraps :
  0 ≤ 2 ^ 64 - 1 < 2 ^ 64 ∧ - 2 ^ 63 ≤ 5 < 2 ^ 63 ∧
  isBlockEligible (2 ^ 64 - 1) 1 5 = true ∧
  ¬ (1 < 5 ∧ (2 ^ 64 - 1) + 1 < 5).
Proof. split; [lia|]. split; [lia|]. split; [reflexivity|]. lia. Qed.

(** C4 (amended): for a delay in [0, 2^63) and an output height whose sum
    with the delay stays below [2^64], [isBlockEligible] answers true exactly
    when [confDelay < currentHeight] and
    [nextOutputHeight + confDelay < currentHeight]. *)
Theorem isBlockEligible_iff n d h :
  0 ≤ n < 2 ^ 64 → 0 ≤ d < 2 ^ 63 → n + d < 2 ^ 64 → - 2 ^ 63 ≤ h < 2 ^ 63 →
  isBlockEligible n d h = true ↔ d < h ∧ n + d < h.
Proof.
  intros Hn Hd Hnd Hh.
  rewrite isBlockEligible_in_range by lia. lia.
Qed.

Lemma isBlockEligible_iff_witness :
  isBlockEligible 90 3 100 = true ↔ 3 < 100 ∧ 90 + 3 < 100.
Proof. apply (isBlockEligible_iff 90 3 100); lia. Defined.

(** C6 as stated fails at the same place: height [5] is below
    [(2^64 - 1) + 1], yet the block is eligible there. *)
Lemma isBlockEligible_not_monotone_at_wrap :
  5 ≤ (2 ^ 64 - 1) + 1 ∧ isBlockEligible (2 ^ 64 - 1) 1 5 = true.
Proof. split; [lia|]. reflexivity. Qed.

(** C6 (amended): for a delay in [0, 2^63) and an output height whose sum
    with the delay stays below [2^64], [isBlockEligible] is false at every
    height up to [nextOutputHeight + confDelay] and true at every greater
    [int64] height. *)
Theorem isBlockEligible_threshold n d h :
  0 ≤ n < 2 ^ 64 → 0 ≤ d < 2 ^ 63 → n + d < 2 ^ 64 → - 2 ^ 63 ≤ h < 2 ^ 63 →
  (h ≤ n + d → isBlockEligible n d h = false) ∧
  (n + d < h → isBlockEligible n d h = true).
Proof.
  intros Hn Hd Hnd Hh. split.
  - intros Hle. apply not_true_is_false.
    rewrite isBlockEligible_in_range by lia. lia.
  - intros Hlt. apply isBlockEligible_in_range; lia.
Qed.

Lemma isBlockEligible_threshold_witness :
  isBlockEligible 90 3 93 = false ∧ isBlockEligible 90 3 94 = true.
Proof.
  split.
  - apply (isBlockEligible_threshold 90 3 93); lia.
  - apply (isBlockEligible_threshold 90 3 94); lia.
Defined.

(** ** ReportWillBeTransmitted *)

Section Transmission.

Lemma getCacheKey_block_total (b : block) : ∃ key, getCacheKey b = Ok key.
Proof. eexists. reflexivity. Qed.

Lemma getCacheKey_callback_total (cb : callback) : ∃ key, getCacheKey cb = Ok key.
Proof. eexists. reflexivity. Qed.

(** The second pass cannot fail. *)
Lemma addBlocks_no_error cache bs h : (addBlocks cache bs h).2 = None.
Proof.
  revert cache. induction bs as [|b bs IH]; intros cache; cbn [addBlocks]; [done|].
  destruct (getCacheKey_block_total b) as [key ->]. apply IH.
Qed.

Lemma addCallbacks_no_error cache cbs h : (addCallbacks cache cbs h).2 = None.
Proof.
  revert cache. induction cbs as [|cb cbs IH]; intros cache; cbn [addCallbacks]; [done|].
  destruct (getCacheKey_callback_total cb) as [key ->]. apply IH.
Qed.

(** Errors of the first pass. *)
Lemma checkCallbacks_error c cbs acc e :
  checkCallbacks c cbs acc = Err e → alreadyInFlight e.
Proof.
  revert acc. induction cbs as [|cb cbs IH]; intros acc; cbn [checkCallbacks]; [done|].
  destruct (getCacheKey_callback_total
              (mkCallback 0 (AbstractCostedCallbackRequest.BeaconHeight cb)
                 (AbstractCostedCallbackRequest.RequestID cb))) as [key ->].
  destruct (GetItem _ key).
  - intros [= <-]. exact I.
  - apply IH.
Qed.

Lemma checkOutputs_error c outputs bs cbs e :
  checkOutputs c outputs bs cbs = Err e → alreadyInFlight e.
Proof.
  revert bs cbs. induction outputs as [|o outputs IH]; intros bs cbs; cbn [checkOutputs]; [done|].
  case_bool_decide.
  - destruct (getCacheKey_block_total
                (mkBlock 0 (AbstractVRFOutput.BlockHeight o)
                   (AbstractVRFOutput.ConfirmationDelay o))) as [key ->].
    destruct (GetItem _ key).
    + intros [= <-]. exact I.
    + destruct (checkCallbacks c _ cbs) eqn:Hcb.
      * apply IH.
      * intros [= <-]. eapply checkCallbacks_error, Hcb.
  - destruct (checkCallbacks c _ cbs) eqn:Hcb.
    + apply IH.
    + intros [= <-]. eapply checkCallbacks_error, Hcb.
Qed.

(** A block in flight stops the first pass. *)
Lemma checkOutputs_in_flight c outputs bs cbs o :
  o ∈ outputs → AbstractVRFOutput.VRFProof o ≠ [] →
  blockInFlight c (AbstractVRFOutput.BlockHeight o)
                  (AbstractVRFOutput.ConfirmationDelay o) →
  ∃ e, checkOutputs c outputs bs cbs = Err e.
Proof.
  intros Hin Hproof (key & it & Hkey & Hget).
  revert bs cbs. induction Hin as [o outputs|o o' outputs Hin IH]; intros bs cbs.
  - cbn [checkOutputs].
    rewrite bool_decide_true
      by (destruct (AbstractVRFOutput.VRFProof o); simpl; [done|lia]).
    rewrite Hkey, Hget. eauto.
  - cbn [checkOutputs].
    destruct (if bool_decide _ then _ else _) as [bs'|e]; [|eauto].
    destruct (checkCallbacks c _ cbs) as [cbs'|e]; [|eauto].
    by apply IH.
Qed.

(** What the first pass collects. *)
Lemma checkOutputs_collects c outputs bs cbs bs' cbs' :
  checkOutputs c outputs bs cbs = Ok (bs', cbs') →
  (∀ b, b ∈ bs → b ∈ bs') ∧
  (∀ o, o ∈ outputs → AbstractVRFOutput.VRFProof o ≠ [] →
     mkBlock 0 (AbstractVRFOutput.BlockHeight o)
               (AbstractVRFOutput.ConfirmationDelay o) ∈ bs').
Proof.
  revert bs cbs.
  induction outputs as [|o outputs IH]; intros bs cbs; cbn [checkOutputs].
  - intros [= <- <-]. split; [done|]. intros o Ho. by apply elem_of_nil in Ho.
  - case_bool_decide as Hlen.
    + destruct (getCacheKey _) as [key|]; [|done].
      destruct (GetItem _ key); [done|].
      destruct (checkCallbacks c _ cbs) as [cbs1|]; [|done].
      intros Hrec. destruct (IH _ _ Hrec) as [Hacc Hall]; clear IH. split.
      * intros b Hb. apply Hacc. set_solver.
      * intros o' [->|Ho']%elem_of_cons Hproof; [|by apply Hall].
        apply Hacc. set_solver.
    + destruct (checkCallbacks c _ cbs) as [cbs1|]; [|done].
      intros Hrec. destruct (IH _ _ Hrec) as [Hacc Hall]; clear IH. split; [done|].
      intros o' [->|Ho']%elem_of_cons Hproof; [|by apply Hall].
      destruct (AbstractVRFOutput.VRFProof o); [done|]. simpl in Hlen. lia.
Qed.

(** Every collected block sits in the cache, at the height of the call,
    once the second pass is through. *)
Lemma addBlocks_keeps cache bs h key it :
  Cache.cache cache !! key = Some it → itemHeight it = h →
  ∃ it', Cache.cache (addBlocks cache bs h).1 !! key = Some it' ∧ itemHeight it' = h.
Proof.
  revert cache it.
  induction bs as [|b bs IH]; intros cache it Hit Hh; cbn [addBlocks]; [eauto|].
  destruct (getCacheKey b) as [k|]; [|eauto].
  destruct (decide (k = key)) as [->|Hne].
  - eapply IH; [apply lookup_insert_eq|done].
  - eapply IH; [|done]. simpl. by rewrite lookup_insert_ne.
Qed.

Lemma addBlocks_adds cache bs h b :
  b ∈ bs →
  ∃ key it', getCacheKey b = Ok key ∧
    Cache.cache (addBlocks cache bs h).1 !! key = Some it' ∧ itemHeight it' = h.
Proof.
  intros Hin. revert cache.
  induction Hin as [b bs|b b' bs Hin IH]; intros cache; cbn [addBlocks].
  - destruct (getCacheKey_block_total b) as [key Hkey]. rewrite Hkey.
    destruct (addBlocks_keeps (AddItem cache b key h) bs h key (mkItem b h))
      as (it' & Hit' & Hh); [apply lookup_insert_eq|done|]. eauto.
  - destruct (getCacheKey_block_total b') as [key' ->]. apply IH.
Qed.

(** An entry of the current height outlives the eviction pass when the
    window is not negative. *)
Lemma EvictExpiredItems_keeps {T} (cache : BlockCache T) h key it :
  0 ≤ evictionWindow cache →
  Cache.cache cache !! key = Some it → itemHeight it = h →
  Cache.cache (EvictExpiredItems cache h) !! key = Some it.
Proof.
  intros Hw Hit Hh. simpl. apply map_lookup_filter_Some. split; [done|].
  unfold expired. simpl. lia.
Qed.

Lemma addBlocks_window cache bs h :
  evictionWindow (addBlocks cache bs h).1 = evictionWindow cache.
Proof.
  revert cache. induction bs as [|b bs IH]; intros cache; cbn [addBlocks]; [done|].
  destruct (getCacheKey b); [|done]. by rewrite IH.
Qed.

(** The window is set once, by [New], and is never negative. *)
Lemma New_window coordinatorAddress dkgAddress contract vrfUnpack dkgUnpack t
    lookback poller depth :
  let c := New coordinatorAddress dkgAddress contract vrfUnpack dkgUnpack t
             lookback poller depth in
  0 ≤ evictionWindow (toBeTransmittedBlocks c) ∧
  0 ≤ evictionWindow (toBeTransmittedCallbacks c).
Proof. simpl. unfold uint32. split; apply Z.mod_pos_bound; lia. Qed.

Lemma addCallbacks_window cache cbs h :
  evictionWindow (addCallbacks cache cbs h).1 = evictionWindow cache.
Proof.
  revert cache. induction cbs as [|cb cbs IH]; intros cache; cbn [addCallbacks]; [done|].
  destruct (getCacheKey cb); [|done]. by rewrite IH.
Qed.

Lemma ReportWillBeTransmitted_window c report :
  evictionWindow (toBeTransmittedBlocks (ReportWillBeTransmitted c report).1)
  = evictionWindow (toBeTransmittedBlocks c) ∧
  evictionWindow (toBeTransmittedCallbacks (ReportWillBeTransmitted c report).1)
  = evictionWindow (toBeTransmittedCallbacks c).
Proof.
  unfold ReportWillBeTransmitted.
  destruct (checkOutputs c _ [] []) as [[bs cbs]|]; [|done].
  destruct (LatestBlock (lp c)) as [h|]; [|done].
  pose proof (addBlocks_window (toBeTransmittedBlocks c) bs h) as Hb.
  destruct (addBlocks _ bs h) as [blocks' [eb|]]; [done|].
  pose proof (addCallbacks_window
                (toBeTransmittedCallbacks (withBlocks c blocks')) cbs h) as Hc.
  destruct (addCallbacks _ cbs h) as [callbacks' [ec|]]; done.
Qed.

End Transmission.

(** C2: an error return of [ReportWillBeTransmitted] leaves the coordinator,
    hence both caches, as they were; the error is an in-flight conflict or
    the failure to read the latest block. *)
Theorem ReportWillBeTransmitted_error_no_mutation c report c' e :
  ReportWillBeTransmitted c report = (c', Some e) →
  c' = c ∧
  toBeTransmittedBlocks c' = toBeTransmittedBlocks c ∧
  toBeTransmittedCallbacks c' = toBeTransmittedCallbacks c ∧
  (alreadyInFlight e ∨
   ∃ e0, LatestBlock (lp c) = Err e0 ∧
         e = errWrap e0 "Getting latest block in ReportWillBeTransmitted").
Proof.
  unfold ReportWillBeTransmitted.
  destruct (checkOutputs c _ [] []) as [[bs cbs]|e1] eqn:Hcheck.
  - destruct (LatestBlock (lp c)) as [h|e0] eqn:Hlatest.
    + pose proof (addBlocks_no_error (toBeTransmittedBlocks c) bs h) as Hb.
      destruct (addBlocks _ bs h) as [blocks' [eb|]]; [done|].
      pose proof (addCallbacks_no_error
                    (toBeTransmittedCallbacks (withBlocks c blocks')) cbs h) as Hc.
      destruct (addCallbacks _ cbs h) as [callbacks' [ec|]]; done.
    + intros [= <- <-]. repeat split; eauto.
  - intros [= <- <-]. repeat split. left. eapply checkOutputs_error, Hcheck.
Qed.

(** C1: once a call has succeeded on a report carrying block B, B is in
    flight; and as long as B is in flight (its entry has not been evicted),
    any call on a report carrying B fails with an in-flight error and
    leaves the coordinator as it was. *)
Theorem ReportWillBeTransmitted_no_duplicate c report c1 height delay :
  0 ≤ evictionWindow (toBeTransmittedBlocks c) →
  ReportWillBeTransmitted c report = (c1, None) →
  reportsBlock report height delay →
  blockInFlight c1 height delay ∧
  ∀ c2 report2,
    blockInFlight c2 height delay → reportsBlock report2 height delay →
    ∃ e, ReportWillBeTransmitted c2 report2 = (c2, Some e) ∧ alreadyInFlight e.
Proof.
  intros Hw Hcall (o & Ho & Hproof & <- & <-). split.
  - unfold ReportWillBeTransmitted in Hcall.
    destruct (checkOutputs c _ [] []) as [[bs cbs]|] eqn:Hcheck; [|done].
    destruct (LatestBlock (lp c)) as [h|]; [|done].
    apply checkOutputs_collects in Hcheck as [_ Hall].
    specialize (Hall o Ho Hproof).
    destruct (addBlocks_adds (toBeTransmittedBlocks c) bs h _ Hall)
      as (key & it & Hkey & Hit & Hh).
    pose proof (addBlocks_window (toBeTransmittedBlocks c) bs h) as Hwin.
    destruct (addBlocks _ bs h) as [blocks' [eb|]]; [done|].
    destruct (addCallbacks _ cbs h) as [callbacks' [ec|]]; [done|].
    injection Hcall as <-. simpl in *.
    exists key, (item it). split; [done|]. unfold GetItem.
    cbn [toBeTransmittedBlocks withBlocks withCallbacks].
    rewrite (EvictExpiredItems_keeps blocks' h key it); [done|lia|done|done].
  - intros c2 report2 Hflight (o2 & Ho2 & Hproof2 & Hh2 & Hd2).
    rewrite <- Hh2, <- Hd2 in Hflight.
    destruct (checkOutputs_in_flight c2 _ [] [] o2 Ho2 Hproof2 Hflight) as [e He].
    exists e. unfold ReportWillBeTransmitted. rewrite He. split; [done|].
    eapply checkOutputs_error, He.
Qed.

Lemma ReportWillBeTransmitted_error_no_mutation_witness :
  let c1 := (ReportWillBeTransmitted Sample.fresh Sample.report1).1 in
  let c' := (ReportWillBeTransmitted c1 Sample.report1).1 in
  c' = c1 ∧
  toBeTransmittedBlocks c' = toBeTransmittedBlocks c1 ∧
  toBeTransmittedCallbacks c' = toBeTransmittedCallbacks c1 ∧
  (alreadyInFlight (errBlockInFlight (mkBlock 0 90 3)) ∨
   ∃ e0, LatestBlock (lp c1) = Err e0 ∧
         errBlockInFlight (mkBlock 0 90 3)
         = errWrap e0 "Getting latest block in ReportWillBeTransmitted").
Proof.
  intros c1 c'.
  apply (ReportWillBeTransmitted_error_no_mutation c1 Sample.report1 c'
           (errBlockInFlight (mkBlock 0 90 3))).
  vm_compute. reflexivity.
Defined.

Lemma ReportWillBeTransmitted_no_duplicate_witness :
  let c1 := (ReportWillBeTransmitted Sample.fresh Sample.report1).1 in
  blockInFlight c1 90 3 ∧
  ∃ e, ReportWillBeTransmitted c1 Sample.report1 = (c1, Some e) ∧ alreadyInFlight e.
Proof.
  intros c1.
  assert (Hreports : reportsBlock Sample.report1 90 3).
  { exists (Sample.output 90 3 [1] []). repeat split; [|done]. apply list_elem_of_here. }
  destruct (ReportWillBeTransmitted_no_duplicate
              Sample.fresh Sample.report1 c1 90 3) as [Hflight Hagain].
  - vm_compute. discriminate.
  - vm_compute. reflexivity.
  - exact Hreports.
  - split; [exact Hflight|]. apply Hagain; [exact Hflight|exact Hreports].
Defined.

Section DuplicateInReport.

Lemma GetItem_block_absent c height delay key :
  ¬ blockInFlight c height delay →
  getCacheKey (mkBlock 0 height delay) = Ok key →
  ∃ e, GetItem (toBeTransmittedBlocks c) key = Err e.
Proof.
  intros Hno Hkey. destruct (GetItem _ key) as [it|e] eqn:Hget; [|eauto].
  destruct Hno. by exists key, it.
Qed.

Lemma GetItem_callback_absent c height requestID key :
  ¬ callbackInFlight c height requestID →
  getCacheKey (mkCallback 0 height requestID) = Ok key →
  ∃ e, GetItem (toBeTransmittedCallbacks c) key = Err e.
Proof.
  intros Hno Hkey. destruct (GetItem _ key) as [it|e] eqn:Hget; [|eauto].
  destruct Hno. by exists key, it.
Qed.

Lemma ReportWillBeTransmitted_after_check c report bs cbs h :
  checkOutputs c (AbstractReport.Outputs report) [] [] = Ok (bs, cbs) →
  LatestBlock (lp c) = Ok h →
  (ReportWillBeTransmitted c report).2 = None.
Proof.
  intros Hcheck Hlatest. unfold ReportWillBeTransmitted. rewrite Hcheck, Hlatest.
  pose proof (addBlocks_no_error (toBeTransmittedBlocks c) bs h) as Hb.
  destruct (addBlocks _ bs h) as [blocks' [eb|]]; [done|].
  pose proof (addCallbacks_no_error
                (toBeTransmittedCallbacks (withBlocks c blocks')) cbs h) as Hc.
  destruct (addCallbacks _ cbs h) as [callbacks' [ec|]]; done.
Qed.

End DuplicateInReport.

(** C9: a key that occurs twice within one report is not noticed.  When the
    block (height, delay) is not in flight, a report with two outputs for
    it, each with a proof, is accepted; when the callback (height, request)
    is not in flight, a report serving it twice is accepted. *)
Theorem ReportWillBeTransmitted_duplicate_in_report
    c h height delay proof1 proof2 cb1 cb2 :
  LatestBlock (lp c) = Ok h →
  proof1 ≠ [] → proof2 ≠ [] →
  ¬ blockInFlight c height delay →
  AbstractCostedCallbackRequest.BeaconHeight cb1
  = AbstractCostedCallbackRequest.BeaconHeight cb2 →
  AbstractCostedCallbackRequest.RequestID cb1
  = AbstractCostedCallbackRequest.RequestID cb2 →
  ¬ callbackInFlight c (AbstractCostedCallbackRequest.BeaconHeight cb1)
                       (AbstractCostedCallbackRequest.RequestID cb1) →
  (ReportWillBeTransmitted c
     (AbstractReport.mk [AbstractVRFOutput.mk height delay proof1 [];
                         AbstractVRFOutput.mk height delay proof2 []])).2 = None ∧
  (ReportWillBeTransmitted c
     (AbstractReport.mk [AbstractVRFOutput.mk height delay [] [cb1; cb2]])).2 = None.
Proof.
  intros Hlatest Hp1 Hp2 Hblock Hheight Hrequest Hcallback.
  destruct (getCacheKey_block_total (mkBlock 0 height delay)) as [key Hkey].
  destruct (GetItem_block_absent c height delay key Hblock Hkey) as [e He].
  destruct (getCacheKey_callback_total
              (mkCallback 0 (AbstractCostedCallbackRequest.BeaconHeight cb1)
                 (AbstractCostedCallbackRequest.RequestID cb1))) as [ckey Hckey].
  destruct (GetItem_callback_absent c _ _ ckey Hcallback Hckey) as [e' He'].
  split.
  - eapply ReportWillBeTransmitted_after_check; [|exact Hlatest].
    cbn [AbstractReport.Outputs checkOutputs checkCallbacks AbstractVRFOutput.VRFProof
         AbstractVRFOutput.BlockHeight AbstractVRFOutput.ConfirmationDelay
         AbstractVRFOutput.Callbacks].
    rewrite !bool_decide_true by (by destruct proof1, proof2; simpl; try lia).
    rewrite Hkey, He. reflexivity.
  - eapply ReportWillBeTransmitted_after_check; [|exact Hlatest].
    cbn [AbstractReport.Outputs checkOutputs checkCallbacks AbstractVRFOutput.VRFProof
         AbstractVRFOutput.BlockHeight AbstractVRFOutput.ConfirmationDelay
         AbstractVRFOutput.Callbacks length].
    rewrite bool_decide_false by lia.
    rewrite <- Hheight, <- Hrequest, Hckey, He'. reflexivity.
Qed.

Lemma ReportWillBeTransmitted_duplicate_in_report_witness :
  (ReportWillBeTransmitted Sample.fresh
     (AbstractReport.mk [AbstractVRFOutput.mk 90 3 [1] [];
                         AbstractVRFOutput.mk 90 3 [2] []])).2 = None ∧
  (ReportWillBeTransmitted Sample.fresh
     (AbstractReport.mk
        [AbstractVRFOutput.mk 90 3 [] [Sample.request 90 7; Sample.request 90 7]])).2
  = None.
Proof.
  apply (ReportWillBeTransmitted_duplicate_in_report Sample.fresh 100 90 3 [1] [2]
           (Sample.request 90 7) (Sample.request 90 7)).
  - reflexivity.
  - discriminate.
  - discriminate.
  - intros (key & it & Hkey & Hget). vm_compute in Hget. discriminate.
  - reflexivity.
  - reflexivity.
  - intros (key & it & Hkey & Hget). vm_compute in Hget. discriminate.
Defined.

(** ** Classification *)

(** C3, at the input where it fails: a log filed under the NewTransmission
    signature whose decoded event is of another type.  The error is set,
    but the call does not return there: a nil entry is appended to
    [newTransmissionLogs] and the next log is still decoded and appended. *)
Theorem unmarshalLogs_newTransmission_cast_goes_on :
  unmarshalLogs (Sample.withLogs [])
    [Sample.logOf 15 11 80; Sample.logOf 11 11 90]
  = mkUnmarshalled [RandomnessRequested.mk 90 3] [] [] [None]
      (Some (errNew "cast to *vrf_wrapper.VRFBeaconCoordinatorNewTransmission")).
Proof. vm_compute. reflexivity. Qed.

(** ** Committees *)

Section Committees.

Lemma committeeLoop_in_range signers transmitters n i committee :
  (i + n ≤ length signers)%nat → (i + n ≤ length transmitters)%nat →
  committeeLoop signers transmitters (seq i n) committee
  = Returns (OCRCommittee.mk
               (OCRCommittee.Signers committee ++ take n (drop i signers))
               (OCRCommittee.Transmitters committee ++ take n (drop i transmitters))).
Proof.
  revert i committee. induction n as [|n IH]; intros i committee Hs Ht.
  - simpl. rewrite !app_nil_r. by destruct committee.
  - cbn [seq committeeLoop].
    destruct (lookup_lt_is_Some_2 signers i) as [s Hsi]; [lia|].
    destruct (lookup_lt_is_Some_2 transmitters i) as [t Hti]; [lia|].
    rewrite Hsi, Hti, IH by lia. cbn [OCRCommittee.Signers OCRCommittee.Transmitters].
    rewrite (drop_S signers s i Hsi), (drop_S transmitters t i Hti).
    cbn [take]. by rewrite <- !app_assoc.
Qed.

Lemma committeeLoop_out_of_range signers transmitters n i committee :
  (i + n ≤ length signers)%nat →
  (i ≤ length transmitters < i + n)%nat →
  committeeLoop signers transmitters (seq i n) committee
  = Panics "index out of range".
Proof.
  revert i committee. induction n as [|n IH]; intros i committee Hs Ht; [lia|].
  cbn [seq committeeLoop].
  destruct (lookup_lt_is_Some_2 signers i) as [s ->]; [lia|].
  destruct (transmitters !! i) as [t|] eqn:Hti; [|done].
  apply lookup_lt_Some in Hti. apply IH; lia.
Qed.

Lemma committeeOf_in_range log :
  (length (ConfigSet.Signers log) ≤ length (ConfigSet.Transmitters log))%nat →
  committeeOf log
  = Returns (OCRCommittee.mk (ConfigSet.Signers log)
               (take (length (ConfigSet.Signers log)) (ConfigSet.Transmitters log))).
Proof.
  intros Hlen. unfold committeeOf.
  rewrite committeeLoop_in_range by (simpl; lia).
  simpl. by rewrite firstn_all.
Qed.

Lemma committeeOf_out_of_range log :
  (length (ConfigSet.Transmitters log) < length (ConfigSet.Signers log))%nat →
  committeeOf log = Panics "index out of range".
Proof.
  intros Hlen. unfold committeeOf.
  apply committeeLoop_out_of_range; simpl; lia.
Qed.

End Committees.

(** C8 as stated fails: with two signers and one transmitter in the beacon
    log the loop reads [Transmitters[1]], out of bounds, and the call
    panics. *)
Lemma DKGVRFCommittees_out_of_bounds :
  DKGVRFCommittees
    (Sample.withConfig (ConfigSet.mk [1; 2] [3]) (ConfigSet.mk [4] [5]))
  = Panics "index out of range".
Proof. vm_compute. reflexivity. Qed.

(** C8 (amended): no length is validated and the index ranges over the
    signers.  When neither log has more signers than transmitters the call
    returns, for each contract, the signers and as many transmitters, so
    that [signers[i]] goes with [transmitters[i]] and nothing is read out of
    bounds; when a log has more signers than transmitters the read of
    [transmitters[i]] is out of bounds. *)
Theorem DKGVRFCommittees_pairs c latestVRF latestDKG vrfLog dkgLog :
  LatestLogByEventSigWithConfs (lp c) (configSetTopic (embeddedTopics c))
    (coordinatorAddress c) (finalityDepth c) = Ok latestVRF →
  LatestLogByEventSigWithConfs (lp c) (configSetTopic (embeddedTopics c))
    (dkgAddress c) (finalityDepth c) = Ok latestDKG →
  vrfUnpackConfigSet c (Log.Data latestVRF) = Ok vrfLog →
  dkgUnpackConfigSet c (Log.Data latestDKG) = Ok dkgLog →
  ((length (ConfigSet.Signers vrfLog) ≤ length (ConfigSet.Transmitters vrfLog))%nat →
   (length (ConfigSet.Signers dkgLog) ≤ length (ConfigSet.Transmitters dkgLog))%nat →
   ∃ dkgCommittee vrfCommittee,
     DKGVRFCommittees c = Returns (Ok (dkgCommittee, vrfCommittee)) ∧
     OCRCommittee.Signers vrfCommittee = ConfigSet.Signers vrfLog ∧
     OCRCommittee.Signers dkgCommittee = ConfigSet.Signers dkgLog ∧
     length (OCRCommittee.Transmitters vrfCommittee) = length (ConfigSet.Signers vrfLog) ∧
     length (OCRCommittee.Transmitters dkgCommittee) = length (ConfigSet.Signers dkgLog) ∧
     ∀ i, (i < length (ConfigSet.Signers vrfLog) →
           OCRCommittee.Transmitters vrfCommittee !! i = ConfigSet.Transmitters vrfLog !! i)%nat ∧
          (i < length (ConfigSet.Signers dkgLog) →
           OCRCommittee.Transmitters dkgCommittee !! i = ConfigSet.Transmitters dkgLog !! i)%nat) ∧
  ((length (ConfigSet.Transmitters vrfLog) < length (ConfigSet.Signers vrfLog))%nat →
   DKGVRFCommittees c = Panics "index out of range") ∧
  ((length (ConfigSet.Signers vrfLog) ≤ length (ConfigSet.Transmitters vrfLog))%nat →
   (length (ConfigSet.Transmitters dkgLog) < length (ConfigSet.Signers dkgLog))%nat →
   DKGVRFCommittees c = Panics "index out of range").
Proof.
  intros HlatestVRF HlatestDKG Hvrf Hdkg.
  unfold DKGVRFCommittees. rewrite HlatestVRF, HlatestDKG, Hvrf, Hdkg.
  split; [|split].
  - intros Hv Hd.
    rewrite (committeeOf_in_range vrfLog Hv), (committeeOf_in_range dkgLog Hd).
    eexists _, _. split; [reflexivity|]. simpl.
    rewrite !length_take. repeat split; try lia.
    + intros Hi. by apply lookup_take_lt.
    + intros Hi. by apply lookup_take_lt.
  - intros Hv. by rewrite (committeeOf_out_of_range vrfLog Hv).
  - intros Hv Hd.
    by rewrite (committeeOf_in_range vrfLog Hv), (committeeOf_out_of_range dkgLog Hd).
Qed.

Lemma DKGVRFCommittees_pairs_witness :
  DKGVRFCommittees
    (Sample.withConfig (ConfigSet.mk [1; 2] [3; 4; 5]) (ConfigSet.mk [6] [7]))
  = Returns (Ok (OCRCommittee.mk [6] [7], OCRCommittee.mk [1; 2] [3; 4])).
Proof.
  destruct (DKGVRFCommittees_pairs
              (Sample.withConfig (ConfigSet.mk [1; 2] [3; 4; 5]) (ConfigSet.mk [6] [7]))
              Sample.configLog Sample.configLog
              (ConfigSet.mk [1; 2] [3; 4; 5]) (ConfigSet.mk [6] [7])
              eq_refl eq_refl eq_refl eq_refl) as [Hpairs _].
  destruct Hpairs as (dkgCommittee & vrfCommittee & Hcall & _); [simpl; lia|simpl; lia|].
  rewrite Hcall. vm_compute in Hcall. congruence.
Defined.

(** The sibling branch, for comparison: the same mismatch under the
    RandomnessRequested signature returns at once, and the log after it is
    not decoded. *)
Example unmarshalLogs_randomnessRequested_cast_returns :
  unmarshalLogs (Sample.withLogs [])
    [Sample.logOf 11 15 80; Sample.logOf 11 11 90]
  = mkUnmarshalled [] [] [] []
      (Some (errNew "cast to *VRFBeaconCoordinatorRandomnessRequested")).
Proof. vm_compute. reflexivity. Qed.

(** ** The filters and unsupported delays *)

Section UnsupportedDelays.

Variable c : coordinator.
Variable confirmationDelays : gset Z.
Variable currentHeight : Z.

Lemma filterEligibleRandomnessRequestsFrom_supported logs unfulfilled :
  ∃ out,
    filterEligibleRandomnessRequestsFrom c logs confirmationDelays currentHeight
      unfulfilled = Ok (unfulfilled ++ out) ∧
    filterEligibleRandomnessRequestsFrom c
      (filter (supportedRequest confirmationDelays) logs)
      confirmationDelays currentHeight unfulfilled = Ok (unfulfilled ++ out) ∧
    Forall (λ b, confDelay b ∈ confirmationDelays) out.
Proof.
  revert unfulfilled. induction logs as [|r logs IH]; intros unfulfilled.
  - exists []. by rewrite app_nil_r.
  - destruct (decide (supportedRequest confirmationDelays r)) as [Hs|Hs].
    + rewrite filter_cons_True by done.
      cbn [filterEligibleRandomnessRequestsFrom].
      rewrite !decide_True by exact Hs.
      destruct (getCacheKey_block_total
                  (mkBlock 0 (RandomnessRequested.NextBeaconOutputHeight r)
                     (uint32 (big.Uint64 (RandomnessRequested.ConfDelay r)))))
        as [key ->].
      destruct (GetItem _ key); [apply IH|].
      destruct (isBlockEligible _ _ _); [|apply IH].
      destruct (IH (unfulfilled ++
                      [mkBlock 0 (RandomnessRequested.NextBeaconOutputHeight r)
                         (uint32 (big.Uint64 (RandomnessRequested.ConfDelay r)))]))
        as (out & H1 & H2 & H3).
      eexists (_ :: out). rewrite <- app_assoc in H1, H2.
      split; [exact H1|]. split; [exact H2|]. by constructor.
    + rewrite filter_cons_False by done.
      cbn [filterEligibleRandomnessRequestsFrom].
      rewrite decide_False by exact Hs. apply IH.
Qed.

Lemma filterEligibleCallbacksFrom_supported logs callbacks unfulfilled :
  ∃ outc outb,
    filterEligibleCallbacksFrom c logs confirmationDelays currentHeight
      callbacks unfulfilled = Ok (callbacks ++ outc, unfulfilled ++ outb) ∧
    filterEligibleCallbacksFrom c
      (filter (supportedCallback confirmationDelays) logs)
      confirmationDelays currentHeight callbacks unfulfilled
    = Ok (callbacks ++ outc, unfulfilled ++ outb) ∧
    Forall (supportedCallback confirmationDelays) outc ∧
    Forall (λ b, confDelay b ∈ confirmationDelays) outb.
Proof.
  revert callbacks unfulfilled.
  induction logs as [|r logs IH]; intros callbacks unfulfilled.
  - exists [], []. by rewrite !app_nil_r.
  - destruct (decide (supportedCallback confirmationDelays r)) as [Hs|Hs].
    + rewrite filter_cons_True by done.
      cbn [filterEligibleCallbacksFrom].
      rewrite !decide_True by exact Hs.
      destruct (getCacheKey_callback_total
                  (mkCallback 0 (RandomnessFulfillmentRequested.NextBeaconOutputHeight r)
                     (big.Uint64 (VRFBeaconTypesCallback.RequestID
                                    (RandomnessFulfillmentRequested.Callback r)))))
        as [key ->].
      destruct (GetItem _ key); [apply IH|].
      destruct (isBlockEligible _ _ _); [|apply IH].
      destruct (IH (callbacks ++ [r])
                   (unfulfilled ++
                      [mkBlock 0 (RandomnessFulfillmentRequested.NextBeaconOutputHeight r)
                         (uint32 (big.Uint64
                                    (RandomnessFulfillmentRequested.ConfDelay r)))]))
        as (outc & outb & H1 & H2 & H3 & H4).
      eexists (_ :: outc), (_ :: outb). rewrite <- !app_assoc in H1, H2.
      split; [exact H1|]. split; [exact H2|]. split; by constructor.
    + rewrite filter_cons_False by done.
      cbn [filterEligibleCallbacksFrom].
      rewrite decide_False by exact Hs. apply IH.
Qed.

Lemma filterUnfulfilledCallbacksFrom_supported candidates fulfilled callbacks :
  ∃ out,
    filterUnfulfilledCallbacksFrom candidates fulfilled confirmationDelays
      currentHeight callbacks = callbacks ++ out ∧
    filterUnfulfilledCallbacksFrom
      (filter (supportedCallback confirmationDelays) candidates) fulfilled
      confirmationDelays currentHeight callbacks = callbacks ++ out ∧
    Forall (λ cb, AbstractCostedCallbackRequest.ConfirmationDelay cb
                  ∈ confirmationDelays) out.
Proof.
  revert callbacks. induction candidates as [|r candidates IH]; intros callbacks.
  - exists []. by rewrite app_nil_r.
  - destruct (decide (supportedCallback confirmationDelays r)) as [Hs|Hs].
    + rewrite filter_cons_True by done.
      cbn [filterUnfulfilledCallbacksFrom].
      destruct (decide (_ ∈ fulfilled)); [apply IH|].
      rewrite !decide_True by exact Hs.
      destruct (isBlockEligible _ _ _); [|apply IH].
      destruct (IH (callbacks ++ [costedCallback r])) as (out & H1 & H2 & H3).
      eexists (_ :: out). rewrite <- app_assoc in H1, H2.
      split; [exact H1|]. split; [exact H2|]. by constructor.
    + rewrite filter_cons_False by done.
      cbn [filterUnfulfilledCallbacksFrom].
      destruct (decide (_ ∈ fulfilled)); [apply IH|].
      rewrite decide_False by exact Hs. apply IH.
Qed.

(** For a delay that fits the key type of the set, as every delay decoded
    from the contract's event does, being supported is plain membership. *)
Lemma supportedRequest_in_range r :
  0 ≤ RandomnessRequested.ConfDelay r < 2 ^ 32 →
  supportedRequest confirmationDelays r
  ↔ RandomnessRequested.ConfDelay r ∈ confirmationDelays.
Proof.
  intros Hr. unfold supportedRequest.
  rewrite Uint64_small by lia. unfold uint32. by rewrite Z.mod_small by lia.
Qed.

Lemma supportedCallback_in_range r :
  0 ≤ RandomnessFulfillmentRequested.ConfDelay r < 2 ^ 32 →
  supportedCallback confirmationDelays r
  ↔ RandomnessFulfillmentRequested.ConfDelay r ∈ confirmationDelays.
Proof.
  intros Hr. unfold supportedCallback.
  rewrite Uint64_small by lia. unfold uint32. by rewrite Z.mod_small by lia.
Qed.

End UnsupportedDelays.

(** C7: a log whose delay is not supported is left out of every output of
    the three filters, and the filters return without error: each gives
    the result it gives on the logs with the unsupported ones removed, and
    nothing it returns has an unsupported delay. *)
Theorem filters_skip_unsupported_delay c confirmationDelays currentHeight
    (requests : list RandomnessRequested.t)
    (fulfillmentRequests candidates : list RandomnessFulfillmentRequested.t)
    (fulfilledRequestIDs : gset Z) :
  (∃ unfulfilled,
     filterEligibleRandomnessRequests c requests confirmationDelays currentHeight
     = Ok unfulfilled ∧
     filterEligibleRandomnessRequests c
       (filter (supportedRequest confirmationDelays) requests)
       confirmationDelays currentHeight = Ok unfulfilled ∧
     ∀ b, b ∈ unfulfilled → confDelay b ∈ confirmationDelays) ∧
  (∃ callbacks unfulfilled,
     filterEligibleCallbacks c fulfillmentRequests confirmationDelays currentHeight
     = Ok (callbacks, unfulfilled) ∧
     filterEligibleCallbacks c
       (filter (supportedCallback confirmationDelays) fulfillmentRequests)
       confirmationDelays currentHeight = Ok (callbacks, unfulfilled) ∧
     (∀ r, r ∈ callbacks → supportedCallback confirmationDelays r) ∧
     (∀ b, b ∈ unfulfilled → confDelay b ∈ confirmationDelays)) ∧
  (filterUnfulfilledCallbacks candidates fulfilledRequestIDs confirmationDelays
     currentHeight
   = filterUnfulfilledCallbacks
       (filter (supportedCallback confirmationDelays) candidates)
       fulfilledRequestIDs confirmationDelays currentHeight ∧
   ∀ cb, cb ∈ filterUnfulfilledCallbacks candidates fulfilledRequestIDs
                confirmationDelays currentHeight →
         AbstractCostedCallbackRequest.ConfirmationDelay cb ∈ confirmationDelays).
Proof.
  split; [|split].
  - destruct (filterEligibleRandomnessRequestsFrom_supported c confirmationDelays
                currentHeight requests []) as (out & H1 & H2 & H3).
    exists out. unfold filterEligibleRandomnessRequests.
    split; [exact H1|]. split; [exact H2|]. by apply Forall_forall.
  - destruct (filterEligibleCallbacksFrom_supported c confirmationDelays
                currentHeight fulfillmentRequests [] []) as (outc & outb & H1 & H2 & H3 & H4).
    exists outc, outb. unfold filterEligibleCallbacks.
    split; [exact H1|]. split; [exact H2|]. split; by apply Forall_forall.
  - destruct (filterUnfulfilledCallbacksFrom_supported confirmationDelays
                currentHeight candidates fulfilledRequestIDs []) as (out & H1 & H2 & H3).
    unfold filterUnfulfilledCallbacks. rewrite H1, H2. split; [done|].
    by apply Forall_forall.
Qed.

(** ** ReportBlocks *)

Section ReportBlocksFacts.

Lemma elem_of_insertAll s l x : x ∈ insertAll s l ↔ x ∈ s ∨ x ∈ l.
Proof.
  unfold insertAll. revert s. induction l as [|a l IH]; intros s; simpl.
  - set_solver.
  - rewrite IH. set_solver.
Qed.

Lemma elem_of_deleteAll s l x : x ∈ deleteAll s l ↔ x ∈ s ∧ x ∉ l.
Proof.
  unfold deleteAll. revert s. induction l as [|a l IH]; intros s; simpl.
  - set_solver.
  - rewrite IH. set_solver.
Qed.

Lemma elem_of_foldl_heights {A} (P : A → bool) (g : A → Z) (ls : list A)
    (s0 : gset Z) k :
  k ∈ foldl (λ (s : gset Z) l, if P l then {[g l]} ∪ s else s) s0 ls
  ↔ k ∈ s0 ∨ ∃ l, l ∈ ls ∧ P l = true ∧ g l = k.
Proof.
  revert s0. induction ls as [|a ls IH]; intros s0; simpl.
  - split; [auto|]. intros [?|(l & Hl & _)]; [done|]. by apply elem_of_nil in Hl.
  - rewrite IH. split.
    + intros [Hk|(l & Hl & HP & Hg)].
      * destruct (P a) eqn:HP; [|auto].
        apply elem_of_union in Hk as [Hk|Hk]; [|auto].
        apply elem_of_singleton in Hk. right. exists a. split; [left|done].
      * right. exists l. split; [by right|done].
    + intros [Hk|(l & Hl & HP & Hg)].
      * left. destruct (P a); set_solver.
      * apply elem_of_cons in Hl as [->|Hl]; [|right; eauto].
        left. rewrite HP. set_solver.
Qed.

Lemma elem_of_rawBlocksRequested rrs rfrs currentHeight k :
  k ∈ rawBlocksRequested rrs rfrs currentHeight ↔
  (∃ r, r ∈ rrs ∧
        isBlockEligible (RandomnessRequested.NextBeaconOutputHeight r)
          (RandomnessRequested.ConfDelay r) currentHeight = true ∧
        RandomnessRequested.NextBeaconOutputHeight r = k) ∨
  (∃ r, r ∈ rfrs ∧
        isBlockEligible (RandomnessFulfillmentRequested.NextBeaconOutputHeight r)
          (RandomnessFulfillmentRequested.ConfDelay r) currentHeight = true ∧
        RandomnessFulfillmentRequested.NextBeaconOutputHeight r = k).
Proof.
  unfold rawBlocksRequested.
  rewrite (elem_of_foldl_heights
             (λ l, isBlockEligible (RandomnessFulfillmentRequested.NextBeaconOutputHeight l)
                     (RandomnessFulfillmentRequested.ConfDelay l) currentHeight)
             RandomnessFulfillmentRequested.NextBeaconOutputHeight).
  rewrite (elem_of_foldl_heights
             (λ l, isBlockEligible (RandomnessRequested.NextBeaconOutputHeight l)
                     (RandomnessRequested.ConfDelay l) currentHeight)
             RandomnessRequested.NextBeaconOutputHeight).
  set_solver.
Qed.

(** Where the blocks of the two eligibility filters come from. *)
Lemma filterEligibleRandomnessRequestsFrom_eligible c logs ds h acc res :
  filterEligibleRandomnessRequestsFrom c logs ds h acc = Ok res →
  ∀ b, b ∈ res →
    b ∈ acc ∨
    (blockHash b = 0 ∧
     ∃ r, r ∈ logs ∧
          isBlockEligible (RandomnessRequested.NextBeaconOutputHeight r)
            (RandomnessRequested.ConfDelay r) h = true ∧
          blockNumber b = RandomnessRequested.NextBeaconOutputHeight r ∧
          confDelay b = uint32 (big.Uint64 (RandomnessRequested.ConfDelay r))).
Proof.
  revert acc. induction logs as [|r logs IH]; intros acc;
    cbn [filterEligibleRandomnessRequestsFrom].
  - intros [= <-] b Hb. by left.
  - assert (Hskip : ∀ acc', filterEligibleRandomnessRequestsFrom c logs ds h acc' = Ok res →
              ∀ b, b ∈ res → b ∈ acc' ∨ (blockHash b = 0 ∧ ∃ r0, r0 ∈ r :: logs ∧
                isBlockEligible (RandomnessRequested.NextBeaconOutputHeight r0)
                  (RandomnessRequested.ConfDelay r0) h = true ∧
                blockNumber b = RandomnessRequested.NextBeaconOutputHeight r0 ∧
                confDelay b = uint32 (big.Uint64 (RandomnessRequested.ConfDelay r0)))).
    { intros acc' Hres b Hb.
      destruct (IH acc' Hres b Hb) as [?|(H0 & r0 & Hr0 & Hrest)]; [by left|].
      right. split; [done|]. exists r0. split; [by right|done]. }
    destruct (decide _); [|apply Hskip].
    destruct (getCacheKey _) as [key|]; [|done].
    destruct (GetItem _ key); [apply Hskip|].
    destruct (isBlockEligible _ _ _) eqn:Helig; [|apply Hskip].
    intros Hres b Hb.
    destruct (Hskip _ Hres b Hb) as [Hacc|?]; [|by right].
    apply elem_of_app in Hacc as [?|Hb0]; [by left|].
    apply list_elem_of_singleton in Hb0 as ->. right. split; [done|].
    exists r. split; [left|done].
Qed.

Lemma filterEligibleCallbacksFrom_eligible c logs ds h cbs acc rescb res :
  filterEligibleCallbacksFrom c logs ds h cbs acc = Ok (rescb, res) →
  ∀ b, b ∈ res →
    b ∈ acc ∨
    (blockHash b = 0 ∧
     ∃ r, r ∈ logs ∧
          isBlockEligible (RandomnessFulfillmentRequested.NextBeaconOutputHeight r)
            (RandomnessFulfillmentRequested.ConfDelay r) h = true ∧
          blockNumber b = RandomnessFulfillmentRequested.NextBeaconOutputHeight r ∧
          confDelay b
          = uint32 (big.Uint64 (RandomnessFulfillmentRequested.ConfDelay r))).
Proof.
  revert cbs acc. induction logs as [|r logs IH]; intros cbs acc;
    cbn [filterEligibleCallbacksFrom].
  - intros [= <- <-] b Hb. by left.
  - assert (Hskip : ∀ cbs' acc',
              filterEligibleCallbacksFrom c logs ds h cbs' acc' = Ok (rescb, res) →
              ∀ b, b ∈ res → b ∈ acc' ∨ (blockHash b = 0 ∧ ∃ r0, r0 ∈ r :: logs ∧
                isBlockEligible (RandomnessFulfillmentRequested.NextBeaconOutputHeight r0)
                  (RandomnessFulfillmentRequested.ConfDelay r0) h = true ∧
                blockNumber b = RandomnessFulfillmentRequested.NextBeaconOutputHeight r0 ∧
                confDelay b
                = uint32 (big.Uint64 (RandomnessFulfillmentRequested.ConfDelay r0)))).
    { intros cbs' acc' Hres b Hb.
      destruct (IH cbs' acc' Hres b Hb) as [?|(H0 & r0 & Hr0 & Hrest)]; [by left|].
      right. split; [done|]. exists r0. split; [by right|done]. }
    destruct (decide _); [|apply Hskip].
    destruct (getCacheKey _) as [key|]; [|done].
    destruct (GetItem _ key); [apply Hskip|].
    destruct (isBlockEligible _ _ _) eqn:Helig; [|apply Hskip].
    intros Hres b Hb.
    destruct (Hskip _ _ Hres b Hb) as [Hacc|?]; [|by right].
    apply elem_of_app in Hacc as [?|Hb0]; [by left|].
    apply list_elem_of_singleton in Hb0 as ->. right. split; [done|].
    exists r. split; [left|done].
Qed.

(** What [getFulfilledBlocks] lists. *)
Lemma getFulfilledBlocksFrom_lists logs acc fulfilled :
  getFulfilledBlocksFrom logs acc = Returns fulfilled →
  (∀ b, b ∈ acc → b ∈ fulfilled) ∧
  ∀ nt o, Some nt ∈ logs → o ∈ NewTransmission.OutputsServed nt →
    mkBlock 0 (OutputServed.Height o)
      (uint32 (big.Uint64 (OutputServed.ConfirmationDelay o))) ∈ fulfilled.
Proof.
  revert acc. induction logs as [|[r|] logs IH]; intros acc;
    cbn [getFulfilledBlocksFrom]; [| |done].
  - intros [= <-]. split; [done|]. intros nt o Hnt. by apply elem_of_nil in Hnt.
  - intros Hres. destruct (IH _ Hres) as [Hacc Hlogs]. split.
    + intros b Hb. apply Hacc, elem_of_app. by left.
    + intros nt o [[= ->]|Hnt]%elem_of_cons Ho; [|by eapply Hlogs].
      apply Hacc, elem_of_app. right.
      by apply (list_elem_of_fmap_2
                  (λ o, mkBlock 0 (OutputServed.Height o)
                          (uint32 (big.Uint64 (OutputServed.ConfirmationDelay o))))).
Qed.

(** A successful call, step by step. *)
Lemma ReportBlocks_inv c confirmationDelays blocks callbacks :
  ReportBlocks c confirmationDelays = Returns (Ok (blocks, callbacks)) →
  ∃ currentHeight logs blockhashesMapping unfulfilled callbacksRequested
    unfulfilled' fulfilledBlocks,
    LatestBlock (lp c) = Ok currentHeight ∧
    LogsWithSigs (lp c) (int64 (currentHeight - lookbackBlocks c)) currentHeight
      (vrfTopics c) (coordinatorAddress c) = Ok logs ∧
    unmarshalErr (unmarshalLogs c logs) = None ∧
    getBlockhashesMappingFromRequests c
      (randomnessRequestedLogs (unmarshalLogs c logs))
      (randomnessFulfillmentRequestedLogs (unmarshalLogs c logs)) currentHeight
    = (blockhashesMapping, None) ∧
    filterEligibleRandomnessRequests c
      (randomnessRequestedLogs (unmarshalLogs c logs))
      confirmationDelays currentHeight = Ok unfulfilled ∧
    filterEligibleCallbacks c
      (randomnessFulfillmentRequestedLogs (unmarshalLogs c logs))
      confirmationDelays currentHeight = Ok (callbacksRequested, unfulfilled') ∧
    getFulfilledBlocks (newTransmissionLogs (unmarshalLogs c logs))
    = Returns fulfilledBlocks ∧
    blocks = reportedBlock blockhashesMapping
               <$> elements (deleteAll (insertAll (insertAll ∅ unfulfilled) unfulfilled')
                               fulfilledBlocks).
Proof.
  unfold ReportBlocks.
  destruct (LatestBlock (lp c)) as [currentHeight|] eqn:Hlatest; [|done].
  destruct (LogsWithSigs _ _ _ _ _) as [logs|] eqn:Hlogs; [|done].
  destruct (unmarshalErr _) eqn:Herr; [done|].
  destruct (getBlockhashesMappingFromRequests _ _ _ _) as [mapping [|]] eqn:Hmap;
    [done|].
  destruct (filterEligibleRandomnessRequests _ _ _ _) as [unfulfilled|] eqn:Hrr;
    [|done].
  destruct (filterEligibleCallbacks _ _ _ _)
    as [[callbacksRequested unfulfilled']|] eqn:Hrfr; [|done].
  destruct (getFulfilledBlocks _) as [fulfilledBlocks|] eqn:Hnt; [|done].
  cbn [outcome_bind].
  destruct (getFulfilledRequestIDs _) as [fulfilledRequestIDs|]; [|done].
  cbn [outcome_bind]. intros [= <- <-].
  exists currentHeight, logs, mapping, unfulfilled, callbacksRequested,
    unfulfilled', fulfilledBlocks.
  by rewrite Hlogs, Hmap, Hrr, Hrfr.
Qed.

(** A returned block stands for a key some eligibility filter gave and
    [getFulfilledBlocks] did not. *)
Lemma elem_of_reported_blocks mapping unfulfilled unfulfilled' fulfilledBlocks b :
  b ∈ reportedBlock mapping
        <$> elements (deleteAll (insertAll (insertAll ∅ unfulfilled) unfulfilled')
                        fulfilledBlocks) →
  ∃ x, b = reportedBlock mapping x ∧
       (x ∈ unfulfilled ∨ x ∈ unfulfilled') ∧ x ∉ fulfilledBlocks.
Proof.
  intros (x & -> & Hx)%list_elem_of_fmap. exists x. split; [done|].
  apply elem_of_elements, elem_of_deleteAll in Hx as [Hx Hnot].
  apply elem_of_insertAll in Hx as [Hx|Hx]; [|auto].
  apply elem_of_insertAll in Hx as [Hx|Hx]; [|auto].
  by apply not_elem_of_empty in Hx.
Qed.

(** Any filtered block: its hash field is zero, its height was asked of
    [GetBlocks] and its delay is a [uint32]. *)
Lemma filtered_block c u confirmationDelays currentHeight unfulfilled
    callbacksRequested unfulfilled' x :
  filterEligibleRandomnessRequests c (randomnessRequestedLogs u)
    confirmationDelays currentHeight = Ok unfulfilled →
  filterEligibleCallbacks c (randomnessFulfillmentRequestedLogs u)
    confirmationDelays currentHeight = Ok (callbacksRequested, unfulfilled') →
  x ∈ unfulfilled ∨ x ∈ unfulfilled' →
  blockHash x = 0 ∧
  blockNumber x ∈ requestedBlockNumbers (randomnessRequestedLogs u)
                    (randomnessFulfillmentRequestedLogs u) currentHeight ∧
  0 ≤ confDelay x < 2 ^ 32.
Proof.
  intros Hrr Hrfr [Hx|Hx].
  - destruct (filterEligibleRandomnessRequestsFrom_eligible _ _ _ _ _ _ Hrr x Hx)
      as [Hnil|(H0 & r & Hr & Helig & Hnum & Hdelay)];
      [by apply elem_of_nil in Hnil|].
    split; [done|]. split.
    + apply elem_of_elements, elem_of_rawBlocksRequested. left. by exists r.
    + rewrite Hdelay. apply Z.mod_pos_bound. lia.
  - destruct (filterEligibleCallbacksFrom_eligible _ _ _ _ _ _ _ _ Hrfr x Hx)
      as [Hnil|(H0 & r & Hr & Helig & Hnum & Hdelay)];
      [by apply elem_of_nil in Hnil|].
    split; [done|]. split.
    + apply elem_of_elements, elem_of_rawBlocksRequested. right. by exists r.
    + rewrite Hdelay. apply Z.mod_pos_bound. lia.
Qed.

Lemma uint32_Uint64_small v : 0 ≤ v < 2 ^ 32 → uint32 (big.Uint64 v) = v.
Proof.
  intros Hv. rewrite Uint64_small by lia. apply Z.mod_small. lia.
Qed.




End ReportBlocksFacts.

(** C5: a (height, delay) pair served by a NewTransmission log of the
    scanned window is not among the blocks a successful [ReportBlocks]
    returns, whatever the block cache holds; this for the delay as logged
    and for the delay as the code reads it. *)
Theorem ReportBlocks_excludes_served c confirmationDelays blocks callbacks :
  ReportBlocks c confirmationDelays = Returns (Ok (blocks, callbacks)) →
  ∃ currentHeight logs,
    LatestBlock (lp c) = Ok currentHeight ∧
    LogsWithSigs (lp c) (int64 (currentHeight - lookbackBlocks c)) currentHeight
      (vrfTopics c) (coordinatorAddress c) = Ok logs ∧
    ∀ nt o b,
      Some nt ∈ newTransmissionLogs (unmarshalLogs c logs) →
      o ∈ NewTransmission.OutputsServed nt →
      b ∈ blocks →
      Block.Height b = OutputServed.Height o →
      Block.ConfirmationDelay b ≠ OutputServed.ConfirmationDelay o ∧
      Block.ConfirmationDelay b
      ≠ uint32 (big.Uint64 (OutputServed.ConfirmationDelay o)).
Proof.
  intros Hcall.
  destruct (ReportBlocks_inv _ _ _ _ Hcall)
    as (currentHeight & logs & mapping & unfulfilled & callbacksRequested
        & unfulfilled' & fulfilledBlocks
        & Hlatest & Hlogs & _ & _ & Hrr & Hrfr & Hnt & ->).
  exists currentHeight, logs. split; [done|]. split; [done|].
  intros nt o b Hnt_in Ho Hb Hheight.
  apply elem_of_reported_blocks in Hb as (x & -> & Hx & Hnot).
  destruct (filtered_block _ _ _ _ _ _ _ x Hrr Hrfr Hx) as (Hhash & _ & Hrange).
  apply getFulfilledBlocksFrom_lists in Hnt as [_ Hserved].
  specialize (Hserved nt o Hnt_in Ho).
  cbn [reportedBlock Block.Height Block.ConfirmationDelay] in *.
  assert (Hread : confDelay x ≠ uint32 (big.Uint64 (OutputServed.ConfirmationDelay o))).
  { intros Hdelay. apply Hnot. destruct x as [xh xn xd]; simpl in *. by subst. }
  split; [|done].
  intros Hdelay. apply Hread. rewrite <- Hdelay. symmetry.
  by apply uint32_Uint64_small.
Qed.

Lemma ReportBlocks_excludes_served_witness :
  ReportBlocks (Sample.withLogs Sample.servedLogs) {[3]}
  = Returns (Ok ([Block.mk 1080 80 3], [])) ∧
  ¬ blockInFlight (Sample.withLogs Sample.servedLogs) 90 3 ∧
  ∀ b, b ∈ [Block.mk 1080 80 3] → Block.Height b = 90 →
       Block.ConfirmationDelay b ≠ 3.
Proof.
  assert (Hcall : ReportBlocks (Sample.withLogs Sample.servedLogs) {[3]}
                  = Returns (Ok ([Block.mk 1080 80 3], []))).
  { vm_compute. reflexivity. }
  split; [exact Hcall|]. split.
  { intros (key & it & Hkey & Hget). vm_compute in Hget. discriminate. }
  destruct (ReportBlocks_excludes_served _ _ _ _ Hcall)
    as (currentHeight & logs & Hlatest & Hlogs & Hserved).
  injection Hlatest as <-. injection Hlogs as <-.
  intros b Hb Hheight.
  refine (proj1 (Hserved (NewTransmission.mk [OutputServed.mk 90 3])
                   (OutputServed.mk 90 3) b _ _ Hb Hheight)).
  - vm_compute. apply list_elem_of_here.
  - apply list_elem_of_here.
Defined.



(** * Further properties of the code *)

(** ** Eligibility over the whole [uint64] range *)

(** X1.  For a delay in [0, 2^63) and any [uint64] output height, the block
    is eligible exactly when the delay is below the current height and the
    sum, taken in [uint64], is below it too; in particular nothing is
    eligible at a height that does not exceed the delay. *)
Theorem isBlockEligible_uint64 n d h :
  0 ≤ n < 2 ^ 64 → 0 ≤ d < 2 ^ 63 → - 2 ^ 63 ≤ h < 2 ^ 63 →
  (isBlockEligible n d h = true ↔ d < h ∧ (n + d) mod 2 ^ 64 < h) ∧
  (h ≤ d → isBlockEligible n d h = false).
Proof.
  intros Hn Hd Hh.
  assert (Hiff : isBlockEligible n d h = true ↔ d < h ∧ (n + d) mod 2 ^ 64 < h).
  { unfold isBlockEligible. rewrite Int64_small by lia. rewrite Uint64_small by lia.
    unfold uint64. rewrite andb_true_iff, !Z.ltb_lt. split.
    - intros [Hlt Hsum]. rewrite (Z.mod_small h) in Hsum by lia. done.
    - intros [Hlt Hsum]. rewrite (Z.mod_small h) by lia. done. }
  split; [exact Hiff|].
  intros Hle. apply not_true_is_false. rewrite Hiff. lia.
Qed.

Lemma isBlockEligible_uint64_witness :
  (isBlockEligible (2 ^ 64 - 2) 3 5 = true ↔ 3 < 5 ∧ (2 ^ 64 - 2 + 3) mod 2 ^ 64 < 5) ∧
  (5 ≤ 3 → isBlockEligible (2 ^ 64 - 2) 3 5 = false).
Proof. apply (isBlockEligible_uint64 (2 ^ 64 - 2) 3 5); lia. Defined.

(** ** Epoch and round *)

Section EpochAndRound.

Lemma int64_small x : - 2 ^ 63 ≤ x < 2 ^ 63 → int64 x = x.
Proof. intros Hx. unfold int64. rewrite Z.mod_small by lia. lia. Qed.

Lemma toEpochAndRoundUint40_value epoch round :
  0 ≤ epoch < 2 ^ 32 → 0 ≤ round < 2 ^ 8 →
  toEpochAndRoundUint40 epoch round = epoch * 256 + round.
Proof.
  intros He Hr. unfold toEpochAndRoundUint40.
  rewrite Z.shiftl_mul_pow2 by lia. change (2 ^ 8) with 256.
  rewrite (int64_small (epoch * 256)) by lia. apply int64_small. lia.
Qed.

Lemma be_value_snoc l x : be_value (l ++ [x]) = be_value l * 256 + x.
Proof. unfold be_value. by rewrite foldl_app. Qed.

Lemma be_value_zeroes k l : be_value (replicate k 0 ++ l) = be_value l.
Proof.
  unfold be_value. rewrite foldl_app. f_equal.
  induction k as [|k IH]; simpl; [done|]. exact IH.
Qed.

(** The value of [n] big-endian digits of [a]. *)
Lemma be_value_digits n a :
  0 ≤ a →
  be_value ((λ i : nat, (a / 256 ^ Z.of_nat (n - 1 - i)) mod 256) <$> seq 0 n)
  = a mod 256 ^ Z.of_nat n.
Proof.
  revert a. induction n as [|n IH]; intros a Ha.
  - simpl. by rewrite Z.mod_1_r.
  - rewrite seq_S, fmap_app, fmap_cons, fmap_nil, be_value_snoc.
    replace (S n - 1 - (0 + n))%nat with 0%nat by lia.
    change (Z.of_nat 0) with 0. rewrite Z.pow_0_r, Z.div_1_r.
    rewrite (list_fmap_ext _ (λ i : nat, (a / 256 / 256 ^ Z.of_nat (n - 1 - i)) mod 256)).
    + rewrite IH by (apply Z.div_pos; lia).
      rewrite Nat2Z.inj_succ, Z.pow_succ_r by lia.
      rewrite Z.rem_mul_r by lia.
      lia.
    + intros i j [-> Hi]%lookup_seq.
      replace (S n - 1 - (0 + i))%nat with (S (n - 1 - (0 + i))) by lia.
      rewrite Nat2Z.inj_succ, Z.pow_succ_r by lia.
      by rewrite Z.div_div by lia.
Qed.

Lemma bigByteLength_bound a :
  0 ≤ a → a < 256 ^ Z.of_nat (bigByteLength a).
Proof.
  intros Ha. unfold bigByteLength. destruct (Z.eqb_spec a 0) as [->|Hne]; [done|].
  pose proof (Z.log2_nonneg a) as Hlog.
  rewrite Z2Nat.id by (pose proof (Z.div_pos (Z.log2 a) 8); lia).
  change 256 with (2 ^ 8). rewrite <- Z.pow_mul_r by (pose proof (Z.div_pos (Z.log2 a) 8); lia).
  apply Z.log2_lt_pow2; [lia|].
  pose proof (Z.mod_pos_bound (Z.log2 a) 8).
  pose proof (Z.div_mod (Z.log2 a) 8). lia.
Qed.

Lemma bigByteLength_small a :
  0 ≤ a < 2 ^ 256 → (bigByteLength a ≤ 32)%nat.
Proof.
  intros Ha. unfold bigByteLength. destruct (Z.eqb_spec a 0) as [->|Hne]; [lia|].
  assert (Z.log2 a < 256) by (apply Z.log2_lt_pow2; lia).
  pose proof (Z.log2_nonneg a).
  assert (Z.log2 a / 8 < 32) by (apply Z.div_lt_upper_bound; lia).
  pose proof (Z.div_pos (Z.log2 a) 8). lia.
Qed.

Lemma be_value_bigBytes a : 0 ≤ a → be_value (bigBytes a) = a.
Proof.
  intros Ha. unfold bigBytes. rewrite Z.abs_eq by done.
  rewrite be_value_digits by done. apply Z.mod_small.
  split; [done|]. by apply bigByteLength_bound.
Qed.

(** A number below [2^256], written out, padded to 32 bytes and read as a
    hash, is the number again. *)
Lemma topic_of_number a :
  0 ≤ a < 2 ^ 256 → BytesToHash (LeftPadBytes (bigBytes a) 32) = a.
Proof.
  intros Ha. pose proof (bigByteLength_small a Ha) as Hlen.
  assert (Hbytes : length (bigBytes a) = bigByteLength a).
  { unfold bigBytes. rewrite Z.abs_eq by lia. by rewrite length_fmap, length_seq. }
  unfold LeftPadBytes, BytesToHash, HashLength. case_decide as Hpad.
  - replace (length (bigBytes a) - 32)%nat with 0%nat by lia.
    rewrite drop_0. apply be_value_bigBytes. lia.
  - rewrite length_app, length_replicate.
    replace (32 - length (bigBytes a) + length (bigBytes a) - 32)%nat with 0%nat by lia.
    rewrite drop_0, be_value_zeroes. apply be_value_bigBytes. lia.
Qed.

End EpochAndRound.

(** X2.  [toEpochAndRoundUint40] packs a [uint32] epoch and a [uint8] round
    into a number below [2^40] from which both are read back, so that two
    different (epoch, round) pairs never give the same number. *)
Theorem toEpochAndRoundUint40_unpacks epoch round :
  0 ≤ epoch < 2 ^ 32 → 0 ≤ round < 2 ^ 8 →
  0 ≤ toEpochAndRoundUint40 epoch round < 2 ^ 40 ∧
  toEpochAndRoundUint40 epoch round / 256 = epoch ∧
  toEpochAndRoundUint40 epoch round mod 256 = round.
Proof.
  intros He Hr. rewrite toEpochAndRoundUint40_value by done.
  split; [lia|]. split.
  - symmetry. apply (Z.div_unique _ _ _ round); lia.
  - symmetry. apply (Z.mod_unique _ _ epoch); lia.
Qed.

Lemma toEpochAndRoundUint40_unpacks_witness :
  0 ≤ toEpochAndRoundUint40 3 7 < 2 ^ 40 ∧
  toEpochAndRoundUint40 3 7 / 256 = 3 ∧
  toEpochAndRoundUint40 3 7 mod 256 = 7.
Proof. apply (toEpochAndRoundUint40_unpacks 3 7); lia. Defined.

(** X3.  [ReportIsOnchain] asks the index for NewTransmission logs of the
    coordinator whose topic at index 2 is the number [epoch * 256 + round],
    with one confirmation; it answers true exactly when a log comes back,
    and hands an error of the index on, wrapped. *)
Theorem ReportIsOnchain_query c IndexedLogs epoch round :
  0 ≤ epoch < 2 ^ 32 → 0 ≤ round < 2 ^ 8 →
  ReportIsOnchain c IndexedLogs epoch round
  = match IndexedLogs (newTransmissionTopic (embeddedTopics c)) (coordinatorAddress c)
            2 [epoch * 256 + round] 1 with
    | Err e => Err (errWrap e "log poller IndexedLogs")
    | Ok logs => Ok (bool_decide (logs ≠ []))
    end.
Proof.
  intros He Hr. unfold ReportIsOnchain.
  rewrite toEpochAndRoundUint40_value by done.
  rewrite topic_of_number by lia.
  destruct (IndexedLogs _ _ _ _ _) as [logs|e]; [|done].
  f_equal. destruct logs as [|lg logs]; [reflexivity|].
  rewrite bool_decide_true by (simpl; lia). by rewrite bool_decide_true.
Qed.

Lemma ReportIsOnchain_query_witness :
  ReportIsOnchain Sample.fresh Sample2.indexedLogs 3 7 = Ok true ∧
  ReportIsOnchain Sample.fresh Sample2.indexedLogs 3 8 = Ok false.
Proof.
  split.
  - rewrite (ReportIsOnchain_query Sample.fresh Sample2.indexedLogs 3 7) by lia.
    reflexivity.
  - rewrite (ReportIsOnchain_query Sample.fresh Sample2.indexedLogs 3 8) by lia.
    reflexivity.
Defined.

(** X4.  The two converting reads of the contract: a beacon period below
    [2^16] and confirmation delays below [2^32] come back as the contract
    gives them, the delays in the same order. *)
Theorem contract_reads_in_range period delays :
  0 ≤ period < 2 ^ 16 →
  Forall (λ d, 0 ≤ d < 2 ^ 32) delays →
  BeaconPeriod (Ok period) = Ok period ∧
  ConfirmationDelays (Ok delays) = Ok delays.
Proof.
  intros Hp Hd. split.
  - unfold BeaconPeriod, uint16. rewrite Int64_small by lia.
    by rewrite Z.mod_small by lia.
  - unfold ConfirmationDelays. f_equal.
    induction Hd as [|d delays Hd _ IH]; [done|].
    rewrite fmap_cons, IH. f_equal.
    rewrite Uint64_small by lia. apply Z.mod_small. lia.
Qed.

Lemma contract_reads_in_range_witness :
  BeaconPeriod (Ok 10) = Ok 10 ∧ ConfirmationDelays (Ok [1; 3; 8]) = Ok [1; 3; 8].
Proof.
  apply (contract_reads_in_range 10 [1; 3; 8]); [lia|].
  repeat constructor; lia.
Defined.

(** ** Classification of the logs, further *)

Section Classification.

Variable c : coordinator.

(** One turn of the loop, by the case of the switch. *)
Lemma unmarshalLoop_cons lg logs rrs rfrs rwfs nts err :
  unmarshalLoop c (lg :: logs) (mkUnmarshalled rrs rfrs rwfs nts err)
  = match sigKind c lg with
    | None => unmarshalLoop c logs (mkUnmarshalled rrs rfrs rwfs nts err)
    | Some KRandomnessRequested =>
      match ParseLog (coordinatorContract c) (toGethLog lg) with
      | Err err2 =>
        mkUnmarshalled rrs rfrs rwfs nts
          (Some (errWrap err2 "unmarshal RandomnessRequested log"))
      | Ok (EvRandomnessRequested rr) =>
        unmarshalLoop c logs (mkUnmarshalled (rrs ++ [rr]) rfrs rwfs nts err)
      | Ok _ =>
        mkUnmarshalled rrs rfrs rwfs nts
          (Some (errNew "cast to *VRFBeaconCoordinatorRandomnessRequested"))
      end
    | Some KRandomnessFulfillmentRequested =>
      match ParseLog (coordinatorContract c) (toGethLog lg) with
      | Err err2 =>
        mkUnmarshalled rrs rfrs rwfs nts
          (Some (errWrap err2 "unmarshal RandomnessFulfillmentRequested log"))
      | Ok (EvRandomnessFulfillmentRequested rfr) =>
        unmarshalLoop c logs (mkUnmarshalled rrs (rfrs ++ [rfr]) rwfs nts err)
      | Ok _ =>
        mkUnmarshalled rrs rfrs rwfs nts
          (Some (errNew "cast to *VRFBeaconCoordinatorRandomnessFulfillmentRequested"))
      end
    | Some KRandomWordsFulfilled =>
      match ParseLog (coordinatorContract c) (toGethLog lg) with
      | Err err2 =>
        mkUnmarshalled rrs rfrs rwfs nts
          (Some (errWrap err2 "unmarshal RandomWordsFulfilled log"))
      | Ok (EvRandomWordsFulfilled rwf) =>
        unmarshalLoop c logs (mkUnmarshalled rrs rfrs (rwfs ++ [rwf]) nts err)
      | Ok _ =>
        mkUnmarshalled rrs rfrs rwfs nts
          (Some (errNew "cast to *VRFBeaconCoordinatorRandomWordsFulfilled"))
      end
    | Some KNewTransmission =>
      match ParseLog (coordinatorContract c) (toGethLog lg) with
      | Err err2 =>
        mkUnmarshalled rrs rfrs rwfs nts
          (Some (errWrap err2 "unmarshal NewTransmission log"))
      | Ok (EvNewTransmission nt) =>
        unmarshalLoop c logs (mkUnmarshalled rrs rfrs rwfs (nts ++ [Some nt]) err)
      | Ok _ =>
        unmarshalLoop c logs
          (mkUnmarshalled rrs rfrs rwfs (nts ++ [None])
             (Some (errNew "cast to *vrf_wrapper.VRFBeaconCoordinatorNewTransmission")))
      end
    end.
Proof.
  cbn [unmarshalLoop]. unfold sigKind. repeat case_decide; reflexivity.
Qed.

(** The same turn with the case and the parse laid open. *)
Ltac unmarshal_cases lg :=
  rewrite unmarshalLoop_cons;
  unfold decodes, asRandomnessRequested, asRandomnessFulfillmentRequested,
    asRandomWordsFulfilled, asNewTransmission;
  destruct (sigKind c lg) as [[]|];
  try destruct (ParseLog (coordinatorContract c) (toGethLog lg)) as [[]|];
  cbn [unmarshalErr randomnessRequestedLogs randomnessFulfillmentRequestedLogs
       randomWordsFulfilledLogs newTransmissionLogs].

Lemma unmarshalLoop_drops_unknown logs acc :
  unmarshalLoop c (filter (λ lg, is_Some (sigKind c lg)) logs) acc
  = unmarshalLoop c logs acc.
Proof.
  revert acc. induction logs as [|lg logs IH]; intros [rrs rfrs rwfs nts err]; [done|].
  destruct (sigKind c lg) as [k|] eqn:Hk.
  - rewrite filter_cons_True by (rewrite Hk; eauto).
    rewrite !unmarshalLoop_cons, Hk.
    destruct k; destruct (ParseLog _ _) as [[]|]; try reflexivity; apply IH.
  - rewrite filter_cons_False by (rewrite Hk; by intros [? ?]).
    rewrite unmarshalLoop_cons, Hk. apply IH.
Qed.

Lemma unmarshalLoop_error_sticky logs acc :
  unmarshalErr acc ≠ None → unmarshalErr (unmarshalLoop c logs acc) ≠ None.
Proof.
  revert acc. induction logs as [|lg logs IH]; intros [rrs rfrs rwfs nts err] Herr;
    [done|].
  unmarshal_cases lg; try done; apply IH; done.
Qed.

Lemma unmarshalLoop_ok_iff logs acc :
  unmarshalErr (unmarshalLoop c logs acc) = None
  ↔ unmarshalErr acc = None ∧ Forall (decodes c) logs.
Proof.
  revert acc. induction logs as [|lg logs IH]; intros [rrs rfrs rwfs nts err].
  - simpl. split; [by intros ->|by intros [-> _]].
  - rewrite Forall_cons.
    assert (Hsticky : ∀ e nts', unmarshalErr (unmarshalLoop c logs
                        (mkUnmarshalled rrs rfrs rwfs nts' (Some e))) ≠ None).
    { intros e nts'. by apply unmarshalLoop_error_sticky. }
    remember (Forall (decodes c) logs) as rest eqn:Hrest.
    unmarshal_cases lg; rewrite ?IH, <- ?Hrest; cbn [unmarshalErr];
      try (split; [intros [? ?]|intros (? & ? & ?)]; eauto; fail);
      try (split; [done|intros (_ & [? [=]] & _)]);
      try (split; [intros H; by apply Hsticky in H|intros (_ & [? [=]] & _)]);
      try (split; [intros [[=] _]|intros (_ & [? [=]] & _)]).
Qed.

(** The lists of a call without error. *)
Lemma unmarshalLoop_lists logs acc :
  unmarshalErr (unmarshalLoop c logs acc) = None →
  randomnessRequestedLogs (unmarshalLoop c logs acc)
  = randomnessRequestedLogs acc ++ omap (asRandomnessRequested c) logs ∧
  randomnessFulfillmentRequestedLogs (unmarshalLoop c logs acc)
  = randomnessFulfillmentRequestedLogs acc
    ++ omap (asRandomnessFulfillmentRequested c) logs ∧
  randomWordsFulfilledLogs (unmarshalLoop c logs acc)
  = randomWordsFulfilledLogs acc ++ omap (asRandomWordsFulfilled c) logs ∧
  newTransmissionLogs (unmarshalLoop c logs acc)
  = newTransmissionLogs acc ++ (Some <$> omap (asNewTransmission c) logs).
Proof.
  revert acc. induction logs as [|lg logs IH]; intros [rrs rfrs rwfs nts err].
  - intros _. simpl. by rewrite !app_nil_r.
  - assert (Hsticky : ∀ e nts', unmarshalErr (unmarshalLoop c logs
                        (mkUnmarshalled rrs rfrs rwfs nts' (Some e))) ≠ None).
    { intros e nts'. by apply unmarshalLoop_error_sticky. }
    cbn [omap list_omap].
    remember (omap (asRandomnessRequested c) logs) as l1 eqn:Hl1.
    remember (omap (asRandomnessFulfillmentRequested c) logs) as l2 eqn:Hl2.
    remember (omap (asRandomWordsFulfilled c) logs) as l3 eqn:Hl3.
    remember (omap (asNewTransmission c) logs) as l4 eqn:Hl4.
    unmarshal_cases lg; intros Hok; try discriminate Hok;
      try (by apply Hsticky in Hok);
      destruct (IH _ Hok) as (H1 & H2 & H3 & H4);
      cbn [unmarshalErr randomnessRequestedLogs randomnessFulfillmentRequestedLogs
           randomWordsFulfilledLogs newTransmissionLogs] in *;
      rewrite H1, H2, H3, H4, <- ?Hl1, <- ?Hl2, <- ?Hl3, <- ?Hl4;
      rewrite <- ?app_assoc; done.
Qed.


Lemma unmarshalLoop_app pre logs acc :
  Forall (decodes c) pre →
  unmarshalLoop c (pre ++ logs) acc = unmarshalLoop c logs (unmarshalLoop c pre acc).
Proof.
  intros Hpre. revert acc.
  induction Hpre as [|lg pre Hlg _ IH]; intros [rrs rfrs rwfs nts err]; [done|].
  rewrite <- app_comm_cons, !unmarshalLoop_cons. revert Hlg.
  unfold decodes, asRandomnessRequested, asRandomnessFulfillmentRequested,
    asRandomWordsFulfilled, asNewTransmission.
  destruct (sigKind c lg) as [[]|];
    try destruct (ParseLog (coordinatorContract c) (toGethLog lg)) as [[]|];
    intros Hlg; try (destruct Hlg; discriminate); apply IH.
Qed.

End Classification.

(** X5.  Logs whose signature is none of the four topics are left out and
    change nothing: the call gives what it gives on the logs without them. *)
Theorem unmarshalLogs_drops_unknown c logs :
  unmarshalLogs c logs
  = unmarshalLogs c (filter (λ lg, is_Some (sigKind c lg)) logs).
Proof. unfold unmarshalLogs. by rewrite unmarshalLoop_drops_unknown. Qed.

(** X6.  The call returns without error exactly when every log with one of
    the four signatures parses to the event type of its signature. *)
Theorem unmarshalLogs_ok_iff c logs :
  unmarshalErr (unmarshalLogs c logs) = None ↔ Forall (decodes c) logs.
Proof.
  unfold unmarshalLogs. rewrite unmarshalLoop_ok_iff. simpl. naive_solver.
Qed.

(** X7.  When the call returns without error, each of the four lists holds,
    in the order of the input, the events of the logs of its signature; in
    particular no entry of the NewTransmission list is nil. *)
Theorem unmarshalLogs_lists c logs :
  unmarshalErr (unmarshalLogs c logs) = None →
  randomnessRequestedLogs (unmarshalLogs c logs)
  = omap (asRandomnessRequested c) logs ∧
  randomnessFulfillmentRequestedLogs (unmarshalLogs c logs)
  = omap (asRandomnessFulfillmentRequested c) logs ∧
  randomWordsFulfilledLogs (unmarshalLogs c logs)
  = omap (asRandomWordsFulfilled c) logs ∧
  newTransmissionLogs (unmarshalLogs c logs)
  = Some <$> omap (asNewTransmission c) logs.
Proof. intros Hok. by apply unmarshalLoop_lists in Hok. Qed.

Lemma unmarshalLogs_lists_witness :
  let u := unmarshalLogs (Sample.withLogs []) Sample.servedLogs in
  randomnessRequestedLogs u
  = [RandomnessRequested.mk 90 3; RandomnessRequested.mk 80 3] ∧
  randomnessFulfillmentRequestedLogs u = [] ∧
  randomWordsFulfilledLogs u = [] ∧
  newTransmissionLogs u = [Some (NewTransmission.mk [OutputServed.mk 90 3])].
Proof.
  intros u.
  destruct (unmarshalLogs_lists (Sample.withLogs []) Sample.servedLogs)
    as (H1 & H2 & H3 & H4); [vm_compute; reflexivity|].
  unfold u. rewrite H1, H2, H3, H4. vm_compute. done.
Defined.

(** X8.  A log that fails to decode stops the call on the spot, except for
    a NewTransmission log of the wrong event type: the call returns an
    error, what the lists held before that log, and the logs after it are
    not looked at. *)
Theorem unmarshalLogs_stops_at_failure c pre lg rest :
  Forall (decodes c) pre →
  ¬ decodes c lg →
  (sigKind c lg ≠ Some KNewTransmission ∨
   ∃ e, ParseLog (coordinatorContract c) (toGethLog lg) = Err e) →
  ∃ e, unmarshalLogs c (pre ++ lg :: rest)
       = mkUnmarshalled (omap (asRandomnessRequested c) pre)
           (omap (asRandomnessFulfillmentRequested c) pre)
           (omap (asRandomWordsFulfilled c) pre)
           (Some <$> omap (asNewTransmission c) pre) (Some e).
Proof.
  intros Hpre Hlg Hreturn. unfold unmarshalLogs.
  rewrite unmarshalLoop_app by done.
  assert (Hok : unmarshalErr (unmarshalLoop c pre (mkUnmarshalled [] [] [] [] None)) = None)
    by (by apply unmarshalLoop_ok_iff).
  destruct (unmarshalLoop_lists c pre _ Hok) as (H1 & H2 & H3 & H4).
  destruct (unmarshalLoop c pre _) as [rrs rfrs rwfs nts err].
  simpl in Hok, H1, H2, H3, H4. subst.
  rewrite unmarshalLoop_cons. revert Hlg Hreturn.
  unfold decodes, asRandomnessRequested, asRandomnessFulfillmentRequested,
    asRandomWordsFulfilled, asNewTransmission.
  destruct (sigKind c lg) as [[]|];
    try destruct (ParseLog (coordinatorContract c) (toGethLog lg)) as [[]|];
    intros Hlg Hreturn;
    first [ by (eexists; reflexivity)
          | exfalso; by (apply Hlg; eauto)
          | exfalso; destruct Hreturn as [?|[? ?]]; done ].
Qed.

Lemma unmarshalLogs_stops_at_failure_witness :
  ∃ e, unmarshalLogs (Sample.withLogs [])
         ([Sample.logOf 11 11 90] ++ Sample.logOf 11 15 80 :: [Sample.logOf 11 11 70])
       = mkUnmarshalled [RandomnessRequested.mk 90 3] [] [] [] (Some e).
Proof.
  apply (unmarshalLogs_stops_at_failure (Sample.withLogs [])
           [Sample.logOf 11 11 90] (Sample.logOf 11 15 80) [Sample.logOf 11 11 70]).
  - constructor; [|constructor]. vm_compute. eauto.
  - vm_compute. intros [? [=]].
  - left. vm_compute. discriminate.
Defined.

(** ** Fulfilled request identifiers *)

Section Fulfilled.

Lemma fulfilledOfLog_returns ids i flags s :
  (i + length ids ≤ length flags)%nat →
  ∃ s', fulfilledOfLog ids i flags s = Returns s' ∧
    ∀ id, id ∈ s' ↔
      id ∈ s ∨ ∃ j requestID, ids !! j = Some requestID ∧
                 flags !! (i + j)%nat = Some 1 ∧ big.Uint64 requestID = id.
Proof.
  revert i s. induction ids as [|requestID ids IH]; intros i s Hlen.
  - exists s. split; [done|]. intros id. split; [auto|].
    intros [?|(j & r & Hj & _)]; [done|]. by rewrite lookup_nil in Hj.
  - cbn [fulfilledOfLog]. simpl in Hlen.
    destruct (lookup_lt_is_Some_2 flags i) as [flag Hflag]; [lia|].
    rewrite Hflag.
    destruct (IH (S i) (if decide (flag = 1) then {[big.Uint64 requestID]} ∪ s else s))
      as (s' & Hret & Hmem); [lia|].
    exists s'. split; [exact Hret|]. intros id. rewrite Hmem. split.
    + intros [Hin|(j & r & Hj & Hf & Hid)].
      * case_decide as Hone; [|auto].
        apply elem_of_union in Hin as [Hin|Hin]; [|auto].
        apply elem_of_singleton in Hin. right. exists 0%nat, requestID.
        rewrite Nat.add_0_r. subst. done.
      * right. exists (S j), r. split; [done|].
        by replace (i + S j)%nat with (S i + j)%nat by lia.
    + intros [Hin|(j & r & Hj & Hf & Hid)].
      * left. case_decide; set_solver.
      * destruct j as [|j].
        -- rewrite Nat.add_0_r in Hf. simpl in Hj. injection Hj as ->.
           rewrite Hflag in Hf. injection Hf as ->.
           left. rewrite decide_True by done. set_solver.
        -- right. exists j, r. split; [done|].
           by replace (S i + j)%nat with (i + S j)%nat by lia.
Qed.

Lemma fulfilledOfLog_panics ids i flags s :
  ids ≠ [] → (length flags < i + length ids)%nat →
  fulfilledOfLog ids i flags s = Panics "index out of range".
Proof.
  revert i s. induction ids as [|requestID ids IH]; intros i s Hne Hlen; [done|].
  cbn [fulfilledOfLog]. destruct (flags !! i) as [flag|] eqn:Hflag; [|done].
  apply lookup_lt_Some in Hflag. simpl in Hlen.
  apply IH; [|lia]. intros ->. simpl in Hlen. lia.
Qed.

Lemma getFulfilledRequestIDsFrom_returns logs s :
  Forall flagged logs →
  ∃ s', getFulfilledRequestIDsFrom logs s = Returns s' ∧
    ∀ id, id ∈ s' ↔ id ∈ s ∨ fulfilledIn logs id.
Proof.
  intros Hlogs. revert s.
  induction Hlogs as [|r logs Hr _ IH]; intros s.
  - exists s. split; [done|]. intros id. split; [auto|].
    intros [?|(r & i & rid & Hr & _)]; [done|]. by apply elem_of_nil in Hr.
  - cbn [getFulfilledRequestIDsFrom].
    destruct (fulfilledOfLog_returns (RandomWordsFulfilled.RequestIDs r) 0
                (RandomWordsFulfilled.SuccessfulFulfillment r) s)
      as (s1 & -> & Hmem1); [exact Hr|].
    cbn [outcome_bind]. destruct (IH s1) as (s' & Hret & Hmem).
    exists s'. split; [exact Hret|]. intros id. rewrite Hmem, Hmem1.
    unfold fulfilledIn. split.
    + intros [[?|(j & rid & Hj & Hf & Hid)]|(r' & i & rid & Hr' & Hrest)]; [auto| |].
      * right. exists r, j, rid. split; [left|done].
      * right. exists r', i, rid. split; [by right|done].
    + intros [?|(r' & i & rid & Hr' & Hi & Hf & Hid)]; [auto|].
      apply elem_of_cons in Hr' as [->|Hr'].
      * left. right. by exists i, rid.
      * right. by exists r', i, rid.
Qed.

Lemma getFulfilledRequestIDsFrom_panics logs s :
  Exists (λ r, ¬ flagged r) logs →
  getFulfilledRequestIDsFrom logs s = Panics "index out of range".
Proof.
  intros Hbad. revert s.
  induction logs as [|r logs IH]; intros s; [by apply Exists_nil in Hbad|].
  cbn [getFulfilledRequestIDsFrom].
  destruct (decide (flagged r)) as [Hr|Hr].
  - destruct (fulfilledOfLog_returns (RandomWordsFulfilled.RequestIDs r) 0
                (RandomWordsFulfilled.SuccessfulFulfillment r) s)
      as (s1 & -> & _); [exact Hr|].
    cbn [outcome_bind]. apply IH.
    apply Exists_cons in Hbad as [?|?]; done.
  - rewrite fulfilledOfLog_panics; [done| |unfold flagged in Hr; simpl; lia].
    intros Hnil. apply Hr. unfold flagged. rewrite Hnil. simpl. lia.
Qed.

Lemma getFulfilledRequestIDs_outcome logs :
  (Forall flagged logs ∧
   ∃ s, getFulfilledRequestIDs logs = Returns s ∧ ∀ id, id ∈ s ↔ fulfilledIn logs id) ∨
  (Exists (λ r, ¬ flagged r) logs ∧
   getFulfilledRequestIDs logs = Panics "index out of range").
Proof.
  destruct (decide (Forall flagged logs)) as [Hok|Hbad].
  - left. split; [done|].
    destruct (getFulfilledRequestIDsFrom_returns logs ∅ Hok) as (s & Hret & Hmem).
    exists s. split; [exact Hret|]. intros id. rewrite Hmem. set_solver.
  - right. apply not_Forall_Exists in Hbad; [|apply _]. split; [done|].
    by apply getFulfilledRequestIDsFrom_panics.
Qed.

End Fulfilled.

(** X9.  On fulfilment logs that have a flag for every request identifier,
    [getFulfilledRequestIDs] returns exactly the identifiers listed with
    flag 1: an identifier whose flag is not 1 counts as fulfilled only if
    another entry lists it with flag 1. *)
Theorem getFulfilledRequestIDs_members logs :
  Forall flagged logs →
  ∃ s, getFulfilledRequestIDs logs = Returns s ∧
       ∀ id, id ∈ s ↔ fulfilledIn logs id.
Proof.
  intros Hlogs. unfold getFulfilledRequestIDs.
  destruct (getFulfilledRequestIDsFrom_returns logs ∅ Hlogs) as (s & Hret & Hmem).
  exists s. split; [exact Hret|]. intros id. rewrite Hmem. set_solver.
Qed.

Lemma getFulfilledRequestIDs_members_witness :
  getFulfilledRequestIDs Sample2.fulfilledLogs = Returns {[5; 7]} ∧
  fulfilledIn Sample2.fulfilledLogs 5 ∧ ¬ fulfilledIn Sample2.fulfilledLogs 6.
Proof.
  destruct (getFulfilledRequestIDs_members Sample2.fulfilledLogs)
    as (s & Hret & Hmem).
  { repeat constructor; vm_compute; discriminate. }
  assert (Hs : s = {[5; 7]}).
  { assert (Hcomp : getFulfilledRequestIDs Sample2.fulfilledLogs = Returns {[5; 7]})
      by (vm_compute; reflexivity).
    rewrite Hcomp in Hret. by injection Hret. }
  subst s. split; [exact Hret|]. split.
  - apply Hmem. set_solver.
  - intros H6. apply Hmem in H6. set_solver.
Defined.

(** X10.  [getFulfilledRequestIDs] panics, with an index out of range,
    exactly when some log lists more request identifiers than flags. *)
Theorem getFulfilledRequestIDs_panics_iff logs :
  getFulfilledRequestIDs logs = Panics "index out of range"
  ↔ Exists (λ r, ¬ flagged r) logs.
Proof.
  split.
  - intros Hpanic.
    destruct (getFulfilledRequestIDs_outcome logs) as [(_ & s & Hret & _)|[Hbad _]];
      [congruence|exact Hbad].
  - apply getFulfilledRequestIDsFrom_panics.
Qed.

(** ** The filters, further *)

Section Filters.

Variable c : coordinator.
Variable confirmationDelays : gset Z.
Variable currentHeight : Z.

Lemma filterUnfulfilledCallbacksFrom_filter candidates fulfilled callbacks :
  filterUnfulfilledCallbacksFrom candidates fulfilled confirmationDelays
    currentHeight callbacks
  = callbacks ++ (costedCallback
                    <$> filter (servable fulfilled confirmationDelays currentHeight)
                          candidates).
Proof.
  revert callbacks. induction candidates as [|r candidates IH]; intros callbacks.
  - simpl. by rewrite app_nil_r.
  - cbn [filterUnfulfilledCallbacksFrom].
    destruct (decide (_ ∈ fulfilled)) as [Hful|Hful].
    { rewrite filter_cons_False by (intros (Hno & _); done). apply IH. }
    destruct (decide (_ ∈ confirmationDelays)) as [Hsup|Hsup].
    2:{ rewrite filter_cons_False by (intros (_ & Hs & _); done). apply IH. }
    destruct (isBlockEligible _ _ _) eqn:Helig.
    2:{ rewrite filter_cons_False by (intros (_ & _ & He); congruence). apply IH. }
    rewrite filter_cons_True by done.
    rewrite IH, fmap_cons, <- app_assoc. done.
Qed.

Lemma blockInFlight_GetItem height delay key :
  getCacheKey (mkBlock 0 height delay) = Ok key →
  blockInFlight c height delay
  ↔ ∃ it, GetItem (toBeTransmittedBlocks c) key = Ok it.
Proof.
  intros Hkey. unfold blockInFlight. split.
  - intros (k & it & Hk & Hget). rewrite Hkey in Hk. injection Hk as <-. eauto.
  - intros [it Hget]. eauto.
Qed.

Lemma callbackInFlight_GetItem height requestID key :
  getCacheKey (mkCallback 0 height requestID) = Ok key →
  callbackInFlight c height requestID
  ↔ ∃ it, GetItem (toBeTransmittedCallbacks c) key = Ok it.
Proof.
  intros Hkey. unfold callbackInFlight. split.
  - intros (k & it & Hk & Hget). rewrite Hkey in Hk. injection Hk as <-. eauto.
  - intros [it Hget]. eauto.
Qed.

Lemma filterEligibleRandomnessRequestsFrom_members logs unfulfilled :
  ∃ out,
    filterEligibleRandomnessRequestsFrom c logs confirmationDelays currentHeight
      unfulfilled = Ok (unfulfilled ++ out) ∧
    ∀ b, b ∈ out ↔
      ∃ r, r ∈ logs ∧ offeredRequest c confirmationDelays currentHeight r ∧
           b = mkBlock 0 (RandomnessRequested.NextBeaconOutputHeight r)
                 (uint32 (big.Uint64 (RandomnessRequested.ConfDelay r))).
Proof.
  revert unfulfilled. induction logs as [|r logs IH]; intros unfulfilled.
  - exists []. rewrite app_nil_r. split; [done|]. intros b. split.
    + by intros ?%elem_of_nil.
    + intros (r & Hr & _). by apply elem_of_nil in Hr.
  - assert (Hskip : ¬ offeredRequest c confirmationDelays currentHeight r →
              ∀ out : list block, (∀ b, b ∈ out ↔ ∃ r0, r0 ∈ logs ∧ offeredRequest c confirmationDelays currentHeight r0 ∧
                        b = mkBlock 0 (RandomnessRequested.NextBeaconOutputHeight r0)
                              (uint32 (big.Uint64 (RandomnessRequested.ConfDelay r0)))) →
              ∀ b, b ∈ out ↔ ∃ r0, r0 ∈ r :: logs ∧ offeredRequest c confirmationDelays currentHeight r0 ∧
                        b = mkBlock 0 (RandomnessRequested.NextBeaconOutputHeight r0)
                              (uint32 (big.Uint64 (RandomnessRequested.ConfDelay r0)))).
    { intros Hno out Hout b. rewrite Hout. split.
      - intros (r0 & Hr0 & Hrest). exists r0. split; [by right|done].
      - intros (r0 & [->|Hr0]%elem_of_cons & Hoff & Hb); [done|]. by exists r0. }
    cbn [filterEligibleRandomnessRequestsFrom].
    destruct (decide _) as [Hsup|Hsup].
    2:{ destruct (IH unfulfilled) as (out & Hret & Hout). exists out.
        split; [done|]. apply Hskip; [|done]. by intros (? & _). }
    destruct (getCacheKey_block_total
                (mkBlock 0 (RandomnessRequested.NextBeaconOutputHeight r)
                   (uint32 (big.Uint64 (RandomnessRequested.ConfDelay r)))))
      as [key Hkey].
    rewrite Hkey. pose proof (blockInFlight_GetItem _ _ key Hkey) as Hflight.
    destruct (GetItem _ key) as [it|e] eqn:Hget.
    { destruct (IH unfulfilled) as (out & Hret & Hout). exists out.
      split; [done|]. apply Hskip; [|done]. intros (_ & _ & Hno).
      apply Hno, Hflight. eauto. }
    destruct (isBlockEligible _ _ _) eqn:Helig.
    2:{ destruct (IH unfulfilled) as (out & Hret & Hout). exists out.
        split; [done|]. apply Hskip; [|done]. intros (_ & He & _). congruence. }
    destruct (IH (unfulfilled ++
                    [mkBlock 0 (RandomnessRequested.NextBeaconOutputHeight r)
                       (uint32 (big.Uint64 (RandomnessRequested.ConfDelay r)))]))
      as (out & Hret & Hout).
    eexists (_ :: out). rewrite <- app_assoc in Hret. split; [exact Hret|].
    intros b. rewrite elem_of_cons, Hout. split.
    + intros [->|(r0 & Hr0 & Hrest)].
      * exists r. split; [left|]. split; [|done]. split; [done|]. split; [done|].
        intros [it Hit]%Hflight. congruence.
      * exists r0. split; [by right|done].
    + intros (r0 & [->|Hr0]%elem_of_cons & Hoff & Hb); [by left|].
      right. by exists r0.
Qed.

Lemma filterEligibleCallbacksFrom_members logs callbacks unfulfilled :
  ∃ out,
    filterEligibleCallbacksFrom c logs confirmationDelays currentHeight
      callbacks unfulfilled
    = Ok (callbacks ++ out, unfulfilled ++ (blockOfCallback <$> out)) ∧
    ∀ r, r ∈ out ↔ r ∈ logs ∧ offeredCallback c confirmationDelays currentHeight r.
Proof.
  revert callbacks unfulfilled.
  induction logs as [|r logs IH]; intros callbacks unfulfilled.
  - exists []. rewrite !app_nil_r. split; [done|]. intros r. split.
    + by intros ?%elem_of_nil.
    + intros [Hr _]. by apply elem_of_nil in Hr.
  - assert (Hskip : ¬ offeredCallback c confirmationDelays currentHeight r →
              ∀ out : list RandomnessFulfillmentRequested.t,
                (∀ r0, r0 ∈ out ↔ r0 ∈ logs ∧ offeredCallback c confirmationDelays currentHeight r0) →
              ∀ r0, r0 ∈ out ↔ r0 ∈ r :: logs ∧ offeredCallback c confirmationDelays currentHeight r0).
    { intros Hno out Hout r0. rewrite Hout, elem_of_cons. split.
      - intros [? ?]. auto.
      - intros [[->|?] ?]; done. }
    cbn [filterEligibleCallbacksFrom].
    destruct (decide _) as [Hsup|Hsup].
    2:{ destruct (IH callbacks unfulfilled) as (out & Hret & Hout). exists out.
        split; [done|]. apply Hskip; [|done]. by intros (? & _). }
    destruct (getCacheKey_callback_total
                (mkCallback 0 (RandomnessFulfillmentRequested.NextBeaconOutputHeight r)
                   (big.Uint64 (VRFBeaconTypesCallback.RequestID
                                  (RandomnessFulfillmentRequested.Callback r)))))
      as [key Hkey].
    rewrite Hkey. pose proof (callbackInFlight_GetItem _ _ key Hkey) as Hflight.
    destruct (GetItem _ key) as [it|e] eqn:Hget.
    { destruct (IH callbacks unfulfilled) as (out & Hret & Hout). exists out.
      split; [done|]. apply Hskip; [|done]. intros (_ & _ & Hno).
      apply Hno, Hflight. eauto. }
    destruct (isBlockEligible _ _ _) eqn:Helig.
    2:{ destruct (IH callbacks unfulfilled) as (out & Hret & Hout). exists out.
        split; [done|]. apply Hskip; [|done]. intros (_ & He & _). congruence. }
    destruct (IH (callbacks ++ [r])
                 (unfulfilled ++
                    [mkBlock 0 (RandomnessFulfillmentRequested.NextBeaconOutputHeight r)
                       (uint32 (big.Uint64
                                  (RandomnessFulfillmentRequested.ConfDelay r)))]))
      as (out & Hret & Hout).
    exists (r :: out). rewrite <- !app_assoc in Hret. split; [exact Hret|].
    intros r0. rewrite !elem_of_cons, Hout. split.
    + intros [->|[? ?]]; [|auto]. split; [by left|]. split; [done|]. split; [done|].
      intros [it Hit]%Hflight. congruence.
    + intros [[->|?] ?]; auto.
Qed.

End Filters.

(** X11.  [filterUnfulfilledCallbacks] returns, in the order of the
    candidates, one record for each candidate that is not fulfilled, has a
    supported delay and is eligible, and nothing else; every record has
    price zero and a request identifier outside the fulfilled set. *)
Theorem filterUnfulfilledCallbacks_servable candidates fulfilled
    confirmationDelays currentHeight :
  filterUnfulfilledCallbacks candidates fulfilled confirmationDelays currentHeight
  = costedCallback
      <$> filter (servable fulfilled confirmationDelays currentHeight) candidates ∧
  ∀ cb, cb ∈ filterUnfulfilledCallbacks candidates fulfilled confirmationDelays
               currentHeight →
        AbstractCostedCallbackRequest.Price cb = 0 ∧
        AbstractCostedCallbackRequest.RequestID cb ∉ fulfilled.
Proof.
  unfold filterUnfulfilledCallbacks.
  rewrite filterUnfulfilledCallbacksFrom_filter. simpl. split; [done|].
  intros cb (r & -> & Hr)%list_elem_of_fmap.
  apply list_elem_of_filter in Hr as [(Hno & _) _]. done.
Qed.

(** X12.  [filterEligibleRandomnessRequests] never fails, and a block is in
    its result exactly when it is the block of a request log that has a
    supported delay, is eligible and is not in flight. *)
Theorem filterEligibleRandomnessRequests_members c logs confirmationDelays
    currentHeight :
  ∃ unfulfilled,
    filterEligibleRandomnessRequests c logs confirmationDelays currentHeight
    = Ok unfulfilled ∧
    ∀ b, b ∈ unfulfilled ↔
      ∃ r, r ∈ logs ∧ offeredRequest c confirmationDelays currentHeight r ∧
           b = mkBlock 0 (RandomnessRequested.NextBeaconOutputHeight r)
                 (uint32 (big.Uint64 (RandomnessRequested.ConfDelay r))).
Proof.
  apply (filterEligibleRandomnessRequestsFrom_members c confirmationDelays
           currentHeight logs []).
Qed.

(** X13.  [filterEligibleCallbacks] never fails; it keeps exactly the
    request logs that have a supported delay, are eligible and whose
    callback is not in flight, and the blocks it returns are the blocks of
    the kept logs, one for one and in the same order. *)
Theorem filterEligibleCallbacks_members c logs confirmationDelays currentHeight :
  ∃ callbacks,
    filterEligibleCallbacks c logs confirmationDelays currentHeight
    = Ok (callbacks, blockOfCallback <$> callbacks) ∧
    ∀ r, r ∈ callbacks ↔
         r ∈ logs ∧ offeredCallback c confirmationDelays currentHeight r.
Proof.
  apply (filterEligibleCallbacksFrom_members c confirmationDelays
           currentHeight logs [] []).
Qed.

(** ** ReportWillBeTransmitted, further *)

Section TransmissionMore.

Variable c : coordinator.

Lemma checkCallbacks_ok_iff cbs acc :
  (∃ res, checkCallbacks c cbs acc = Ok res)
  ↔ ∀ cb, cb ∈ cbs →
      ¬ callbackInFlight c (AbstractCostedCallbackRequest.BeaconHeight cb)
          (AbstractCostedCallbackRequest.RequestID cb).
Proof.
  revert acc. induction cbs as [|cb cbs IH]; intros acc.
  - split; [|by eauto]. intros _ cb Hcb. by apply elem_of_nil in Hcb.
  - cbn [checkCallbacks].
    destruct (getCacheKey_callback_total
                (mkCallback 0 (AbstractCostedCallbackRequest.BeaconHeight cb)
                   (AbstractCostedCallbackRequest.RequestID cb))) as [key Hkey].
    rewrite Hkey. pose proof (callbackInFlight_GetItem c _ _ key Hkey) as Hflight.
    destruct (GetItem _ key) as [it|e] eqn:Hget.
    + split; [by intros [? ?]|]. intros Hall. exfalso.
      apply (Hall cb); [left|]. apply Hflight. eauto.
    + rewrite IH. split.
      * intros Hall cb' [->|?]%elem_of_cons; [|by apply Hall].
        intros [it Hit]%Hflight. congruence.
      * intros Hall cb' Hcb'. apply Hall. by right.
Qed.

Lemma checkCallbacks_collects cbs acc res :
  checkCallbacks c cbs acc = Ok res →
  (∀ x, x ∈ acc → x ∈ res) ∧
  ∀ cb, cb ∈ cbs →
    mkCallback 0 (AbstractCostedCallbackRequest.BeaconHeight cb)
      (AbstractCostedCallbackRequest.RequestID cb) ∈ res.
Proof.
  revert acc. induction cbs as [|cb cbs IH]; intros acc; cbn [checkCallbacks].
  - intros [= <-]. split; [done|]. intros cb Hcb. by apply elem_of_nil in Hcb.
  - destruct (getCacheKey _) as [key|]; [|done].
    destruct (GetItem _ key); [done|].
    intros Hrec. destruct (IH _ Hrec) as [Hacc Hall]. split.
    + intros x Hx. apply Hacc, elem_of_app. by left.
    + intros cb' [->|Hcb']%elem_of_cons; [|by apply Hall].
      apply Hacc, elem_of_app. right. apply list_elem_of_here.
Qed.

Lemma checkOutputs_ok_iff outputs bs cbs :
  (∃ res, checkOutputs c outputs bs cbs = Ok res)
  ↔ (∀ o, o ∈ outputs → AbstractVRFOutput.VRFProof o ≠ [] →
       ¬ blockInFlight c (AbstractVRFOutput.BlockHeight o)
           (AbstractVRFOutput.ConfirmationDelay o)) ∧
    (∀ o cb, o ∈ outputs → cb ∈ AbstractVRFOutput.Callbacks o →
       ¬ callbackInFlight c (AbstractCostedCallbackRequest.BeaconHeight cb)
           (AbstractCostedCallbackRequest.RequestID cb)).
Proof.
  revert bs cbs. induction outputs as [|o outputs IH]; intros bs cbs.
  - split; [|by eauto]. intros _.
    split; [intros o Ho|intros o cb Ho]; by apply elem_of_nil in Ho.
  - cbn [checkOutputs].
    destruct (getCacheKey_block_total
                (mkBlock 0 (AbstractVRFOutput.BlockHeight o)
                   (AbstractVRFOutput.ConfirmationDelay o))) as [key Hkey].
    rewrite Hkey. pose proof (blockInFlight_GetItem c _ _ key Hkey) as Hflight.
    pose proof (checkCallbacks_ok_iff (AbstractVRFOutput.Callbacks o) cbs) as Hcbs.
    assert (Hproof : bool_decide (0 < length (AbstractVRFOutput.VRFProof o))%nat = true
                     ↔ AbstractVRFOutput.VRFProof o ≠ []).
    { rewrite bool_decide_eq_true. destruct (AbstractVRFOutput.VRFProof o); simpl.
      - split; [lia|done].
      - split; [done|lia]. }
    assert (Hblock : (∃ bs', (if bool_decide (0 < length (AbstractVRFOutput.VRFProof o))%nat
                       then match GetItem (toBeTransmittedBlocks c) key with
                            | Ok _ => Err (errBlockInFlight
                                             (mkBlock 0 (AbstractVRFOutput.BlockHeight o)
                                                (AbstractVRFOutput.ConfirmationDelay o)))
                            | Err _ => Ok (bs ++ [mkBlock 0 (AbstractVRFOutput.BlockHeight o)
                                                    (AbstractVRFOutput.ConfirmationDelay o)])
                            end
                       else Ok bs) = Ok bs')
                     ↔ (AbstractVRFOutput.VRFProof o ≠ [] →
                        ¬ blockInFlight c (AbstractVRFOutput.BlockHeight o)
                            (AbstractVRFOutput.ConfirmationDelay o))).
    { destruct (bool_decide _) eqn:Hb.
      - destruct (GetItem _ key) as [it|e] eqn:Hget.
        + split; [by intros [? ?]|]. intros Hno. exfalso.
          apply Hno; [by apply Hproof|]. apply Hflight. eauto.
        + split; [|by eauto]. intros _ _ [it Hit]%Hflight. congruence.
      - split; [|by eauto]. intros _ Hne. apply Hproof in Hne. congruence. }
    destruct (if bool_decide _ then _ else _) as [bs'|e].
    + destruct (checkCallbacks c _ cbs) as [cbs'|e] eqn:Hcb.
      * rewrite IH. split.
        -- intros [Hb Hc]. split.
           ++ intros o' [->|?]%elem_of_cons; [|by apply Hb]. apply Hblock. eauto.
           ++ intros o' cb [->|?]%elem_of_cons; [|by apply Hc].
              apply Hcbs. eauto.
        -- intros [Hb Hc]. split.
           ++ intros o' Ho'. apply Hb. by right.
           ++ intros o' cb Ho'. apply Hc. by right.
      * split; [by intros [? ?]|]. intros [_ Hc]. exfalso.
        destruct (proj2 Hcbs) as [? [=]].
        intros cb Hcb'. apply (Hc o); [left|done].
    + split; [by intros [? ?]|]. intros [Hb _]. exfalso.
      destruct (proj2 Hblock) as [? [=]]. apply Hb. left.
Qed.

Lemma checkOutputs_collects_callbacks outputs bs cbs bs' cbs' :
  checkOutputs c outputs bs cbs = Ok (bs', cbs') →
  (∀ x, x ∈ cbs → x ∈ cbs') ∧
  ∀ o cb, o ∈ outputs → cb ∈ AbstractVRFOutput.Callbacks o →
    mkCallback 0 (AbstractCostedCallbackRequest.BeaconHeight cb)
      (AbstractCostedCallbackRequest.RequestID cb) ∈ cbs'.
Proof.
  revert bs cbs. induction outputs as [|o outputs IH]; intros bs cbs;
    cbn [checkOutputs].
  - intros [= <- <-]. split; [done|]. intros o cb Ho. by apply elem_of_nil in Ho.
  - destruct (if bool_decide _ then _ else _) as [bs1|]; [|done].
    destruct (checkCallbacks c _ cbs) as [cbs1|] eqn:Hcb; [|done].
    apply checkCallbacks_collects in Hcb as [Hacc1 Hall1].
    intros Hrec. destruct (IH _ _ Hrec) as [Hacc Hall]. split.
    + intros x Hx. by apply Hacc, Hacc1.
    + intros o' cb [->|Ho']%elem_of_cons Hcb; [|by eapply Hall].
      by apply Hacc, Hall1.
Qed.

Lemma addCallbacks_keeps cache cbs h key it :
  Cache.cache cache !! key = Some it → itemHeight it = h →
  ∃ it', Cache.cache (addCallbacks cache cbs h).1 !! key = Some it' ∧ itemHeight it' = h.
Proof.
  revert cache it.
  induction cbs as [|cb cbs IH]; intros cache it Hit Hh; cbn [addCallbacks]; [eauto|].
  destruct (getCacheKey cb) as [k|]; [|eauto].
  destruct (decide (k = key)) as [->|Hne].
  - eapply IH; [apply lookup_insert_eq|done].
  - eapply IH; [|done]. simpl. by rewrite lookup_insert_ne.
Qed.

Lemma addCallbacks_adds cache cbs h cb :
  cb ∈ cbs →
  ∃ key it', getCacheKey cb = Ok key ∧
    Cache.cache (addCallbacks cache cbs h).1 !! key = Some it' ∧ itemHeight it' = h.
Proof.
  intros Hin. revert cache.
  induction Hin as [cb cbs|cb cb' cbs Hin IH]; intros cache; cbn [addCallbacks].
  - destruct (getCacheKey_callback_total cb) as [key Hkey]. rewrite Hkey.
    destruct (addCallbacks_keeps (AddItem cache cb key h) cbs h key (mkItem cb h))
      as (it' & Hit' & Hh); [apply lookup_insert_eq|done|]. eauto.
  - destruct (getCacheKey_callback_total cb') as [key' ->]. apply IH.
Qed.

(** A successful call, step by step. *)
Lemma ReportWillBeTransmitted_inv report c1 :
  ReportWillBeTransmitted c report = (c1, None) →
  ∃ bs cbs h,
    checkOutputs c (AbstractReport.Outputs report) [] [] = Ok (bs, cbs) ∧
    LatestBlock (lp c) = Ok h ∧
    toBeTransmittedBlocks c1
    = EvictExpiredItems (addBlocks (toBeTransmittedBlocks c) bs h).1 h ∧
    toBeTransmittedCallbacks c1
    = EvictExpiredItems (addCallbacks (toBeTransmittedCallbacks c) cbs h).1 h.
Proof.
  unfold ReportWillBeTransmitted.
  destruct (checkOutputs c _ [] []) as [[bs cbs]|] eqn:Hcheck; [|done].
  destruct (LatestBlock (lp c)) as [h|] eqn:Hlatest; [|done].
  destruct (addBlocks _ bs h) as [blocks' [eb|]] eqn:Hb; [done|].
  cbn [withBlocks toBeTransmittedCallbacks].
  destruct (addCallbacks _ cbs h) as [callbacks' [ec|]] eqn:Hc; [done|].
  intros [= <-]. exists bs, cbs, h. by rewrite Hb, Hc.
Qed.

Lemma accepted_callbacks_in_flight report c1 height requestID :
  0 ≤ evictionWindow (toBeTransmittedCallbacks c) →
  ReportWillBeTransmitted c report = (c1, None) →
  reportsCallback report height requestID →
  callbackInFlight c1 height requestID.
Proof.
  intros Hw Hcall (o & cb & Ho & Hcb & <- & <-).
  apply ReportWillBeTransmitted_inv in Hcall
    as (bs & cbs & h & Hcheck & Hlatest & Hblocks & Hcallbacks).
  apply checkOutputs_collects_callbacks in Hcheck as [_ Hall].
  specialize (Hall o cb Ho Hcb).
  destruct (addCallbacks_adds (toBeTransmittedCallbacks c) cbs h _ Hall)
    as (key & it & Hkey & Hit & Hh).
  exists key, (item it). split; [done|]. unfold GetItem. rewrite Hcallbacks.
  rewrite (EvictExpiredItems_keeps _ h key it); [done| |done|done].
  by rewrite addCallbacks_window.
Qed.

(** The keys the first pass collects are not cached. *)
Lemma checkCallbacks_fresh cbs acc res :
  checkCallbacks c cbs acc = Ok res →
  ∀ x, x ∈ res →
    x ∈ acc ∨ ∃ k, getCacheKey x = Ok k ∧
                   cache (toBeTransmittedCallbacks c) !! k = None.
Proof.
  revert acc. induction cbs as [|cb cbs IH]; intros acc; cbn [checkCallbacks].
  - intros [= <-] x Hx. by left.
  - destruct (getCacheKey _) as [key|] eqn:Hkey; [|done].
    unfold GetItem at 1.
    destruct (cache (toBeTransmittedCallbacks c) !! key) as [it|] eqn:Hget; [done|].
    intros Hrec x Hx. destruct (IH _ Hrec x Hx) as [Hacc|?]; [|by right].
    apply elem_of_app in Hacc as [?|Hx0]; [by left|].
    apply list_elem_of_singleton in Hx0 as ->. right. eauto.
Qed.

Lemma checkOutputs_fresh outputs bs cbs bs' cbs' :
  checkOutputs c outputs bs cbs = Ok (bs', cbs') →
  (∀ x, x ∈ bs' →
     x ∈ bs ∨ ∃ k, getCacheKey x = Ok k ∧
                   cache (toBeTransmittedBlocks c) !! k = None) ∧
  (∀ x, x ∈ cbs' →
     x ∈ cbs ∨ ∃ k, getCacheKey x = Ok k ∧
                    cache (toBeTransmittedCallbacks c) !! k = None).
Proof.
  revert bs cbs. induction outputs as [|o outputs IH]; intros bs cbs;
    cbn [checkOutputs].
  - intros [= <- <-]. split; intros x Hx; by left.
  - assert (Hfirst : ∀ bs1,
              (if bool_decide (0 < length (AbstractVRFOutput.VRFProof o))%nat
               then match getCacheKey (mkBlock 0 (AbstractVRFOutput.BlockHeight o)
                                         (AbstractVRFOutput.ConfirmationDelay o)) with
                    | Err e =>
                      Err (errWrap e "Getting block cache key in ReportWillBeTransmitted")
                    | Ok key =>
                      match GetItem (toBeTransmittedBlocks c) key with
                      | Ok _ => Err (errBlockInFlight
                                       (mkBlock 0 (AbstractVRFOutput.BlockHeight o)
                                          (AbstractVRFOutput.ConfirmationDelay o)))
                      | Err _ => Ok (bs ++ [mkBlock 0 (AbstractVRFOutput.BlockHeight o)
                                              (AbstractVRFOutput.ConfirmationDelay o)])
                      end
                    end
               else Ok bs) = Ok bs1 →
              ∀ x, x ∈ bs1 →
                x ∈ bs ∨ ∃ k, getCacheKey x = Ok k ∧
                              cache (toBeTransmittedBlocks c) !! k = None).
    { intros bs1. case_bool_decide.
      - destruct (getCacheKey _) as [key|] eqn:Hkey; [|done].
        unfold GetItem.
        destruct (cache (toBeTransmittedBlocks c) !! key) as [it|] eqn:Hget; [done|].
        intros [= <-] x [?|Hx0]%elem_of_app; [by left|].
        apply list_elem_of_singleton in Hx0 as ->. right. eauto.
      - intros [= <-] x Hx. by left. }
    destruct (if bool_decide _ then _ else _) as [bs1|]; [|done].
    specialize (Hfirst bs1 eq_refl).
    destruct (checkCallbacks c _ cbs) as [cbs1|] eqn:Hcb; [|done].
    pose proof (checkCallbacks_fresh _ _ _ Hcb) as Hcbs1.
    intros Hrec. destruct (IH _ _ Hrec) as [Hb Hc]. split.
    + intros x Hx. destruct (Hb x Hx) as [?|?]; [by apply Hfirst|by right].
    + intros x Hx. destruct (Hc x Hx) as [?|?]; [by apply Hcbs1|by right].
Qed.

Lemma addBlocks_other cache0 bs h key :
  (∀ b, b ∈ bs → getCacheKey b ≠ Ok key) →
  cache (addBlocks cache0 bs h).1 !! key = cache cache0 !! key.
Proof.
  revert cache0. induction bs as [|b bs IH]; intros cache0 Hne; cbn [addBlocks]; [done|].
  destruct (getCacheKey b) as [k|] eqn:Hk; [|done].
  rewrite IH by (intros b' Hb'; apply Hne; by right).
  simpl. apply lookup_insert_ne. intros ->. by apply (Hne b); [left|].
Qed.

Lemma addCallbacks_other cache0 cbs h key :
  (∀ cb, cb ∈ cbs → getCacheKey cb ≠ Ok key) →
  cache (addCallbacks cache0 cbs h).1 !! key = cache cache0 !! key.
Proof.
  revert cache0.
  induction cbs as [|cb cbs IH]; intros cache0 Hne; cbn [addCallbacks]; [done|].
  destruct (getCacheKey cb) as [k|] eqn:Hk; [|done].
  rewrite IH by (intros cb' Hcb'; apply Hne; by right).
  simpl. apply lookup_insert_ne. intros ->. by apply (Hne cb); [left|].
Qed.

Lemma lookup_EvictExpiredItems {T} (b : BlockCache T) h key :
  cache (EvictExpiredItems b h) !! key
  = match cache b !! key with
    | Some e => if decide (itemHeight e + evictionWindow b < h) then None else Some e
    | None => None
    end.
Proof.
  simpl. rewrite map_lookup_filter.
  destruct (cache b !! key) as [e|]; simpl; [|done].
  unfold expired. simpl. case_decide.
  - by rewrite option_guard_False by tauto.
  - by rewrite option_guard_True by tauto.
Qed.

End TransmissionMore.

(** X14.  [ReportWillBeTransmitted] accepts a report exactly when the
    latest block can be read, no block the report carries with a proof is
    in flight, and no callback the report serves is in flight. *)
Theorem ReportWillBeTransmitted_accepts_iff c report :
  (ReportWillBeTransmitted c report).2 = None
  ↔ (∃ h, LatestBlock (lp c) = Ok h) ∧
    (∀ height delay, reportsBlock report height delay →
                     ¬ blockInFlight c height delay) ∧
    (∀ height requestID, reportsCallback report height requestID →
                         ¬ callbackInFlight c height requestID).
Proof.
  pose proof (checkOutputs_ok_iff c (AbstractReport.Outputs report) [] []) as Hiff.
  split.
  - intros Hok.
    destruct (ReportWillBeTransmitted c report) as [c1 err] eqn:Hcall.
    simpl in Hok. subst err.
    apply ReportWillBeTransmitted_inv in Hcall as (bs & cbs & h & Hcheck & Hlatest & _).
    split; [eauto|].
    destruct (proj1 Hiff) as [Hb Hc]; [eauto|]. split.
    + intros height delay (o & Ho & Hproof & <- & <-). by apply Hb.
    + intros height requestID (o & cb & Ho & Hcb & <- & <-). by eapply Hc.
  - intros ([h Hlatest] & Hb & Hc).
    destruct (proj2 Hiff) as [[bs cbs] Hcheck].
    { split.
      - intros o Ho Hproof. apply Hb. by exists o.
      - intros o cb Ho Hcb. apply Hc. by exists o, cb. }
    eapply ReportWillBeTransmitted_after_check; eauto.
Qed.

(** X15.  After an accepted report every callback it serves is in flight,
    and neither cache holds an entry older than the eviction window counted
    back from the latest block. *)
Theorem ReportWillBeTransmitted_accepted_state c report c1 :
  0 ≤ evictionWindow (toBeTransmittedCallbacks c) →
  ReportWillBeTransmitted c report = (c1, None) →
  ∃ h, LatestBlock (lp c) = Ok h ∧
    (∀ height requestID, reportsCallback report height requestID →
                         callbackInFlight c1 height requestID) ∧
    (∀ key e, cache (toBeTransmittedBlocks c1) !! key = Some e →
              h ≤ itemHeight e + evictionWindow (toBeTransmittedBlocks c1)) ∧
    (∀ key e, cache (toBeTransmittedCallbacks c1) !! key = Some e →
              h ≤ itemHeight e + evictionWindow (toBeTransmittedCallbacks c1)).
Proof.
  intros Hw Hcall.
  apply ReportWillBeTransmitted_inv in Hcall
    as (bs & cbs & h & Hcheck & Hlatest & Hblocks & Hcallbacks).
  exists h. split; [done|]. split; [|split].
  - intros height requestID (o & cb & Ho & Hcb & <- & <-).
    apply checkOutputs_collects_callbacks in Hcheck as [_ Hall].
    specialize (Hall o cb Ho Hcb).
    destruct (addCallbacks_adds (toBeTransmittedCallbacks c) cbs h _ Hall)
      as (key & it & Hkey & Hit & Hh).
    exists key, (item it). split; [done|]. unfold GetItem. rewrite Hcallbacks.
    rewrite (EvictExpiredItems_keeps _ h key it); [done| |done|done].
    by rewrite addCallbacks_window.
  - intros key e. rewrite Hblocks. simpl.
    intros [_ Hkeep]%map_lookup_filter_Some. unfold expired in Hkeep. simpl in *. lia.
  - intros key e. rewrite Hcallbacks. simpl.
    intros [_ Hkeep]%map_lookup_filter_Some. unfold expired in Hkeep. simpl in *. lia.
Qed.

Lemma ReportWillBeTransmitted_accepted_state_witness :
  let report :=
    AbstractReport.mk [Sample.output 90 3 [1] [Sample.request 90 7]] in
  let c1 := (ReportWillBeTransmitted Sample.fresh report).1 in
  callbackInFlight c1 90 7 ∧
  ∀ key e, cache (toBeTransmittedBlocks c1) !! key = Some e →
           100 ≤ itemHeight e + evictionWindow (toBeTransmittedBlocks c1).
Proof.
  intros report c1.
  destruct (ReportWillBeTransmitted_accepted_state Sample.fresh report c1)
    as (h & Hlatest & Hcb & Hblocks & _).
  - vm_compute. discriminate.
  - vm_compute. reflexivity.
  - injection Hlatest as <-. split; [|exact Hblocks].
    apply Hcb. exists (Sample.output 90 3 [1] [Sample.request 90 7]), (Sample.request 90 7).
    repeat split; apply list_elem_of_here.
Defined.



(** X17.  The cache key does not depend on the block: [getCacheKey]
    marshals a struct without exported fields.  So while one block is in
    flight every block counts as in flight: [filterEligibleRandomnessRequests]
    returns no block, whatever the logs, and [ReportWillBeTransmitted]
    refuses every report that carries a block with a proof. *)
Theorem one_block_in_flight_holds_all c height delay :
  blockInFlight c height delay →
  (∀ height' delay', blockInFlight c height' delay') ∧
  (∀ logs confirmationDelays currentHeight,
     filterEligibleRandomnessRequests c logs confirmationDelays currentHeight = Ok []) ∧
  (∀ report height' delay',
     reportsBlock report height' delay' →
     ∃ e, ReportWillBeTransmitted c report = (c, Some e) ∧ alreadyInFlight e).
Proof.
  intros Hflight.
  assert (Hall : ∀ height' delay', blockInFlight c height' delay').
  { intros height' delay'. destruct Hflight as (key & it & Hkey & Hget).
    exists key, it. split; [exact Hkey|exact Hget]. }
  split; [exact Hall|]. split.
  - intros logs ds h. unfold filterEligibleRandomnessRequests.
    destruct (filterEligibleRandomnessRequestsFrom_members c ds h logs [])
      as (out & Hret & Hmem).
    rewrite Hret. f_equal. simpl. apply elem_of_nil_inv. intros b Hb.
    apply Hmem in Hb as (r & _ & (_ & _ & Hno) & _). apply Hno, Hall.
  - intros report height' delay' (o & Ho & Hproof & <- & <-).
    destruct (checkOutputs_in_flight c _ [] [] o Ho Hproof (Hall _ _)) as [e He].
    exists e. unfold ReportWillBeTransmitted. rewrite He. split; [done|].
    eapply checkOutputs_error, He.
Qed.

Lemma one_block_in_flight_holds_all_witness :
  let c1 := (ReportWillBeTransmitted Sample.fresh Sample.report1).1 in
  blockInFlight c1 80 0 ∧
  filterEligibleRandomnessRequests c1 [RandomnessRequested.mk 80 0] {[0]} 100 = Ok [] ∧
  ∃ e, ReportWillBeTransmitted c1 (AbstractReport.mk [Sample.output 80 0 [1] []])
       = (c1, Some e) ∧ alreadyInFlight e.
Proof.
  intros c1.
  destruct (one_block_in_flight_holds_all c1 90 3) as (Hall & Hfilter & Hreport).
  - exists (BytesToHash emptyObject), (mkBlock 0 90 3). split; reflexivity.
  - split; [apply Hall|]. split; [apply Hfilter|].
    apply (Hreport _ 80 0). exists (Sample.output 80 0 [1] []).
    repeat split; [apply list_elem_of_here|done].
Defined.

(** X18.  The same for callbacks: while one callback is in flight every
    callback counts as in flight, and [filterEligibleCallbacks] keeps no
    request and returns no block. *)
Theorem one_callback_in_flight_holds_all c height requestID :
  callbackInFlight c height requestID →
  (∀ height' requestID', callbackInFlight c height' requestID') ∧
  (∀ logs confirmationDelays currentHeight,
     filterEligibleCallbacks c logs confirmationDelays currentHeight = Ok ([], [])) ∧
  (∀ report height' requestID',
     reportsCallback report height' requestID' →
     ∃ e, ReportWillBeTransmitted c report = (c, Some e) ∧ alreadyInFlight e).
Proof.
  intros Hflight.
  assert (Hall : ∀ height' requestID', callbackInFlight c height' requestID').
  { intros height' requestID'. destruct Hflight as (key & it & Hkey & Hget).
    exists key, it. split; [exact Hkey|exact Hget]. }
  split; [exact Hall|]. split.
  - intros logs ds h. unfold filterEligibleCallbacks.
    destruct (filterEligibleCallbacksFrom_members c ds h logs [] [])
      as (out & Hret & Hmem).
    rewrite Hret. simpl.
    assert (out = []) as ->; [|done].
    apply elem_of_nil_inv. intros r Hr.
    apply Hmem in Hr as (_ & _ & _ & Hno). apply Hno, Hall.
  - intros report height' requestID' Hreports.
    destruct (ReportWillBeTransmitted c report) as [c1 [e|]] eqn:Hcall.
    + exists e.
      destruct (checkOutputs c (AbstractReport.Outputs report) [] [])
        as [[bs cbs]|e1] eqn:Hcheck.
      * exfalso.
        destruct (proj1 (checkOutputs_ok_iff c (AbstractReport.Outputs report) [] []))
          as [_ Hc]; [eauto|].
        destruct Hreports as (o & cb & Ho & Hcb & <- & <-).
        by apply (Hc o cb Ho Hcb), Hall.
      * unfold ReportWillBeTransmitted in Hcall. rewrite Hcheck in Hcall.
        injection Hcall as <- <-. split; [done|]. eapply checkOutputs_error, Hcheck.
    + exfalso.
      apply ReportWillBeTransmitted_inv in Hcall as (bs & cbs & h & Hcheck & _).
      destruct (proj1 (checkOutputs_ok_iff c (AbstractReport.Outputs report) [] []))
        as [_ Hc]; [eauto|].
      destruct Hreports as (o & cb & Ho & Hcb & <- & <-).
      by apply (Hc o cb Ho Hcb), Hall.
Qed.

Lemma one_callback_in_flight_holds_all_witness :
  let c1 := (ReportWillBeTransmitted Sample.fresh
               (AbstractReport.mk [Sample.output 90 3 [] [Sample.request 90 7]])).1 in
  callbackInFlight c1 80 9 ∧
  filterEligibleCallbacks c1 [Sample2.callbackRequest 80 3 9] {[3]} 100 = Ok ([], []).
Proof.
  intros c1.
  destruct (one_callback_in_flight_holds_all c1 90 7) as (Hall & Hfilter & _).
  - exists (BytesToHash emptyObject), (mkCallback 0 90 7). split; reflexivity.
  - split; [apply Hall|apply Hfilter].
Defined.

(** X19.  A coordinator as [New] makes it has nothing in flight, so it
    accepts every report, duplicates within it or not, as soon as the
    latest block can be read; for a finality depth below [2^31] the
    eviction window of both caches is twice the depth. *)
Theorem New_accepts_every_report coordinatorAddress dkgAddress contract vrfUnpack
    dkgUnpack t lookback poller depth :
  let c := New coordinatorAddress dkgAddress contract vrfUnpack dkgUnpack t
             lookback poller depth in
  (∀ height delay, ¬ blockInFlight c height delay) ∧
  (∀ height requestID, ¬ callbackInFlight c height requestID) ∧
  (∀ report, (ReportWillBeTransmitted c report).2 = None
             ↔ ∃ h, LatestBlock poller = Ok h) ∧
  (0 ≤ depth < 2 ^ 31 →
   evictionWindow (toBeTransmittedBlocks c) = 2 * depth ∧
   evictionWindow (toBeTransmittedCallbacks c) = 2 * depth).
Proof.
  intros c.
  assert (Hb : ∀ height delay, ¬ blockInFlight c height delay).
  { intros height delay (key & it & _ & Hget). unfold GetItem in Hget. simpl in Hget.
    by rewrite lookup_empty in Hget. }
  assert (Hc : ∀ height requestID, ¬ callbackInFlight c height requestID).
  { intros height requestID (key & it & _ & Hget). unfold GetItem in Hget.
    simpl in Hget. by rewrite lookup_empty in Hget. }
  split; [exact Hb|]. split; [exact Hc|]. split.
  - intros report. split.
    + intros Hok.
      destruct (ReportWillBeTransmitted c report) as [c1 err] eqn:Hcall.
      simpl in Hok. subst err.
      apply ReportWillBeTransmitted_inv in Hcall as (bs & cbs & h & _ & Hlatest & _).
      eauto.
    + intros [h Hlatest].
      destruct (proj2 (checkOutputs_ok_iff c (AbstractReport.Outputs report) [] []))
        as [[bs cbs] Hcheck].
      { split; [intros o _ _; apply Hb|intros o cb _ _; apply Hc]. }
      eapply ReportWillBeTransmitted_after_check; [exact Hcheck|exact Hlatest].
  - intros Hdepth. simpl. unfold uint32. rewrite Z.mod_small by lia. lia.
Qed.

(** X20.  With as many transmitters as signers in both ConfigSet logs, what
    the code relies on, [DKGVRFCommittees] returns the signers and the
    transmitters of each log as they are, the DKG committee first. *)
Theorem DKGVRFCommittees_equal_lengths c latestVRF latestDKG vrfLog dkgLog :
  LatestLogByEventSigWithConfs (lp c) (configSetTopic (embeddedTopics c))
    (coordinatorAddress c) (finalityDepth c) = Ok latestVRF →
  LatestLogByEventSigWithConfs (lp c) (configSetTopic (embeddedTopics c))
    (dkgAddress c) (finalityDepth c) = Ok latestDKG →
  vrfUnpackConfigSet c (Log.Data latestVRF) = Ok vrfLog →
  dkgUnpackConfigSet c (Log.Data latestDKG) = Ok dkgLog →
  length (ConfigSet.Signers vrfLog) = length (ConfigSet.Transmitters vrfLog) →
  length (ConfigSet.Signers dkgLog) = length (ConfigSet.Transmitters dkgLog) →
  DKGVRFCommittees c
  = Returns (Ok (OCRCommittee.mk (ConfigSet.Signers dkgLog) (ConfigSet.Transmitters dkgLog),
                 OCRCommittee.mk (ConfigSet.Signers vrfLog) (ConfigSet.Transmitters vrfLog))).
Proof.
  intros HlatestVRF HlatestDKG Hvrf Hdkg Hv Hd.
  unfold DKGVRFCommittees. rewrite HlatestVRF, HlatestDKG, Hvrf, Hdkg.
  rewrite (committeeOf_in_range vrfLog), (committeeOf_in_range dkgLog) by lia.
  simpl. rewrite Hv, Hd, !firstn_all. done.
Qed.

Lemma DKGVRFCommittees_equal_lengths_witness :
  DKGVRFCommittees
    (Sample.withConfig (ConfigSet.mk [1; 2] [3; 4]) (ConfigSet.mk [6] [7]))
  = Returns (Ok (OCRCommittee.mk [6] [7], OCRCommittee.mk [1; 2] [3; 4])).
Proof.
  apply (DKGVRFCommittees_equal_lengths
           (Sample.withConfig (ConfigSet.mk [1; 2] [3; 4]) (ConfigSet.mk [6] [7]))
           Sample.configLog Sample.configLog
           (ConfigSet.mk [1; 2] [3; 4]) (ConfigSet.mk [6] [7])); reflexivity.
Defined.

(** ** ReportBlocks, further *)

Section ReportBlocksMore.

Variable c : coordinator.
Variable confirmationDelays : gset Z.


(** A successful call, step by step, callbacks included. *)
Lemma ReportBlocks_inv_callbacks blocks callbacks :
  ReportBlocks c confirmationDelays = Returns (Ok (blocks, callbacks)) →
  ∃ currentHeight logs callbacksRequested fulfilledRequestIDs,
    LatestBlock (lp c) = Ok currentHeight ∧
    LogsWithSigs (lp c) (int64 (currentHeight - lookbackBlocks c)) currentHeight
      (vrfTopics c) (coordinatorAddress c) = Ok logs ∧
    filterEligibleCallbacks c
      (randomnessFulfillmentRequestedLogs (unmarshalLogs c logs))
      confirmationDelays currentHeight
    = Ok (callbacksRequested, blockOfCallback <$> callbacksRequested) ∧
    (∀ r, r ∈ callbacksRequested →
          offeredCallback c confirmationDelays currentHeight r) ∧
    getFulfilledRequestIDs (randomWordsFulfilledLogs (unmarshalLogs c logs))
    = Returns fulfilledRequestIDs ∧
    (∀ id, id ∈ fulfilledRequestIDs
           ↔ fulfilledIn (randomWordsFulfilledLogs (unmarshalLogs c logs)) id) ∧
    callbacks = filterUnfulfilledCallbacks callbacksRequested fulfilledRequestIDs
                  confirmationDelays currentHeight.
Proof.
  unfold ReportBlocks.
  destruct (LatestBlock (lp c)) as [currentHeight|] eqn:Hlatest; [|done].
  destruct (LogsWithSigs _ _ _ _ _) as [logs|] eqn:Hlogs; [|done].
  destruct (unmarshalErr _) eqn:Herr; [done|].
  destruct (getBlockhashesMappingFromRequests _ _ _ _) as [mapping [|]]; [done|].
  destruct (filterEligibleRandomnessRequests _ _ _ _) as [unfulfilled|]; [|done].
  destruct (filterEligibleCallbacksFrom_members c confirmationDelays currentHeight
              (randomnessFulfillmentRequestedLogs (unmarshalLogs c logs)) [] [])
    as (kept & Hkept & Hmem).
  unfold filterEligibleCallbacks. rewrite Hkept. cbn [app].
  destruct (getFulfilledBlocks _) as [fulfilledBlocks|]; [|done].
  cbn [outcome_bind].
  destruct (getFulfilledRequestIDs_outcome
              (randomWordsFulfilledLogs (unmarshalLogs c logs)))
    as [(_ & ids & Hids & Hidmem)|(_ & Hpanic)].
  - rewrite Hids. cbn [outcome_bind]. intros [= <- <-].
    exists currentHeight, logs, kept, ids.
    rewrite Hlogs. split; [done|]. split; [done|]. split; [done|].
    split; [|done]. intros r Hr. by apply Hmem in Hr as [_ ?].
  - by rewrite Hpanic.
Qed.

End ReportBlocksMore.





(** X23.  Every callback of a successful [ReportBlocks] has a supported
    delay, price zero, is eligible, is not in flight, and is not listed as
    fulfilled with flag 1 by any RandomWordsFulfilled log of the window. *)
Theorem ReportBlocks_callbacks_unserved c confirmationDelays blocks callbacks :
  ReportBlocks c confirmationDelays = Returns (Ok (blocks, callbacks)) →
  ∃ currentHeight logs,
    LatestBlock (lp c) = Ok currentHeight ∧
    LogsWithSigs (lp c) (int64 (currentHeight - lookbackBlocks c)) currentHeight
      (vrfTopics c) (coordinatorAddress c) = Ok logs ∧
    ∀ cb, cb ∈ callbacks →
      AbstractCostedCallbackRequest.ConfirmationDelay cb ∈ confirmationDelays ∧
      AbstractCostedCallbackRequest.Price cb = 0 ∧
      ¬ callbackInFlight c (AbstractCostedCallbackRequest.BeaconHeight cb)
          (AbstractCostedCallbackRequest.RequestID cb) ∧
      ¬ fulfilledIn (randomWordsFulfilledLogs (unmarshalLogs c logs))
          (AbstractCostedCallbackRequest.RequestID cb) ∧
      ∃ delay,
        uint32 (big.Uint64 delay) = AbstractCostedCallbackRequest.ConfirmationDelay cb ∧
        isBlockEligible (AbstractCostedCallbackRequest.BeaconHeight cb) delay
          currentHeight = true.
Proof.
  intros Hcall.
  destruct (ReportBlocks_inv_callbacks _ _ _ _ Hcall)
    as (currentHeight & logs & kept & ids & Hlatest & Hlogs & _ & Hkept & _ & Hids & ->).
  exists currentHeight, logs. split; [done|]. split; [done|].
  intros cb. unfold filterUnfulfilledCallbacks.
  rewrite filterUnfulfilledCallbacksFrom_filter. simpl.
  intros (r & -> & Hr)%list_elem_of_fmap.
  apply list_elem_of_filter in Hr as [(Hno & Hsup & Helig) Hr].
  destruct (Hkept r Hr) as (_ & _ & Hflight). simpl.
  split; [exact Hsup|]. split; [done|]. split; [exact Hflight|]. split.
  - intros Hful. by apply Hno, Hids.
  - by exists (RandomnessFulfillmentRequested.ConfDelay r).
Qed.

Lemma ReportBlocks_callbacks_unserved_witness :
  let c := Sample2.withAllLogs Sample2.callbackLogs in
  let cb := costedCallback (Sample2.callbackRequest 80 3 6) in
  ReportBlocks c {[3]} = Returns (Ok ([Block.mk 1080 80 3], [cb])) ∧
  AbstractCostedCallbackRequest.ConfirmationDelay cb ∈ ({[3]} : gset Z) ∧
  AbstractCostedCallbackRequest.Price cb = 0 ∧
  ¬ callbackInFlight c (AbstractCostedCallbackRequest.BeaconHeight cb)
      (AbstractCostedCallbackRequest.RequestID cb) ∧
  ¬ fulfilledIn (randomWordsFulfilledLogs (unmarshalLogs c Sample2.callbackLogs))
      (AbstractCostedCallbackRequest.RequestID cb) ∧
  ∃ delay,
    uint32 (big.Uint64 delay) = AbstractCostedCallbackRequest.ConfirmationDelay cb ∧
    isBlockEligible (AbstractCostedCallbackRequest.BeaconHeight cb) delay 100 = true.
Proof.
  intros c cb.
  assert (Hcall : ReportBlocks c {[3]} = Returns (Ok ([Block.mk 1080 80 3], [cb])))
    by (vm_compute; reflexivity).
  split; [exact Hcall|].
  destruct (ReportBlocks_callbacks_unserved c {[3]} _ _ Hcall)
    as (h & logs & Hlatest & Hlogs & Hcallbacks).
  injection Hlatest as <-. injection Hlogs as <-.
  apply Hcallbacks, list_elem_of_here.
Defined.



(** X25.  When the log poller returns another number of heads than heights
    were asked for, [ReportBlocks] fails with the missing-heads error and
    returns no block. *)
Theorem ReportBlocks_missing_heads c confirmationDelays currentHeight logs :
  LatestBlock (lp c) = Ok currentHeight →
  LogsWithSigs (lp c) (int64 (currentHeight - lookbackBlocks c)) currentHeight
    (vrfTopics c) (coordinatorAddress c) = Ok logs →
  unmarshalErr (unmarshalLogs c logs) = None →
  let requested :=
    requestedBlockNumbers (randomnessRequestedLogs (unmarshalLogs c logs))
      (randomnessFulfillmentRequestedLogs (unmarshalLogs c logs)) currentHeight in
  length (GetBlocks (lp c) requested).1 ≠ length requested →
  ReportBlocks c confirmationDelays
  = Returns (Err (errWrap
                    (errWrap (errMissingHeads (length requested)
                                (length (GetBlocks (lp c) requested).1))
                       "get blockhashes for ReportBlocks")
                    "get blockhashes in ReportBlocks")).
Proof.
  intros Hlatest Hlogs Herr requested Hlen.
  unfold ReportBlocks. rewrite Hlatest, Hlogs, Herr.
  unfold getBlockhashesMappingFromRequests, getBlockhashesMapping.
  fold requested. destruct (GetBlocks (lp c) requested) as [heads err].
  simpl in Hlen. by rewrite decide_True.
Qed.

Lemma ReportBlocks_missing_heads_witness :
  ReportBlocks (Sample2.withLogsNoHeads Sample.servedLogs) {[3]}
  = Returns (Err (errWrap
                    (errWrap (errMissingHeads 2 0) "get blockhashes for ReportBlocks")
                    "get blockhashes in ReportBlocks")).
Proof.
  rewrite (ReportBlocks_missing_heads (Sample2.withLogsNoHeads Sample.servedLogs)
             {[3]} 100 Sample.servedLogs).
  - vm_compute. reflexivity.
  - reflexivity.
  - reflexivity.
  - vm_compute. reflexivity.
  - vm_compute. discriminate.
Defined.

(** X26.  When some log of the window has one of the four signatures and
    does not parse to the event type of that signature, the NewTransmission
    case included, [ReportBlocks] fails with the wrapped decoding error. *)
Theorem ReportBlocks_undecodable_log c confirmationDelays currentHeight logs :
  LatestBlock (lp c) = Ok currentHeight →
  LogsWithSigs (lp c) (int64 (currentHeight - lookbackBlocks c)) currentHeight
    (vrfTopics c) (coordinatorAddress c) = Ok logs →
  ¬ Forall (decodes c) logs →
  ∃ e, ReportBlocks c confirmationDelays = Returns (Err (errWrap e "unmarshal logs")).
Proof.
  intros Hlatest Hlogs Hbad. unfold ReportBlocks. rewrite Hlatest, Hlogs.
  destruct (unmarshalErr (unmarshalLogs c logs)) as [e|] eqn:Herr; [by eexists|].
  exfalso. apply Hbad. unfold unmarshalLogs in Herr.
  by apply unmarshalLoop_ok_iff in Herr as [_ ?].
Qed.

Lemma ReportBlocks_undecodable_log_witness :
  ∃ e, ReportBlocks (Sample.withLogs [Sample.logOf 15 11 80; Sample.logOf 11 11 90]) {[3]}
       = Returns (Err (errWrap e "unmarshal logs")).
Proof.
  apply (ReportBlocks_undecodable_log
           (Sample.withLogs [Sample.logOf 15 11 80; Sample.logOf 11 11 90]) {[3]} 100
           [Sample.logOf 15 11 80; Sample.logOf 11 11 90]).
  - reflexivity.
  - reflexivity.
  - intros Hall. apply Forall_cons in Hall as [Hfirst _].
    vm_compute in Hfirst. by destruct Hfirst.
Defined.

(** X27.  A callback served by an accepted report is not offered again:
    whatever the log poller shows later, a [ReportBlocks] on the caches the
    accepted report left returns no callback of that height and request. *)
Theorem accepted_callback_not_reoffered c report c1 c2 height requestID
    confirmationDelays blocks callbacks :
  0 ≤ evictionWindow (toBeTransmittedCallbacks c) →
  ReportWillBeTransmitted c report = (c1, None) →
  reportsCallback report height requestID →
  toBeTransmittedCallbacks c2 = toBeTransmittedCallbacks c1 →
  ReportBlocks c2 confirmationDelays = Returns (Ok (blocks, callbacks)) →
  ∀ cb, cb ∈ callbacks →
    ¬ (AbstractCostedCallbackRequest.BeaconHeight cb = height ∧
       AbstractCostedCallbackRequest.RequestID cb = requestID).
Proof.
  intros Hw Hcall Hreports Hsame Hblocks cb Hcb [Hheight Hrequest].
  assert (Hflight : callbackInFlight c2 height requestID).
  { destruct (accepted_callbacks_in_flight c report c1 height requestID Hw Hcall Hreports)
      as (key & it & Hkey & Hget).
    exists key, it. split; [done|]. by rewrite Hsame. }
  destruct (ReportBlocks_inv_callbacks _ _ _ _ Hblocks)
    as (currentHeight & logs & kept & ids & _ & _ & _ & Hkept & _ & _ & ->).
  unfold filterUnfulfilledCallbacks in Hcb.
  rewrite filterUnfulfilledCallbacksFrom_filter in Hcb. simpl in Hcb.
  apply list_elem_of_fmap in Hcb as (r & -> & Hr).
  apply list_elem_of_filter in Hr as [_ Hr].
  destruct (Hkept r Hr) as (_ & _ & Hno). simpl in Hheight, Hrequest.
  apply Hno. by rewrite Hheight, Hrequest.
Qed.

Lemma accepted_callback_not_reoffered_witness :
  let c := Sample2.withAllLogs Sample2.callbackLogs in
  let report := AbstractReport.mk [Sample.output 80 3 [] [Sample.request 80 6]] in
  let c1 := (ReportWillBeTransmitted c report).1 in
  ReportBlocks c {[3]}
  = Returns (Ok ([Block.mk 1080 80 3], [costedCallback (Sample2.callbackRequest 80 3 6)])) ∧
  ReportBlocks c1 {[3]} = Returns (Ok ([], [])) ∧
  ∀ cb, cb ∈ [] →
    ¬ (AbstractCostedCallbackRequest.BeaconHeight cb = 80 ∧
       AbstractCostedCallbackRequest.RequestID cb = 6).
Proof.
  intros c report c1.
  assert (Hafter : ReportBlocks c1 {[3]} = Returns (Ok ([], [])))
    by (vm_compute; reflexivity).
  split; [vm_compute; reflexivity|]. split; [exact Hafter|].
  apply (accepted_callback_not_reoffered c report c1 c1 80 6 {[3]} [] []).
  - vm_compute. discriminate.
  - vm_compute. reflexivity.
  - exists (Sample.output 80 3 [] [Sample.request 80 6]), (Sample.request 80 6).
    repeat split; apply list_elem_of_here.
  - reflexivity.
  - exact Hafter.
Defined.

(** X28.  An accepted report leaves an entry that was cached before the
    call as it is when the latest block is within the eviction window of
    the entry's height, and removes it otherwise; this in both caches. *)
Theorem accepted_report_evicts_by_window c report c1 :
  ReportWillBeTransmitted c report = (c1, None) →
  ∃ h, LatestBlock (lp c) = Ok h ∧
    (∀ key e, cache (toBeTransmittedBlocks c) !! key = Some e →
       cache (toBeTransmittedBlocks c1) !! key
       = if decide (itemHeight e + evictionWindow (toBeTransmittedBlocks c) < h)
         then None else Some e) ∧
    (∀ key e, cache (toBeTransmittedCallbacks c) !! key = Some e →
       cache (toBeTransmittedCallbacks c1) !! key
       = if decide (itemHeight e + evictionWindow (toBeTransmittedCallbacks c) < h)
         then None else Some e).
Proof.
  intros Hcall.
  apply ReportWillBeTransmitted_inv in Hcall
    as (bs & cbs & h & Hcheck & Hlatest & Hblocks & Hcallbacks).
  apply checkOutputs_fresh in Hcheck as [Hb Hc].
  exists h. split; [done|]. split.
  - intros key e He. rewrite Hblocks, lookup_EvictExpiredItems.
    rewrite addBlocks_other, He, addBlocks_window; [done|].
    intros b Hbin Hkey. destruct (Hb b Hbin) as [Hnil|(k & Hk & Hnone)].
    + by apply elem_of_nil in Hnil.
    + rewrite Hkey in Hk. injection Hk as <-. congruence.
  - intros key e He. rewrite Hcallbacks, lookup_EvictExpiredItems.
    rewrite addCallbacks_other, He, addCallbacks_window; [done|].
    intros cb Hcbin Hkey. destruct (Hc cb Hcbin) as [Hnil|(k & Hk & Hnone)].
    + by apply elem_of_nil in Hnil.
    + rewrite Hkey in Hk. injection Hk as <-. congruence.
Qed.

Lemma accepted_report_evicts_by_window_witness :
  let c1 := (ReportWillBeTransmitted Sample.fresh Sample.report1).1 in
  let later := mkCoordinator (Sample.poller 111) (embeddedTopics c1) (lookbackBlocks c1)
                 (finalityDepth c1) (coordinatorContract c1) (vrfUnpackConfigSet c1)
                 (dkgUnpackConfigSet c1) (coordinatorAddress c1) (dkgAddress c1)
                 (toBeTransmittedBlocks c1) (toBeTransmittedCallbacks c1) in
  let c2 := (ReportWillBeTransmitted later (AbstractReport.mk [])).1 in
  cache (toBeTransmittedBlocks c1) !! BytesToHash emptyObject
  = Some (mkItem (mkBlock 0 90 3) 100) ∧
  cache (toBeTransmittedBlocks c2) !! BytesToHash emptyObject = None.
Proof.
  intros c1 later c2.
  assert (Hbefore : cache (toBeTransmittedBlocks later) !! BytesToHash emptyObject
                    = Some (mkItem (mkBlock 0 90 3) 100)) by (vm_compute; reflexivity).
  split; [exact Hbefore|].
  destruct (accepted_report_evicts_by_window later (AbstractReport.mk []) c2)
    as (h & Hlatest & Hblocks & _).
  - vm_compute. reflexivity.
  - injection Hlatest as <-. rewrite (Hblocks _ _ Hbefore). reflexivity.
Defined.
